(** * SEO analyzer: orchestration core, score heuristics and job lifecycle

    A shallow embedding of the Python sources
    [orchestrator.py], [server.py], [database.py], [observability.py],
    [tools.py] and [main.py], followed by the properties established
    about them.

    Conventions.
    - A Python [str] is a [string] whose characters are code points below
      256; [int] is [Z]; a [dict] whose iteration order matters is an
      insertion-ordered association list, other dictionaries are [gmap]s.
    - Everything outside the process (the reasoning capability, SQLite,
      the session service, the clock, the PDF renderer) is an oracle in
      the record [Env]; a fault of such a collaborator is an oracle answer.
    - Effects are threaded through a state-and-exception monad. *)

From Stdlib Require Import Ascii String.
From stdpp Require Import base numbers option list gmap strings pretty.
From stdpp Require Import sorting.

Local Open Scope string_scope.
Local Open Scope list_scope.
Local Open Scope Z_scope.

(** A call either returns a value or raises; [msg] is [str(e)]. *)
Inductive outcome (A : Type) : Type :=
| Ret (a : A)
| Raise (msg : string).
Arguments Ret {A} a.
Arguments Raise {A} msg.

(* ================================================================== *)
(** * Python string primitives *)
(* ================================================================== *)

Module Py.

Definition code (c : ascii) : N := N_of_ascii c.

Definition between (lo hi n : N) : bool := ((lo <=? n) && (n <=? hi))%N.

(** [str.isdigit] restricted to the decimal digits, which is what
    [\d] matches below code point 256. *)
Definition isdigit (c : ascii) : bool := between 48 57 (code c).

(** [str.isspace], which is what [\s] matches: TAB..CR, FS..US, SPACE,
    NEL and NBSP. *)
Definition isspace (c : ascii) : bool :=
  let n := code c in
  (between 9 13 n || between 28 32 n || (n =? 133) || (n =? 160))%N.

(** [str.lower] on one code point: A-Z and the Latin-1 capitals. *)
Definition lower_char (c : ascii) : ascii :=
  let n := code c in
  if (between 65 90 n || (between 192 222 n && negb (n =? 215)))%N
  then ascii_of_N (n + 32) else c.

Fixpoint lower (s : string) : string :=
  match s with
  | EmptyString => EmptyString
  | String c s' => String (lower_char c) (lower s')
  end.

(** [str.upper] is only applied to agent names (ASCII identifiers). *)
Definition upper_char (c : ascii) : ascii :=
  let n := code c in
  if between 97 122 n then ascii_of_N (n - 32) else c.

Fixpoint upper (s : string) : string :=
  match s with
  | EmptyString => EmptyString
  | String c s' => String (upper_char c) (upper s')
  end.

(** [s.startswith(p)] *)
Fixpoint startswith (p s : string) : bool :=
  match p with
  | EmptyString => true
  | String a p' =>
      match s with
      | String c s' => Ascii.eqb a c && startswith p' s'
      | EmptyString => false
      end
  end.

Fixpoint lstrip (s : string) : string :=
  match s with
  | String c s' => if isspace c then lstrip s' else s
  | EmptyString => EmptyString
  end.

Fixpoint rstrip (s : string) : string :=
  match s with
  | EmptyString => EmptyString
  | String c s' =>
      match rstrip s' with
      | EmptyString => if isspace c then EmptyString else String c EmptyString
      | r => String c r
      end
  end.

(** [s.strip()] *)
Definition strip (s : string) : string := rstrip (lstrip s).

Definition digit_value (c : ascii) : Z := Z.of_N (code c - 48).

Fixpoint digits_value (acc : Z) (s : string) : option Z :=
  match s with
  | EmptyString => Some acc
  | String c s' =>
      if isdigit c then digits_value (10 * acc + digit_value c) s' else None
  end.

(** [sys.get_int_max_str_digits()], at its default. *)
Definition int_max_str_digits : Z := 4300.

Definition unsigned_int (s : string) : option Z :=
  match s with
  | EmptyString => None
  | _ =>
      if Z.of_nat (String.length s) <=? int_max_str_digits
      then digits_value 0 s else None
  end.

(** [int(s)] in base 10; [None] stands for [ValueError].  Surrounding
    white space and one sign are accepted, and a text of more than 4300
    digits is refused, leading zeros counted.  (Underscore separators
    are left out: no text handed to [int] here contains one.) *)
Definition int (s : string) : option Z :=
  match strip s with
  | String "-" t => Z.opp <$> unsigned_int t
  | String "+" t => unsigned_int t
  | t => unsigned_int t
  end.

(** Truthiness of a string and of an integer. *)
Definition truthy_str (s : string) : bool :=
  match s with EmptyString => false | _ => true end.

Definition truthy_int (z : Z) : bool := negb (z =? 0).

(** [sub in s] *)
Fixpoint contains (sub s : string) : bool :=
  startswith sub s ||
  match s with
  | String _ s' => contains sub s'
  | EmptyString => false
  end.

(** [s.replace(old, new)] for a non-empty [old]: the occurrences are
    replaced from left to right without overlap; [skip] counts the
    characters of the occurrence being replaced that are still ahead. *)
Fixpoint replace_from (old new : string) (skip : nat) (s : string) : string :=
  match s with
  | EmptyString => EmptyString
  | String c s' =>
      match skip with
      | S skip' => replace_from old new skip' s'
      | O =>
          if startswith old s
          then new +:+ replace_from old new (String.length old - 1) s'
          else String c (replace_from old new 0 s')
      end
  end.

(** [s.replace('', new)] puts [new] before every character and at the
    end. *)
Fixpoint interleave (new s : string) : string :=
  match s with
  | EmptyString => new
  | String c s' => new +:+ String c (interleave new s')
  end.

Definition replace (old new s : string) : string :=
  match old with
  | EmptyString => interleave new s
  | _ => replace_from old new 0 s
  end.

(** [s.split(sep)] for a separator of one character. *)
Fixpoint split (sep : ascii) (s : string) : list string :=
  match s with
  | EmptyString => [EmptyString]
  | String c s' =>
      if Ascii.eqb c sep then EmptyString :: split sep s'
      else
        match split sep s' with
        | piece :: pieces => String c piece :: pieces
        | [] => [String c EmptyString]
        end
  end.

(** [s.split(sep, 1)] *)
Fixpoint split_once (sep : ascii) (s : string) : list string :=
  match s with
  | EmptyString => [EmptyString]
  | String c s' =>
      if Ascii.eqb c sep then [EmptyString; s']
      else
        match split_once sep s' with
        | piece :: pieces => String c piece :: pieces
        | [] => [String c EmptyString]
        end
  end.

(** [str(n)] and [f"{n}"] for an integer. *)
Definition str_nat (n : nat) : string := pretty n.

(** [str(e)] of the [ValueError] that [int] raises for a run of more
    than 4300 digits. *)
Definition int_limit_message (digits : nat) : string :=
  "Exceeds the limit (4300 digits) for integer string conversion: value has "
  +:+ str_nat digits
  +:+ " digits; use sys.set_int_max_str_digits() to increase the limit".


End Py.

(* ================================================================== *)
(** * The fragment of Python's [re] the sources use *)
(* ================================================================== *)

Module Re.

Record flags := { IGNORECASE : bool; DOTALL : bool }.

Definition no_flags : flags := {| IGNORECASE := false; DOTALL := false |}.

Inductive regex :=
| Eps
| Lit (l : string)                (* literal text *)
| Cls (p : ascii → bool)          (* one character of a class *)
| Dot                             (* [.] *)
| Cat (r1 r2 : regex)
| Alt (r1 r2 : regex)             (* [r1|r2], tried left to right *)
| Opt (r : regex)                 (* [r?] *)
| Star (r : regex)                (* [c*], [c] a one-character pattern *)
| Plus (r : regex)                (* [c+] *)
| StarLazy (r : regex)            (* [c*?] *)
| Group (n : nat) (r : regex).    (* capturing group number [n] *)

(** Captured groups, most recent binding first. *)
Definition captures := list (nat * string).

Fixpoint group_opt (n : nat) (m : captures) : option string :=
  match m with
  | [] => None
  | (i, s) :: m' => if Nat.eqb i n then Some s else group_opt n m'
  end.

(** [match.group(n)]; group [n] takes part in every match of the
    patterns below, so the default is never read. *)
Definition group (n : nat) (m : captures) : string :=
  default "" (group_opt n m).

Fixpoint seq (rs : list regex) : regex :=
  match rs with
  | [] => Eps
  | [r] => r
  | r :: rs' => Cat r (seq rs')
  end.

Fixpoint alts (rs : list regex) : regex :=
  match rs with
  | [] => Eps
  | [r] => r
  | r :: rs' => Alt r (alts rs')
  end.

Section Matcher.
Variable fl : flags.

Definition chr_eq (a c : ascii) : bool :=
  if IGNORECASE fl then Ascii.eqb (Py.lower_char a) (Py.lower_char c)
  else Ascii.eqb a c.

Definition dot_class (c : ascii) : bool :=
  DOTALL fl || negb (Ascii.eqb c "010"%char).

(** The one-character patterns a quantifier is applied to. *)
Definition single (r : regex) : ascii → bool :=
  match r with
  | Cls p => p
  | Dot => dot_class
  | _ => λ _, false
  end.

(** The rest of [s] after the literal [l], if [s] starts with it. *)
Fixpoint lit (l s : string) : option string :=
  match l with
  | EmptyString => Some s
  | String a l' =>
      match s with
      | String c s' => if chr_eq a c then lit l' s' else None
      | EmptyString => None
      end
  end.

(** The text consumed between [s] and its suffix [s']. *)
Definition consumed (s s' : string) : string :=
  substring 0 (String.length s - String.length s') s.

Context {A : Type}.

Fixpoint star_greedy (p : ascii → bool) (s : string) (m : captures)
    (k : string → captures → option A) : option A :=
  match s with
  | String c s' =>
      if p c then
        match star_greedy p s' m k with
        | Some x => Some x
        | None => k s m
        end
      else k s m
  | EmptyString => k s m
  end.

Fixpoint star_lazy (p : ascii → bool) (s : string) (m : captures)
    (k : string → captures → option A) : option A :=
  match k s m with
  | Some x => Some x
  | None =>
      match s with
      | String c s' => if p c then star_lazy p s' m k else None
      | EmptyString => None
      end
  end.

(** Backtracking matcher in continuation-passing style: [k] is what
    remains to be matched after [r]. *)
Fixpoint rmatch (r : regex) (s : string) (m : captures)
    (k : string → captures → option A) {struct r} : option A :=
  match r with
  | Eps => k s m
  | Lit l =>
      match lit l s with
      | Some s' => k s' m
      | None => None
      end
  | Cls p =>
      match s with
      | String c s' => if p c then k s' m else None
      | EmptyString => None
      end
  | Dot =>
      match s with
      | String c s' => if dot_class c then k s' m else None
      | EmptyString => None
      end
  | Cat r1 r2 => rmatch r1 s m (λ s' m', rmatch r2 s' m' k)
  | Alt r1 r2 =>
      match rmatch r1 s m k with
      | Some x => Some x
      | None => rmatch r2 s m k
      end
  | Opt r1 =>
      match rmatch r1 s m k with
      | Some x => Some x
      | None => k s m
      end
  | Star r1 => star_greedy (single r1) s m k
  | Plus r1 =>
      match s with
      | String c s' =>
          if single r1 c then star_greedy (single r1) s' m k else None
      | EmptyString => None
      end
  | StarLazy r1 => star_lazy (single r1) s m k
  | Group n r1 =>
      rmatch r1 s m (λ s' m', k s' ((n, consumed s s') :: m'))
  end.
End Matcher.

Definition match_here (fl : flags) (r : regex) (s : string) : option captures :=
  rmatch fl r s [] (λ _ m, Some m).

(** [re.search(pattern, s, flags)]: the match at the leftmost position
    that has one. *)
Fixpoint search (fl : flags) (r : regex) (s : string) : option captures :=
  match match_here fl r s with
  | Some m => Some m
  | None =>
      match s with
      | String _ s' => search fl r s'
      | EmptyString => None
      end
  end.

(** [len(re.findall(pattern, s, flags))]: matches are counted from left
    to right without overlap; [fuel] bounds the number of positions. *)
Fixpoint count_matches (fuel : nat) (fl : flags) (r : regex) (s : string) : nat :=
  match fuel with
  | O => O
  | S fuel' =>
      match rmatch fl r s [] (λ s' _, Some s'), s with
      | Some s', String _ t =>
          if (String.length s' <? String.length s)%nat
          then S (count_matches fuel' fl r s')
          else S (count_matches fuel' fl r t)
      | Some _, EmptyString => 1%nat
      | None, String _ t => count_matches fuel' fl r t
      | None, EmptyString => O
      end
  end.

Definition findall_count (fl : flags) (r : regex) (s : string) : nat :=
  count_matches (S (String.length s)) fl r s.

(** [\d], [\s] and [[:\s]]. *)
Definition d : regex := Cls Py.isdigit.
Definition ws : regex := Cls Py.isspace.
Definition colon_or_ws : regex :=
  Cls (λ c, Ascii.eqb c ":"%char || Py.isspace c).

End Re.

(* ================================================================== *)
(** * Score heuristics *)
(* ================================================================== *)

Module Scores.
Import Re.

(** orchestrator.py:392, [r'score[:\s]+(\d+)']. *)
Definition score_pattern : regex :=
  seq [Lit "score"; Plus colon_or_ws; Group 1 (Plus d)].

(** orchestrator.py:392, [re.search(r'score[:\s]+(\d+)', result.result.lower())]. *)
Definition score_search (text : string) : option captures :=
  search no_flags score_pattern (Py.lower text).

(** orchestrator.py:392-394: the score read from one worker's text:
    nothing when the search fails, otherwise [int] of the first group.
    The group is a run of digits, so the one [ValueError] that [int]
    can raise here is that of the digit limit. *)
Definition parse_score (text : string) : outcome (option Z) :=
  match score_search text with
  | Some score_match =>
      match Py.int (group 1 score_match) with
      | Some score => Ret (Some score)
      | None =>
          Raise (Py.int_limit_message (String.length (group 1 score_match)))
      end
  | None => Ret None
  end.

(** orchestrator.py:396-397 on top of the field default of
    [SEOAnalysisResult.overall_score]. *)
Definition aggregate_overall (scores : list Z) : Z :=
  match scores with
  | [] => 0
  | _ => foldr Z.add 0 scores `div` Z.of_nat (length scores)
  end.

(** server.py:35-39: [(?:k1|k2|k3).*?(?:score|rating)[:\s]*(\d+)(?:/100)?] *)
Definition category_pattern (keywords : regex) : regex :=
  seq [keywords; StarLazy Dot; alts [Lit "score"; Lit "rating"];
       Star colon_or_ws; Group 1 (Plus d); Opt (Lit "/100")].

Definition categories : list (string * regex) :=
  [ ("security", category_pattern (alts [Lit "security"; Lit "ssl"; Lit "https"]));
    ("onpage", category_pattern
                 (alts [seq [Lit "on"; Opt (Lit "-"); Lit "page"]; Lit "meta"; Lit "seo"]));
    ("content", category_pattern (alts [Lit "content"; Lit "text"; Lit "quality"]));
    ("performance", category_pattern (alts [Lit "performance"; Lit "speed"; Lit "loading"]));
    ("indexability", category_pattern (alts [Lit "indexability"; Lit "crawl"; Lit "robot"])) ].

(** server.py:54, [rf"#{1,3}\s*{category}.*?(\d+)\s*/\s*100"].  The
    literal is an f-string, so [{1,3}] is a replacement field holding the
    tuple [(1, 3)]: the pattern text is
    [#(1, 3)\s*<category>.*?(\d+)\s*/\s*100], whose first group is the
    text [1, 3] and whose second group is the number. *)
Definition section_pattern (category : string) : regex :=
  seq [Lit "#"; Group 1 (Lit "1, 3"); Star ws; Lit category; StarLazy Dot;
       Group 2 (Plus d); Star ws; Lit "/"; Star ws; Lit "100"].

Definition search_flags : flags := {| IGNORECASE := true; DOTALL := true |}.

Definition clamp (score : Z) : Z := Z.min 100 (Z.max 0 score).

(** server.py:45-62, the body of the loop for one category. *)
Definition category_score (report_lower category : string) (pattern : regex) : Z :=
  match search search_flags pattern report_lower with
  | Some m =>
      match Py.int (group 1 m) with
      | Some score => clamp score
      | None => 75
      end
  | None =>
      match search search_flags (section_pattern category) report_lower with
      | Some m =>
          match Py.int (group 1 m) with
          | Some score => score
          | None => 75
          end
      | None => 75
      end
  end.

(** server.py:26-64.  The result keeps the insertion order of the
    dictionary. *)
Definition parse_category_scores (report : string) : list (string * Z) :=
  let report_lower := Py.lower report in
  map (λ '(category, pattern), (category, category_score report_lower category pattern))
      categories.

Fixpoint dict_get {V} (k : string) (d : list (string * V)) : option V :=
  match d with
  | [] => None
  | (k', v) :: d' => if String.eqb k' k then Some v else dict_get k d'
  end.

End Scores.


(* ================================================================== *)
(** * State and exceptions *)
(* ================================================================== *)

(** A computation over a store [S]: it returns or raises, and the store
    keeps every write made before a fault. *)
Definition M (S A : Type) : Type := S → outcome A * S.

Definition ret {S A} (a : A) : M S A := λ s, (Ret a, s).

Definition raise {S A} (msg : string) : M S A := λ s, (Raise msg, s).

Definition bind {S A B} (m : M S A) (k : A → M S B) : M S B :=
  λ s, match m s with
       | (Ret a, s') => k a s'
       | (Raise msg, s') => (Raise msg, s')
       end.

(** [try: m except Exception as e: h(str(e))] *)
Definition try_except {S A} (m : M S A) (h : string → M S A) : M S A :=
  λ s, match m s with
       | (Ret a, s') => (Ret a, s')
       | (Raise msg, s') => h msg s'
       end.

Definition get {S} : M S S := λ s, (Ret s, s).

Definition modify {S} (f : S → S) : M S unit := λ s, (Ret tt, f s).

Declare Scope py_scope.
Delimit Scope py_scope with py.
Notation "x ← m ; k" := (bind m (λ x, k))
  (at level 20, m at level 100, k at level 200, only parsing) : py_scope.
Notation "m ;; k" := (bind m (λ _, k))
  (at level 100, k at level 200, right associativity) : py_scope.
Local Open Scope py_scope.

(** [for x in xs: body(x)] *)
Fixpoint for_each {S A} (xs : list A) (body : A → M S unit) : M S unit :=
  match xs with
  | [] => ret tt
  | x :: xs' => body x ;; for_each xs' body
  end.

(** [asyncio.gather] of the tasks with [return_exceptions=True]: every task
    runs to its end, a task that raises contributes its exception as a
    value, and the outcomes come back in the order of the tasks.  The
    tasks share the store; they are run here one after the other, their
    writes to the store being appends that do not read one another. *)
Fixpoint gather {S A} (tasks : list (M S A)) : M S (list (outcome A)) :=
  match tasks with
  | [] => ret []
  | task :: tasks' =>
      λ s, let '(o, s') := task s in
           bind (gather tasks') (λ os, ret (o :: os)) s'
  end.

(** Insertion-ordered dictionaries: [d[k] = v], [d.get(k)], [d.keys()],
    [d.values()]. *)
Fixpoint dict_set {V} (k : string) (v : V) (d : list (string * V)) : list (string * V) :=
  match d with
  | [] => [(k, v)]
  | (k', v') :: d' =>
      if String.eqb k' k then (k, v) :: d' else (k', v') :: dict_set k v d'
  end.

Definition dict_get {V} (k : string) (d : list (string * V)) : option V :=
  Scores.dict_get k d.

Definition dict_keys {V} (d : list (string * V)) : list string := map fst d.

Definition dict_values {V} (d : list (string * V)) : list V := map snd d.

(* ================================================================== *)
(** * The collaborators outside the process *)
(* ================================================================== *)

(** What [_run_agent] looks at in an event of the capability's stream:
    no (or empty) content, content with parts (a part may lack text),
    content whose [parts] is [None], or content that is a plain string;
    anything else is skipped. *)
Inductive Content :=
| Parts (parts : list (option string))
| NoParts
| Text (s : string)
| Opaque.

Definition Event := option Content.

Record Env := {
  (** [runner.run_async] of the runner of [agent_name], on a session and
      a prompt: the events of the stream, or the fault that ended it. *)
  run_async : string → string → string → list Event + string;
  (** [int((time.time() - start_time) * 1000)] as read by the worker
      [agent_name] when it logs [action]. *)
  elapsed_ms : string → string → Z;
  (** The same reading in [analyze_website]. *)
  total_elapsed_ms : Z;
  (** [str(uuid.uuid4())], by the number of identifiers drawn so far. *)
  uuid4 : nat → string;
  (** [datetime.now()] rendered, by the same count. *)
  now : nat → string;
  (** Faults of the SQLite store, by statement; [None]: it commits. *)
  db_init_fault : option string;
  db_create_fault : string → option string;
  db_update_fault : string → string → option string;
  db_log_fault : string → string → string → option string;
  (** Faults of the [SELECT] statements, by table and key. *)
  db_read_fault : string → string → option string;
  (** Faults of [InMemorySessionService.create_session], by session id. *)
  session_fault : string → option string;
  (** [pdf_service.generate_report_pdf(markdown_content, url, request_id,
      score)], which is not part of these sources. *)
  generate_report_pdf : string → string → string → Z → outcome (option string);
  (** [config.GOOGLE_API_KEY] *)
  GOOGLE_API_KEY : option string;
}.

(** Run a computation on a component of a larger store. *)
Definition zoom {S T A} (proj : T → S) (upd : S → T → T) (m : M S A) : M T A :=
  λ t, let '(o, s') := m (proj t) in (o, upd s' t).

(* ================================================================== *)
(** * database.py *)
(* ================================================================== *)

Module Database.

(** The [details] dictionaries the orchestrator logs. *)
Inductive Details :=
| ResultLength (result_length : nat)
| Error (error : string)
| Url (url : string).

(** The [analysis_result] document written with the final status. *)
Record AgentSummary := {
  s_success : bool;
  s_duration_ms : Z;
  s_error : option string;
}.

Record AnalysisDoc := {
  d_agent_results : list (string * AgentSummary);
  d_overall_score : Z;
  d_total_duration_ms : Z;
}.

(** A row of [analysis_requests], keyed by [unique_identifier];
    [completed_at] records whether the column has been set. *)
Record Row := {
  website_url : string;
  status : string;
  completed_at : bool;
  analysis_result : option AnalysisDoc;
  report_markdown : option string;
  error_message : option string;
}.

(** A row of [analysis_logs]. *)
Record LogRow := {
  l_request_id : string;
  l_agent_name : string;
  l_action : string;
  l_details : option Details;
  l_duration_ms : option Z;
}.

(** The tables, and [status_writes]: every committed write of a
    [status] column, oldest first, which is what a reader polling the
    row can have seen. *)
Record DatabaseClient := {
  analysis_requests : gmap string Row;
  analysis_logs : list LogRow;
  status_writes : list (string * string);
}.

Definition empty : DatabaseClient :=
  {| analysis_requests := ∅; analysis_logs := []; status_writes := [] |}.

Record RequestData := {
  unique_identifier : string;
  r_website_url : string;
  r_status : string;
}.

Section Client.
Variable env : Env.

(** database.py:90-106; [unique_identifier] is the first eight
    characters of a fresh uuid, and the column is [UNIQUE]. *)
Definition create_analysis_request (uuid website_url : string)
    : M DatabaseClient RequestData :=
  let unique_identifier := substring 0 8 uuid in
  match db_create_fault env website_url with
  | Some fault => raise fault
  | None =>
      λ self,
        match analysis_requests self !! unique_identifier with
        | Some _ =>
            (Raise "UNIQUE constraint failed: analysis_requests.unique_identifier", self)
        | None =>
            (Ret {| unique_identifier := unique_identifier;
                    r_website_url := website_url;
                    r_status := "pending" |},
             {| analysis_requests :=
                  <[unique_identifier :=
                      {| website_url := website_url; status := "pending";
                         completed_at := false; analysis_result := None;
                         report_markdown := None; error_message := None |}]>
                    (analysis_requests self);
                analysis_logs := analysis_logs self;
                status_writes :=
                  status_writes self ++ [(unique_identifier, "pending")] |})
        end
  end.

(** database.py:108-119 *)
Definition get_request_by_identifier (unique_identifier : string)
    : M DatabaseClient (option Row) :=
  match db_read_fault env "analysis_requests" unique_identifier with
  | Some fault => raise fault
  | None => λ self, (Ret (analysis_requests self !! unique_identifier), self)
  end.

(** The [UPDATE] statement built at database.py:133-157. *)
Definition updated_row (row : Row) (status : string)
    (analysis_result : option AnalysisDoc)
    (report_markdown error_message : option string) : Row :=
  {| website_url := website_url row;
     status := status;
     completed_at :=
       if String.eqb status "completed" then true else completed_at row;
     analysis_result :=
       match analysis_result with
       | Some doc => Some doc
       | None => Database.analysis_result row
       end;
     report_markdown :=
       match report_markdown with
       | Some text =>
           if Py.truthy_str text then Some text else Database.report_markdown row
       | None => Database.report_markdown row
       end;
     error_message :=
       match error_message with
       | Some text =>
           if Py.truthy_str text then Some text else Database.error_message row
       | None => Database.error_message row
       end |}.

(** database.py:121-160; the result is [cursor.rowcount > 0]. *)
Definition update_request_status (unique_identifier status : string)
    (analysis_result : option AnalysisDoc)
    (report_markdown error_message : option string)
    : M DatabaseClient bool :=
  match db_update_fault env unique_identifier status with
  | Some fault => raise fault
  | None =>
      λ self,
        match analysis_requests self !! unique_identifier with
        | Some row =>
            (Ret true,
             {| analysis_requests :=
                  <[unique_identifier :=
                      updated_row row status analysis_result
                        report_markdown error_message]>
                    (analysis_requests self);
                analysis_logs := analysis_logs self;
                status_writes :=
                  status_writes self ++ [(unique_identifier, status)] |})
        | None => (Ret false, self)
        end
  end.

(** database.py:162-182 *)
Definition log_agent_action (request_id agent_name action : string)
    (details : option Details) (duration_ms : option Z)
    : M DatabaseClient unit :=
  match db_log_fault env request_id agent_name action with
  | Some fault => raise fault
  | None =>
      modify (λ self,
        {| analysis_requests := analysis_requests self;
           analysis_logs :=
             analysis_logs self ++
               [{| l_request_id := request_id; l_agent_name := agent_name;
                   l_action := action; l_details := details;
                   l_duration_ms := duration_ms |}];
           status_writes := status_writes self |})
  end.

(** database.py:184-193 (rows in insertion order). *)
Definition get_analysis_logs (request_id : string)
    : M DatabaseClient (list LogRow) :=
  match db_read_fault env "analysis_logs" request_id with
  | Some fault => raise fault
  | None =>
      λ self,
        (Ret (filter (λ row, l_request_id row = request_id) (analysis_logs self)),
         self)
  end.
End Client.

(** ** The table of session states

    [save_session_state] and [get_session_state] read and write the table
    [session_states] only.  [json.dumps] and [json.loads] are the
    library's; [J] stands for the values handed to them. *)

(** A row of [session_states], keyed by [session_id]; [state_data]
    holds the text written by [json.dumps]. *)
Record SessionRow := {
  ss_agent_name : string;
  ss_state_data : string;
}.

(** The [state_data] entry of the dictionary [get_session_state]
    returns: the column as stored, or what [json.loads] made of it. *)
Inductive StateData (J : Type) :=
| Stored (text : string)
| Loaded (value : J).
Arguments Stored {J} text.
Arguments Loaded {J} value.

Record SessionState (J : Type) := {
  g_session_id : string;
  g_agent_name : string;
  g_state_data : StateData J;
}.
Arguments g_session_id {J} _.
Arguments g_agent_name {J} _.
Arguments g_state_data {J} _.

Section Sessions.
Context {J : Type}.
Variable dumps : J → outcome string.
Variable loads : string → outcome J.
(** Faults of the store for the two statements, by session id. *)
Variable db_upsert_fault : string → option string.
Variable db_select_fault : string → option string.

(** database.py:195-213: [INSERT ... ON CONFLICT(session_id) DO UPDATE
    SET state_data = excluded.state_data]. *)
Definition save_session_state (session_id agent_name : string) (state_data : J)
    : M (gmap string SessionRow) bool :=
  match dumps state_data with
  | Raise msg => raise msg
  | Ret text =>
      match db_upsert_fault session_id with
      | Some fault => raise fault
      | None =>
          λ session_states,
            (Ret true,
             match session_states !! session_id with
             | Some row =>
                 <[session_id := {| ss_agent_name := ss_agent_name row;
                                    ss_state_data := text |}]> session_states
             | None =>
                 <[session_id := {| ss_agent_name := agent_name;
                                    ss_state_data := text |}]> session_states
             end)
      end
  end.

(** database.py:215-229 *)
Definition get_session_state (session_id : string)
    : M (gmap string SessionRow) (option (SessionState J)) :=
  match db_select_fault session_id with
  | Some fault => raise fault
  | None =>
      λ session_states,
        match session_states !! session_id with
        | Some row =>
            if Py.truthy_str (ss_state_data row) then
              match loads (ss_state_data row) with
              | Ret value =>
                  (Ret (Some {| g_session_id := session_id;
                                g_agent_name := ss_agent_name row;
                                g_state_data := Loaded value |}),
                   session_states)
              | Raise msg => (Raise msg, session_states)
              end
            else
              (Ret (Some {| g_session_id := session_id;
                            g_agent_name := ss_agent_name row;
                            g_state_data := Stored (ss_state_data row) |}),
               session_states)
        | None => (Ret None, session_states)
        end
  end.
End Sessions.

End Database.

(* ================================================================== *)
(** * observability.py *)
(* ================================================================== *)

Module Observability.

Record Span := {
  name : string;
  trace_id : string;
  span_id : string;
  parent_span_id : option string;
  duration_ms : option Z;
  status : string;
  attributes : list (string * string);
}.

Record Tracer := {
  spans : list Span;
  _span_id_counter : nat;
  _trace_id_counter : nat;
  _current_trace_id : option string;
  _current_span_id : option string;
}.

(** Counters and histograms, keyed by metric name and labels (the
    labels sorted by key, as [json.dumps(..., sort_keys=True)] does). *)
Definition Labels := list (string * string).

Record MetricsCollector := {
  _counters : list (string * Labels * Z);
  _histograms : list (string * Labels * list Z);
}.

(** The module globals [tracer], [metrics] and [trace_filter]. *)
Record Globals := {
  tracer : Tracer;
  metrics : MetricsCollector;
  trace_filter_trace_id : option string;
}.

Definition initial : Globals :=
  {| tracer := {| spans := []; _span_id_counter := 0; _trace_id_counter := 0;
                  _current_trace_id := None; _current_span_id := None |};
     metrics := {| _counters := []; _histograms := [] |};
     trace_filter_trace_id := None |}.

Definition with_tracer (t : Tracer) (g : Globals) : Globals :=
  {| tracer := t; metrics := metrics g;
     trace_filter_trace_id := trace_filter_trace_id g |}.

Definition with_metrics (m : MetricsCollector) (g : Globals) : Globals :=
  {| tracer := tracer g; metrics := m;
     trace_filter_trace_id := trace_filter_trace_id g |}.

(** [f"{n:0{width}d}"] *)
Definition zero_padded (width n : nat) : string :=
  let digits := pretty n in
  String.concat "" (replicate (width - String.length digits) "0") +:+ digits.

Fixpoint bump {K} `{EqDecision K} (key : K) (value : Z) (cs : list (K * Z))
    : list (K * Z) :=
  match cs with
  | [] => [(key, value)]
  | (k, v) :: cs' =>
      if decide (k = key) then (k, v + value) :: cs' else (k, v) :: bump key value cs'
  end.

Fixpoint observe {K} `{EqDecision K} (key : K) (value : Z) (hs : list (K * list Z))
    : list (K * list Z) :=
  match hs with
  | [] => [(key, [value])]
  | (k, vs) :: hs' =>
      if decide (k = key) then (k, (vs ++ [value])%list) :: hs'
      else (k, vs) :: observe key value hs'
  end.

(** observability.py:120-129 *)
Definition counter (name : string) (value : Z) (labels : Labels)
    : M Globals unit :=
  modify (λ g, with_metrics
                 {| _counters := bump (name, labels) value (_counters (metrics g));
                    _histograms := _histograms (metrics g) |} g).

(** observability.py:142-153 *)
Definition histogram (name : string) (value : Z) (labels : Labels)
    : M Globals unit :=
  modify (λ g, with_metrics
                 {| _counters := _counters (metrics g);
                    _histograms :=
                      observe (name, labels) value (_histograms (metrics g)) |} g).

Section Tracing.
Variable env : Env.

(** observability.py:194-198 *)
Definition _generate_trace_id (t : Tracer) : string * Tracer :=
  let n := S (_trace_id_counter t) in
  ("trace_" +:+ now env n +:+ "_" +:+ zero_padded 4 n,
   {| spans := spans t; _span_id_counter := _span_id_counter t;
      _trace_id_counter := n;
      _current_trace_id := _current_trace_id t;
      _current_span_id := _current_span_id t |}).

(** observability.py:189-192 *)
Definition _generate_span_id (t : Tracer) : string * Tracer :=
  let n := S (_span_id_counter t) in
  ("span_" +:+ zero_padded 8 n,
   {| spans := spans t; _span_id_counter := n;
      _trace_id_counter := _trace_id_counter t;
      _current_trace_id := _current_trace_id t;
      _current_span_id := _current_span_id t |}).

(** observability.py:200-205 *)
Definition start_trace (name : string) : M Globals string :=
  λ g,
    let '(trace_id, t) := _generate_trace_id (tracer g) in
    (Ret trace_id,
     {| tracer := {| spans := spans t; _span_id_counter := _span_id_counter t;
                     _trace_id_counter := _trace_id_counter t;
                     _current_trace_id := Some trace_id;
                     _current_span_id := _current_span_id t |};
        metrics := metrics g;
        trace_filter_trace_id := Some trace_id |}).

(** observability.py:207-212 *)
Definition end_trace : M Globals unit :=
  modify (λ g,
    {| tracer := {| spans := spans (tracer g);
                    _span_id_counter := _span_id_counter (tracer g);
                    _trace_id_counter := _trace_id_counter (tracer g);
                    _current_trace_id := None;
                    _current_span_id := None |};
       metrics := metrics g;
       trace_filter_trace_id := None |}).

Definition close_span (span_obj : Span) (parent_span_id : option string)
    (t : Tracer) : Tracer :=
  {| spans := spans t ++ [span_obj];
     _span_id_counter := _span_id_counter t;
     _trace_id_counter := _trace_id_counter t;
     _current_trace_id := _current_trace_id t;
     _current_span_id := parent_span_id |}.

(** observability.py:214-242, [with tracer.span(name): body]: the
    span is appended whether [body] returns or raises, and a fault of
    [body] is raised again. *)
Definition span {A} (name : string) (body : M Globals A) : M Globals A :=
  λ g,
    let '(trace_id, t1) :=
      match _current_trace_id (tracer g) with
      | Some trace_id => (trace_id, tracer g)
      | None => _generate_trace_id (tracer g)
      end in
    let '(span_id, t2) := _generate_span_id t1 in
    let parent_span_id := _current_span_id t2 in
    let opened :=
      {| spans := spans t2; _span_id_counter := _span_id_counter t2;
         _trace_id_counter := _trace_id_counter t2;
         _current_trace_id := _current_trace_id t2;
         _current_span_id := Some span_id |} in
    let span_obj status attributes :=
      {| name := name; trace_id := trace_id; span_id := span_id;
         parent_span_id := parent_span_id;
         duration_ms := Some (elapsed_ms env name "span");
         status := status; attributes := attributes |} in
    match body (with_tracer opened g) with
    | (Ret a, g') =>
        (Ret a, with_tracer (close_span (span_obj "completed" []) parent_span_id
                               (tracer g')) g')
    | (Raise msg, g') =>
        (Raise msg,
         with_tracer (close_span (span_obj "error" [("error", msg)]) parent_span_id
                        (tracer g')) g')
    end.

(** observability.py:316-319 *)
Definition log_agent_start (agent_name url request_id : string) : M Globals unit :=
  counter "agent_starts" 1 [("agent", agent_name)].

(** observability.py:322-327 *)
Definition log_agent_complete (agent_name : string) (duration_ms : Z)
    (success : bool) (request_id : string) : M Globals unit :=
  let status := if success then "success" else "error" in
  counter "agent_completions" 1 [("agent", agent_name); ("status", status)] ;;
  histogram "agent_duration" duration_ms [("agent", agent_name)].

(** observability.py:330-334 *)
Definition log_analysis_start (url request_id : string) : M Globals unit :=
  start_trace ("seo_analysis_" +:+ request_id) ;;
  counter "analysis_starts" 1 [].

(** observability.py:337-342 *)
Definition log_analysis_complete (request_id : string) (total_duration_ms : Z)
    (status : string) : M Globals unit :=
  counter "analysis_completions" 1 [("status", status)] ;;
  histogram "analysis_duration" total_duration_ms [] ;;
  end_trace.
End Tracing.

End Observability.

(** A pure step that may raise, run inside a computation. *)
Definition lift {S A} (o : outcome A) : M S A := λ s, (o, s).

(* ================================================================== *)
(** * agents.py and tools.py *)
(* ================================================================== *)

Module Agents.
(** The [name] of each agent of [ANALYSIS_AGENTS], in order, and of
    [report_agent]. *)
Definition ANALYSIS_AGENTS : list string :=
  ["security_agent"; "onpage_agent"; "content_agent"; "performance_agent";
   "indexability_agent"].

Definition report_agent : string := "report_agent".
End Agents.

Module Tools.
(** tools.py:22-27 *)
Definition normalize_url (url : string) : string :=
  let url := Py.strip url in
  if negb (Py.startswith "http://" url || Py.startswith "https://" url)
  then "https://" +:+ url else url.

(** ** The collaborators of the tools

    [requests], [urllib.parse], [ssl] and [BeautifulSoup] are outside
    these sources; what the tools read from them is an oracle answer. *)

(** What the tools read of a [requests.Response]. *)
Record Response := {
  resp_url : string;                  (* [response.url], after redirects *)
  status_code : Z;
  text : string;
  headers : string → option string;   (* [response.headers.get(name)] *)
}.

(** [bool(response)] is [response.ok]: the status is no 4xx or 5xx. *)
Definition ok (response : Response) : bool :=
  negb ((400 <=? status_code response) && (status_code response <? 600)).

(** What [requests.get] ends in: a response, a [RequestException], or
    another exception. *)
Inductive Fetch :=
| Fetched (response : Response)
| RequestException (msg : string)
| OtherException (msg : string).

(** The two attributes read of [urlparse(url)]. *)
Record ParseResult := {
  scheme : string;
  netloc : string;
}.

(** What the tools ask of a parsed document. *)
Record Soup := {
  (** [soup.find('title')]: the [text] of the tag, if there is one *)
  title : option string;
  (** [soup.find_all('meta', attrs={'name': 'description'})]: the
      [content] attribute of each tag, in document order *)
  meta_descriptions : list (option string);
  (** [soup.find_all(f'h{i}')]: [get_text(strip=True)] of each heading *)
  headings : nat → list string;
  (** [soup.find_all('a', href=True)]: the [href] of each link *)
  anchors : list string;
  (** [soup.find('meta', attrs={'name': 'viewport'})] finds a tag *)
  meta_viewport : bool;
  (** [soup.find('meta', attrs={'name': 'robots'})]: the [content]
      attribute of the tag, if there is a tag *)
  meta_robots : option (option string);
}.

Record Web := {
  (** [config.REQUEST_TIMEOUT] *)
  REQUEST_TIMEOUT : Z;
  (** [requests.get(url, timeout=timeout, allow_redirects=True)] *)
  requests_get : string → Z → Fetch;
  (** [urlparse(url)], which raises [ValueError] on some inputs *)
  urlparse : string → outcome ParseResult;
  (** The TLS handshake with [hostname] on port 443: whether
      [getpeercert()] is a non-empty certificate, or the fault raised. *)
  getpeercert : string → outcome bool;
  (** [BeautifulSoup(text, 'html.parser')] *)
  BeautifulSoup : string → outcome Soup;
}.

(** ** The result dictionaries of the tools *)

Record HttpsSecurity := {
  hs_tool : string;
  hs_url : string;
  uses_https : bool;
  http_redirects_to_https : bool;
  ssl_valid : bool;
  hs_issues : list string;
  hs_score : Z;
  hs_error : option string;
}.

Record SecurityHeaders := {
  sh_tool : string;
  sh_url : string;
  headers_found : list (string * string);
  missing_headers : list string;
  sh_score : Z;
  sh_error : option string;
}.

Record TitleAndMeta := {
  tm_tool : string;
  tm_url : string;
  tm_title : option string;
  title_length : nat;
  title_optimal : bool;
  meta_description : option string;
  meta_description_length : nat;
  meta_description_optimal : bool;
  tm_issues : list string;
  tm_score : Z;
  tm_error : option string;
}.

Record HeadingStructure := {
  h_tool : string;
  h_url : string;
  h1_count : nat;
  h1_text : list string;
  heading_hierarchy : list (string * nat);
  has_proper_hierarchy : bool;
  h_issues : list string;
  h_score : Z;
  h_error : option string;
}.

Record InternalLinks := {
  il_tool : string;
  il_url : string;
  total_links : nat;
  internal_links : nat;
  external_links : nat;
  broken_internal_links : list string;
  has_good_internal_linking : bool;
  il_issues : list string;
  il_score : Z;
  il_error : option string;
}.

Record MobileFriendly := {
  mf_tool : string;
  mf_url : string;
  has_viewport_meta : bool;
  has_responsive_design_hints : bool;
  mf_issues : list string;
  mf_score : Z;
  mf_error : option string;
}.

Record RobotsAndSitemap := {
  rs_tool : string;
  rs_url : string;
  has_robots_txt : bool;
  robots_allows_crawling : bool;
  has_sitemap : bool;
  sitemap_url : option string;
  rs_issues : list string;
  rs_score : Z;
  rs_error : option string;
}.

Record MetaRobots := {
  mr_tool : string;
  mr_url : string;
  has_meta_robots : bool;
  is_indexable : bool;
  is_followable : bool;
  robots_content : option string;
  mr_issues : list string;
  mr_score : Z;
  mr_error : option string;
}.

(** tools.py:130-136 *)
Definition important_headers : list string :=
  ["Strict-Transport-Security"; "X-Content-Type-Options"; "X-Frame-Options";
   "X-XSS-Protection"; "Content-Security-Policy"].

(** [range(1, 7)] *)
Definition heading_levels : list nat := [1; 2; 3; 4; 5; 6]%nat.

(** [f'h{i}'] *)
Definition heading_key (i : nat) : string := "h" +:+ Py.str_nat i.

(** [not response or response.status_code != 200] *)
Definition not_fetched (response : option Response) : bool :=
  match response with
  | Some response => negb (ok response) || negb (status_code response =? 200)
  | None => true
  end.

(** [response and response.status_code == 200] *)
Definition is_200 (response : option Response) : bool :=
  match response with
  | Some response => ok response && (status_code response =? 200)
  | None => false
  end.

Section Tools.
Variable web : Web.

(** tools.py:30-33 *)
Definition get_base_url (url : string) : outcome string :=
  match urlparse web url with
  | Ret parsed => Ret (scheme parsed +:+ "://" +:+ netloc parsed)
  | Raise msg => Raise msg
  end.

(** tools.py:36-44: a [RequestException] is logged and answered by
    [None]; any other exception goes on to the caller. *)
Definition fetch_page (url : string) (timeout : option Z) : outcome (option Response) :=
  let timeout :=
    match timeout with
    | Some t => if Py.truthy_int t then t else REQUEST_TIMEOUT web
    | None => REQUEST_TIMEOUT web
    end in
  match requests_get web url timeout with
  | Fetched response => Ret (Some response)
  | RequestException _ => Ret None
  | OtherException msg => Raise msg
  end.

(** *** check_https_security, tools.py:51-108 *)

Definition hs_add (points : Z) (r : HttpsSecurity) (flags : bool * bool * bool)
    : HttpsSecurity :=
  {| hs_tool := hs_tool r; hs_url := hs_url r;
     uses_https := flags.1.1; http_redirects_to_https := flags.1.2;
     ssl_valid := flags.2;
     hs_issues := hs_issues r; hs_score := hs_score r + points;
     hs_error := hs_error r |}.

Definition hs_issue (issue : string) (r : HttpsSecurity) : HttpsSecurity :=
  {| hs_tool := hs_tool r; hs_url := hs_url r;
     uses_https := uses_https r;
     http_redirects_to_https := http_redirects_to_https r;
     ssl_valid := ssl_valid r;
     hs_issues := hs_issues r ++ [issue]; hs_score := hs_score r;
     hs_error := hs_error r |}.

Definition hs_set_error (e : string) (r : HttpsSecurity) : HttpsSecurity :=
  {| hs_tool := hs_tool r; hs_url := hs_url r;
     uses_https := uses_https r;
     http_redirects_to_https := http_redirects_to_https r;
     ssl_valid := ssl_valid r;
     hs_issues := hs_issues r; hs_score := hs_score r;
     hs_error := Some e |}.

(** [response and response.url.startswith('https://')] *)
Definition redirected (response : option Response) : bool :=
  match response with
  | Some response => ok response && Py.startswith "https://" (resp_url response)
  | None => false
  end.

(** The body of [try], lines 73-102. *)
Definition check_https_security_try (url : string) : M HttpsSecurity unit :=
  parsed ← lift (urlparse web url);
  (if String.eqb (scheme parsed) "https"
   then modify (λ r, hs_add 40 r (true, http_redirects_to_https r, ssl_valid r))
   else ret tt) ;;
  let http_url := Py.replace "https://" "http://" url in
  response ← lift (fetch_page http_url None);
  (if redirected response
   then modify (λ r, hs_add 30 r (uses_https r, true, ssl_valid r))
   else modify (hs_issue "HTTP does not redirect to HTTPS")) ;;
  try_except
    (let hostname := netloc parsed in
     cert ← lift (getpeercert web hostname);
     if cert
     then modify (λ r, hs_add 30 r (uses_https r, http_redirects_to_https r, true))
     else ret tt)
    (λ ssl_error, modify (hs_issue ("SSL certificate issue: " +:+ ssl_error))) ;;
  r ← get;
  if negb (uses_https r) then modify (hs_issue "Website does not use HTTPS")
  else ret tt.

Definition check_https_security (url : string) : HttpsSecurity :=
  let url := normalize_url url in
  let result :=
    {| hs_tool := "check_https_security"; hs_url := url;
       uses_https := false; http_redirects_to_https := false; ssl_valid := false;
       hs_issues := []; hs_score := 0; hs_error := None |} in
  snd (try_except (check_https_security_try url)
         (λ e, modify (hs_set_error e) ;;
               modify (hs_issue ("Error checking security: " +:+ e)))
         result).

(** *** check_security_headers, tools.py:111-152 *)

Definition sh_found (header value : string) (r : SecurityHeaders) : SecurityHeaders :=
  {| sh_tool := sh_tool r; sh_url := sh_url r;
     headers_found := dict_set header value (headers_found r);
     missing_headers := missing_headers r;
     sh_score := sh_score r + 20; sh_error := sh_error r |}.

Definition sh_missing (header : string) (r : SecurityHeaders) : SecurityHeaders :=
  {| sh_tool := sh_tool r; sh_url := sh_url r;
     headers_found := headers_found r;
     missing_headers := missing_headers r ++ [header];
     sh_score := sh_score r; sh_error := sh_error r |}.

Definition sh_set_error (e : string) (r : SecurityHeaders) : SecurityHeaders :=
  {| sh_tool := sh_tool r; sh_url := sh_url r;
     headers_found := headers_found r; missing_headers := missing_headers r;
     sh_score := sh_score r; sh_error := Some e |}.

(** Lines 141-147, the body of the loop. *)
Definition check_header (response : Response) (header : string)
    : M SecurityHeaders unit :=
  match headers response header with
  | Some value =>
      if Py.truthy_str value then modify (sh_found header value)
      else modify (sh_missing header)
  | None => modify (sh_missing header)
  end.

Definition check_security_headers (url : string) : SecurityHeaders :=
  let url := normalize_url url in
  let result :=
    {| sh_tool := "check_security_headers"; sh_url := url;
       headers_found := []; missing_headers := [];
       sh_score := 0; sh_error := None |} in
  snd (try_except
         (response ← lift (fetch_page url None);
          match response with
          | Some response =>
              if ok response then for_each important_headers (check_header response)
              else ret tt
          | None => ret tt
          end)
         (λ e, modify (sh_set_error e))
         result).

(** *** check_title_and_meta, tools.py:159-231 *)

Definition tm_issue (issue : string) (r : TitleAndMeta) : TitleAndMeta :=
  {| tm_tool := tm_tool r; tm_url := tm_url r; tm_title := tm_title r;
     title_length := title_length r; title_optimal := title_optimal r;
     meta_description := meta_description r;
     meta_description_length := meta_description_length r;
     meta_description_optimal := meta_description_optimal r;
     tm_issues := tm_issues r ++ [issue]; tm_score := tm_score r;
     tm_error := tm_error r |}.

Definition tm_set_error (e : string) (r : TitleAndMeta) : TitleAndMeta :=
  {| tm_tool := tm_tool r; tm_url := tm_url r; tm_title := tm_title r;
     title_length := title_length r; title_optimal := title_optimal r;
     meta_description := meta_description r;
     meta_description_length := meta_description_length r;
     meta_description_optimal := meta_description_optimal r;
     tm_issues := tm_issues r; tm_score := tm_score r;
     tm_error := Some e |}.

(** [result['title'] = ...; result['title_length'] = len(result['title'])] *)
Definition tm_set_title (t : string) (r : TitleAndMeta) : TitleAndMeta :=
  {| tm_tool := tm_tool r; tm_url := tm_url r; tm_title := Some t;
     title_length := String.length t; title_optimal := title_optimal r;
     meta_description := meta_description r;
     meta_description_length := meta_description_length r;
     meta_description_optimal := meta_description_optimal r;
     tm_issues := tm_issues r; tm_score := tm_score r;
     tm_error := tm_error r |}.

Definition tm_title_is_optimal (r : TitleAndMeta) : TitleAndMeta :=
  {| tm_tool := tm_tool r; tm_url := tm_url r; tm_title := tm_title r;
     title_length := title_length r; title_optimal := true;
     meta_description := meta_description r;
     meta_description_length := meta_description_length r;
     meta_description_optimal := meta_description_optimal r;
     tm_issues := tm_issues r; tm_score := tm_score r + 25;
     tm_error := tm_error r |}.

Definition tm_set_description (d : string) (r : TitleAndMeta) : TitleAndMeta :=
  {| tm_tool := tm_tool r; tm_url := tm_url r; tm_title := tm_title r;
     title_length := title_length r; title_optimal := title_optimal r;
     meta_description := Some d;
     meta_description_length := String.length d;
     meta_description_optimal := meta_description_optimal r;
     tm_issues := tm_issues r; tm_score := tm_score r;
     tm_error := tm_error r |}.

Definition tm_description_is_optimal (r : TitleAndMeta) : TitleAndMeta :=
  {| tm_tool := tm_tool r; tm_url := tm_url r; tm_title := tm_title r;
     title_length := title_length r; title_optimal := title_optimal r;
     meta_description := meta_description r;
     meta_description_length := meta_description_length r;
     meta_description_optimal := true;
     tm_issues := tm_issues r; tm_score := tm_score r + 25;
     tm_error := tm_error r |}.

(** Lines 191-205 *)
Definition check_title (soup : Soup) : M TitleAndMeta unit :=
  match title soup with
  | Some title_text =>
      if Py.truthy_str title_text then
        modify (tm_set_title (Py.strip title_text)) ;;
        r ← get;
        let n := title_length r in
        if (30 <=? n)%nat && (n <=? 60)%nat then modify tm_title_is_optimal
        else if (n <? 30)%nat then
          modify (tm_issue ("Title too short (" +:+ Py.str_nat n +:+
                            " chars, optimal: 30-60)"))
        else
          modify (tm_issue ("Title too long (" +:+ Py.str_nat n +:+
                            " chars, optimal: 30-60)"))
      else modify (tm_issue "Missing title tag")
  | None => modify (tm_issue "Missing title tag")
  end.

(** Lines 207-221; [soup.find] is the first of [soup.find_all]. *)
Definition check_description (soup : Soup) : M TitleAndMeta unit :=
  match meta_descriptions soup with
  | Some content :: _ =>
      if Py.truthy_str content then
        modify (tm_set_description (Py.strip content)) ;;
        r ← get;
        let n := meta_description_length r in
        if (120 <=? n)%nat && (n <=? 160)%nat then modify tm_description_is_optimal
        else if (n <? 120)%nat then
          modify (tm_issue ("Meta description too short (" +:+ Py.str_nat n +:+
                            " chars, optimal: 120-160)"))
        else
          modify (tm_issue ("Meta description too long (" +:+ Py.str_nat n +:+
                            " chars, optimal: 120-160)"))
      else modify (tm_issue "Missing meta description")
  | _ => modify (tm_issue "Missing meta description")
  end.

Definition check_title_and_meta (url : string) : TitleAndMeta :=
  let url := normalize_url url in
  let result :=
    {| tm_tool := "check_title_and_meta"; tm_url := url; tm_title := None;
       title_length := 0; title_optimal := false; meta_description := None;
       meta_description_length := 0; meta_description_optimal := false;
       tm_issues := []; tm_score := 0; tm_error := None |} in
  snd (try_except
         (response ← lift (fetch_page url None);
          match response with
          | Some page =>
              if not_fetched response then modify (tm_set_error "Failed to fetch page")
              else
                soup ← lift (BeautifulSoup web (text page));
                check_title soup ;;
                check_description soup ;;
                if (1 <? length (meta_descriptions soup))%nat
                then modify (tm_issue "Multiple meta description tags found")
                else ret tt
          | None => modify (tm_set_error "Failed to fetch page")
          end)
         (λ e, modify (tm_set_error e))
         result).

(** *** check_heading_structure, tools.py:234-300 *)

Definition h_update (h1 : option (nat * list string))
    (hierarchy : list (string * nat)) (proper : bool) (issues : list string)
    (points : Z) (r : HeadingStructure) : HeadingStructure :=
  {| h_tool := h_tool r; h_url := h_url r;
     h1_count := match h1 with Some h1 => h1.1 | None => h1_count r end;
     h1_text := match h1 with Some h1 => h1.2 | None => h1_text r end;
     heading_hierarchy := hierarchy;
     has_proper_hierarchy := proper;
     h_issues := h_issues r ++ issues; h_score := h_score r + points;
     h_error := h_error r |}.

Definition h_set_error (e : string) (r : HeadingStructure) : HeadingStructure :=
  {| h_tool := h_tool r; h_url := h_url r;
     h1_count := h1_count r; h1_text := h1_text r;
     heading_hierarchy := heading_hierarchy r;
     has_proper_hierarchy := has_proper_hierarchy r;
     h_issues := h_issues r; h_score := h_score r;
     h_error := Some e |}.

(** Lines 265-271, the body of the first loop. *)
Definition count_headings (soup : Soup) (i : nat) : M HeadingStructure unit :=
  let found := headings soup i in
  modify (λ r,
    h_update
      (if (i =? 1)%nat then Some (length found, map (substring 0 100) found)
       else None)
      (dict_set (heading_key i) (length found) (heading_hierarchy r))
      (has_proper_hierarchy r) [] 0 r).

(** Lines 273-282 *)
Definition check_h1 : M HeadingStructure unit :=
  modify (λ r,
    if (h1_count r =? 0)%nat then
      h_update None (heading_hierarchy r) false ["Missing H1 tag"] 0 r
    else if (h1_count r =? 1)%nat then
      h_update None (heading_hierarchy r) (has_proper_hierarchy r) [] 50 r
    else
      h_update None (heading_hierarchy r) false
        ["Multiple H1 tags found (" +:+ Py.str_nat (h1_count r) +:+ ")"] 25 r).

(** Lines 285-292, the second loop; [prev_level] is its local variable. *)
Fixpoint check_levels (levels : list nat) (prev_level : nat)
    : M HeadingStructure unit :=
  match levels with
  | [] => ret tt
  | i :: levels' =>
      r ← get;
      match dict_get (heading_key i) (heading_hierarchy r) with
      | None => raise ("'" +:+ heading_key i +:+ "'")
      | Some count =>
          if (0 <? count)%nat then
            (if (0 <? prev_level)%nat && (prev_level + 1 <? i)%nat
             then modify (λ r,
                    h_update None (heading_hierarchy r) false
                      ["Heading hierarchy skips from H" +:+ Py.str_nat prev_level +:+
                       " to H" +:+ Py.str_nat i] 0 r)
             else ret tt) ;;
            check_levels levels' i
          else check_levels levels' prev_level
      end
  end.

Definition check_heading_structure (url : string) : HeadingStructure :=
  let url := normalize_url url in
  let result :=
    {| h_tool := "check_heading_structure"; h_url := url; h1_count := 0;
       h1_text := []; heading_hierarchy := []; has_proper_hierarchy := true;
       h_issues := []; h_score := 0; h_error := None |} in
  snd (try_except
         (response ← lift (fetch_page url None);
          match response with
          | Some page =>
              if not_fetched response then modify (h_set_error "Failed to fetch page")
              else
                soup ← lift (BeautifulSoup web (text page));
                for_each heading_levels (count_headings soup) ;;
                check_h1 ;;
                check_levels heading_levels 0 ;;
                modify (λ r,
                  if has_proper_hierarchy r && (h1_count r =? 1)%nat
                  then h_update None (heading_hierarchy r) (has_proper_hierarchy r)
                         [] 50 r
                  else r)
          | None => modify (h_set_error "Failed to fetch page")
          end)
         (λ e, modify (h_set_error e))
         result).

(** *** check_internal_links, tools.py:433-496 *)

Definition il_update (total internal external : nat) (good : bool)
    (issues : list string) (score : Z) (r : InternalLinks) : InternalLinks :=
  {| il_tool := il_tool r; il_url := il_url r; total_links := total;
     internal_links := internal; external_links := external;
     broken_internal_links := broken_internal_links r;
     has_good_internal_linking := good;
     il_issues := il_issues r ++ issues; il_score := score;
     il_error := il_error r |}.

Definition il_set_error (e : string) (r : InternalLinks) : InternalLinks :=
  {| il_tool := il_tool r; il_url := il_url r; total_links := total_links r;
     internal_links := internal_links r; external_links := external_links r;
     broken_internal_links := broken_internal_links r;
     has_good_internal_linking := has_good_internal_linking r;
     il_issues := il_issues r; il_score := il_score r;
     il_error := Some e |}.

(** Lines 467-478, the body of the loop. *)
Definition count_link (base_url href : string) : M InternalLinks unit :=
  if Py.startswith "#" href || Py.startswith "javascript:" href then ret tt
  else if Py.startswith "/" href || Py.startswith base_url href then
    modify (λ r, il_update (total_links r) (S (internal_links r)) (external_links r)
                   (has_good_internal_linking r) [] (il_score r) r)
  else if Py.startswith "http" href then
    modify (λ r, il_update (total_links r) (internal_links r) (S (external_links r))
                   (has_good_internal_linking r) [] (il_score r) r)
  else ret tt.

(** Lines 480-491 *)
Definition score_links : M InternalLinks unit :=
  modify (λ r,
    let n := internal_links r in
    if (5 <=? n)%nat then
      il_update (total_links r) n (external_links r) true [] 100 r
    else if (3 <=? n)%nat then
      il_update (total_links r) n (external_links r)
        (has_good_internal_linking r) [] 75 r
    else if (1 <=? n)%nat then
      il_update (total_links r) n (external_links r)
        (has_good_internal_linking r) ["Consider adding more internal links"] 50 r
    else
      il_update (total_links r) n (external_links r)
        (has_good_internal_linking r)
        ["No internal links found. Internal linking is important for SEO."] 25 r).

(** [get_base_url] is called before [try]: its fault is the fault of
    the tool. *)
Definition check_internal_links (url : string) : outcome InternalLinks :=
  let url := normalize_url url in
  match get_base_url url with
  | Raise msg => Raise msg
  | Ret base_url =>
      let result :=
        {| il_tool := "check_internal_links"; il_url := url; total_links := 0;
           internal_links := 0; external_links := 0; broken_internal_links := [];
           has_good_internal_linking := false; il_issues := []; il_score := 0;
           il_error := None |} in
      Ret (snd (try_except
                  (response ← lift (fetch_page url None);
                   match response with
                   | Some page =>
                       if not_fetched response
                       then modify (il_set_error "Failed to fetch page")
                       else
                         soup ← lift (BeautifulSoup web (text page));
                         let links := anchors soup in
                         modify (λ r, il_update (length links) (internal_links r)
                                        (external_links r)
                                        (has_good_internal_linking r) []
                                        (il_score r) r) ;;
                         for_each links (count_link base_url) ;;
                         score_links
                   | None => modify (il_set_error "Failed to fetch page")
                   end)
                  (λ e, modify (il_set_error e))
                  result))
  end.

(** *** check_mobile_friendly, tools.py:556-607 *)

Definition mf_update (viewport hints : bool) (issues : list string) (points : Z)
    (r : MobileFriendly) : MobileFriendly :=
  {| mf_tool := mf_tool r; mf_url := mf_url r; has_viewport_meta := viewport;
     has_responsive_design_hints := hints;
     mf_issues := mf_issues r ++ issues; mf_score := mf_score r + points;
     mf_error := mf_error r |}.

Definition mf_set_error (e : string) (r : MobileFriendly) : MobileFriendly :=
  {| mf_tool := mf_tool r; mf_url := mf_url r;
     has_viewport_meta := has_viewport_meta r;
     has_responsive_design_hints := has_responsive_design_hints r;
     mf_issues := mf_issues r; mf_score := mf_score r;
     mf_error := Some e |}.

Definition check_mobile_friendly (url : string) : MobileFriendly :=
  let url := normalize_url url in
  let result :=
    {| mf_tool := "check_mobile_friendly"; mf_url := url;
       has_viewport_meta := false; has_responsive_design_hints := false;
       mf_issues := []; mf_score := 0; mf_error := None |} in
  snd (try_except
         (response ← lift (fetch_page url None);
          match response with
          | Some page =>
              if not_fetched response then modify (mf_set_error "Failed to fetch page")
              else
                soup ← lift (BeautifulSoup web (text page));
                (if meta_viewport soup
                 then modify (λ r, mf_update true (has_responsive_design_hints r) [] 50 r)
                 else modify (λ r,
                        mf_update (has_viewport_meta r) (has_responsive_design_hints r)
                          ["Missing viewport meta tag for mobile responsiveness"] 0 r)) ;;
                let page_content := Py.lower (text page) in
                (if Py.contains "@media" page_content
                    || Py.contains "responsive" page_content
                 then modify (λ r, mf_update (has_viewport_meta r) true [] 50 r)
                 else ret tt) ;;
                modify (λ r,
                  if negb (has_viewport_meta r) && negb (has_responsive_design_hints r)
                  then mf_update (has_viewport_meta r) (has_responsive_design_hints r)
                         ["No responsive design indicators found"] 0 r
                  else r)
          | None => modify (mf_set_error "Failed to fetch page")
          end)
         (λ e, modify (mf_set_error e))
         result).

(** *** check_robots_and_sitemap, tools.py:614-680 *)

Definition rs_update (robots allows sitemap : bool) (sitemap_at : option string)
    (issues : list string) (points : Z) (r : RobotsAndSitemap) : RobotsAndSitemap :=
  {| rs_tool := rs_tool r; rs_url := rs_url r; has_robots_txt := robots;
     robots_allows_crawling := allows; has_sitemap := sitemap;
     sitemap_url := sitemap_at;
     rs_issues := rs_issues r ++ issues; rs_score := rs_score r + points;
     rs_error := rs_error r |}.

Definition rs_set_error (e : string) (r : RobotsAndSitemap) : RobotsAndSitemap :=
  {| rs_tool := rs_tool r; rs_url := rs_url r;
     has_robots_txt := has_robots_txt r;
     robots_allows_crawling := robots_allows_crawling r;
     has_sitemap := has_sitemap r; sitemap_url := sitemap_url r;
     rs_issues := rs_issues r; rs_score := rs_score r;
     rs_error := Some e |}.

(** Lines 653-656, the body of the loop over the lines of robots.txt. *)
Definition read_sitemap_line (line : string) : M RobotsAndSitemap unit :=
  if Py.startswith "sitemap:" (Py.lower line) then
    match Py.split_once ":" line !! 1%nat with
    | Some rest =>
        modify (λ r, rs_update (has_robots_txt r) (robots_allows_crawling r) true
                       (Some (Py.strip rest)) [] 0 r)
    | None => raise "list index out of range"
    end
  else ret tt.

(** Lines 642-658 *)
Definition check_robots (robots_response : option Response)
    : M RobotsAndSitemap unit :=
  match robots_response with
  | Some page =>
      if is_200 robots_response then
        modify (λ r, rs_update true (robots_allows_crawling r) (has_sitemap r)
                       (sitemap_url r) [] 25 r) ;;
        let content := Py.lower (text page) in
        (if Py.contains "disallow: /" content
            && negb (Py.contains "disallow: /?" content)
         then
           if Py.contains "user-agent: *" content
           then modify (λ r, rs_update (has_robots_txt r) false (has_sitemap r)
                               (sitemap_url r)
                               ["robots.txt may be blocking crawlers"] 0 r)
           else ret tt
         else ret tt) ;;
        for_each (Py.split "010" (text page)) read_sitemap_line
      else modify (λ r, rs_update (has_robots_txt r) (robots_allows_crawling r)
                          (has_sitemap r) (sitemap_url r)
                          ["No robots.txt found"] 0 r)
  | None => modify (λ r, rs_update (has_robots_txt r) (robots_allows_crawling r)
                           (has_sitemap r) (sitemap_url r)
                           ["No robots.txt found"] 0 r)
  end.

(** Lines 660-669 *)
Definition check_sitemap (base_url : string) : M RobotsAndSitemap unit :=
  r ← get;
  if negb (has_sitemap r) then
    let sitemap_url := base_url +:+ "/sitemap.xml" in
    sitemap_response ← lift (fetch_page sitemap_url None);
    if is_200 sitemap_response
    then modify (λ r, rs_update (has_robots_txt r) (robots_allows_crawling r) true
                        (Some sitemap_url) [] 0 r)
    else modify (λ r, rs_update (has_robots_txt r) (robots_allows_crawling r)
                        (has_sitemap r) (Tools.sitemap_url r)
                        ["No sitemap.xml found"] 0 r)
  else ret tt.

Definition rs_add (points : Z) (r : RobotsAndSitemap) : RobotsAndSitemap :=
  rs_update (has_robots_txt r) (robots_allows_crawling r) (has_sitemap r)
    (sitemap_url r) [] points r.

Definition check_robots_and_sitemap (url : string) : outcome RobotsAndSitemap :=
  let url := normalize_url url in
  match get_base_url url with
  | Raise msg => Raise msg
  | Ret base_url =>
      let result :=
        {| rs_tool := "check_robots_and_sitemap"; rs_url := url;
           has_robots_txt := false; robots_allows_crawling := true;
           has_sitemap := false; sitemap_url := None;
           rs_issues := []; rs_score := 0; rs_error := None |} in
      Ret (snd (try_except
                  (let robots_url := base_url +:+ "/robots.txt" in
                   robots_response ← lift (fetch_page robots_url None);
                   check_robots robots_response ;;
                   check_sitemap base_url ;;
                   modify (λ r, if has_sitemap r then rs_add 50 r else r) ;;
                   modify (λ r, if robots_allows_crawling r then rs_add 25 r else r))
                  (λ e, modify (rs_set_error e))
                  result))
  end.

(** *** check_meta_robots, tools.py:683-741 *)

Definition mr_update (found indexable followable : bool) (content : option string)
    (issues : list string) (points : Z) (r : MetaRobots) : MetaRobots :=
  {| mr_tool := mr_tool r; mr_url := mr_url r; has_meta_robots := found;
     is_indexable := indexable; is_followable := followable;
     robots_content := content;
     mr_issues := mr_issues r ++ issues; mr_score := mr_score r + points;
     mr_error := mr_error r |}.

Definition mr_set_error (e : string) (r : MetaRobots) : MetaRobots :=
  {| mr_tool := mr_tool r; mr_url := mr_url r;
     has_meta_robots := has_meta_robots r; is_indexable := is_indexable r;
     is_followable := is_followable r; robots_content := robots_content r;
     mr_issues := mr_issues r; mr_score := mr_score r;
     mr_error := Some e |}.

(** Lines 714-728 *)
Definition check_meta_tag (soup : Soup) : M MetaRobots unit :=
  match meta_robots soup with
  | Some attribute =>
      let content := Py.lower (default "" attribute) in
      modify (λ r, mr_update true (is_indexable r) (is_followable r) (Some content)
                     [] 0 r) ;;
      (if Py.contains "noindex" content
       then modify (λ r,
              mr_update (has_meta_robots r) false (is_followable r) (robots_content r)
                ["Page has noindex directive - will not appear in search results"]
                (-50) r)
       else ret tt) ;;
      (if Py.contains "nofollow" content
       then modify (λ r,
              mr_update (has_meta_robots r) (is_indexable r) false (robots_content r)
                ["Page has nofollow directive - links will not pass authority"]
                (-25) r)
       else ret tt)
  | None => ret tt
  end.

(** Lines 730-736 *)
Definition check_x_robots (page : Response) : M MetaRobots unit :=
  let x_robots := Py.lower (default "" (headers page "X-Robots-Tag")) in
  if Py.truthy_str x_robots then
    if Py.contains "noindex" x_robots
    then modify (λ r,
           mr_update (has_meta_robots r) false (is_followable r) (robots_content r)
             ["X-Robots-Tag header contains noindex"] (-50) r)
    else ret tt
  else ret tt.

Definition check_meta_robots (url : string) : MetaRobots :=
  let url := normalize_url url in
  let result :=
    {| mr_tool := "check_meta_robots"; mr_url := url; has_meta_robots := false;
       is_indexable := true; is_followable := true; robots_content := None;
       mr_issues := []; mr_score := 100; mr_error := None |} in
  snd (try_except
         (response ← lift (fetch_page url None);
          match response with
          | Some page =>
              if not_fetched response then modify (mr_set_error "Failed to fetch page")
              else
                soup ← lift (BeautifulSoup web (text page));
                check_meta_tag soup ;;
                check_x_robots page
          | None => modify (mr_set_error "Failed to fetch page")
          end)
         (λ e, modify (mr_set_error e))
         result).
End Tools.
End Tools.

(* ================================================================== *)
(** * The state of the process *)
(* ================================================================== *)

Module Store.
(** The values held by [analysis_store[request_id]] in server.py. *)
Record AgentStatus := {
  a_status : string;
  a_message : option string;
  a_duration : option Z;
}.

Inductive PyVal :=
| VNone
| VStr (s : string)
| VInt (z : Z)
| VAgents (agents : list (string * AgentStatus))
| VScores (scores : list (string * Z)).
End Store.

Record World := {
  (** the SQLite file behind [get_db_client()] *)
  db : Database.DatabaseClient;
  (** ids of the sessions held by the [InMemorySessionService] *)
  session_service : list string;
  (** the globals of observability.py *)
  observability : Observability.Globals;
  (** [analysis_store] of server.py *)
  analysis_store : gmap string (gmap string Store.PyVal);
  (** how many uuids and timestamps have been drawn *)
  draws : nat;
  (** the calls made to the capability: agent, session, prompt *)
  dispatched : list (string * string * string);
}.

Definition initial_world : World :=
  {| db := Database.empty; session_service := [];
     observability := Observability.initial; analysis_store := ∅;
     draws := 0; dispatched := [] |}.

Definition with_db (d : Database.DatabaseClient) (w : World) : World :=
  {| db := d; session_service := session_service w;
     observability := observability w; analysis_store := analysis_store w;
     draws := draws w; dispatched := dispatched w |}.

Definition with_session_service (l : list string) (w : World) : World :=
  {| db := db w; session_service := l;
     observability := observability w; analysis_store := analysis_store w;
     draws := draws w; dispatched := dispatched w |}.

Definition with_observability (g : Observability.Globals) (w : World) : World :=
  {| db := db w; session_service := session_service w;
     observability := g; analysis_store := analysis_store w;
     draws := draws w; dispatched := dispatched w |}.

Definition with_analysis_store (st : gmap string (gmap string Store.PyVal))
    (w : World) : World :=
  {| db := db w; session_service := session_service w;
     observability := observability w; analysis_store := st;
     draws := draws w; dispatched := dispatched w |}.

Definition with_draws (n : nat) (w : World) : World :=
  {| db := db w; session_service := session_service w;
     observability := observability w; analysis_store := analysis_store w;
     draws := n; dispatched := dispatched w |}.

Definition with_dispatched (l : list (string * string * string)) (w : World) : World :=
  {| db := db w; session_service := session_service w;
     observability := observability w; analysis_store := analysis_store w;
     draws := draws w; dispatched := l |}.

Definition on_db {A} (m : M Database.DatabaseClient A) : M World A :=
  zoom db with_db m.

Definition on_observability {A} (m : M Observability.Globals A) : M World A :=
  zoom observability with_observability m.

Definition nl : string := String "010"%char EmptyString.

(* ================================================================== *)
(** * orchestrator.py *)
(* ================================================================== *)

Module Orchestrator.

Record AgentResult := {
  agent_name : string;
  success : bool;
  result : string;
  duration_ms : Z;
  error : option string;
}.

Record SEOAnalysisResult := {
  url : string;
  request_id : string;
  agent_results : list (string * AgentResult);
  final_report : option string;
  pdf_path : option string;
  overall_score : Z;
  total_duration_ms : Z;
  status : string;
}.

(** Assignments to the fields of the result object. *)
Definition set_agent_results v (r : SEOAnalysisResult) :=
  {| url := url r; request_id := request_id r; agent_results := v;
     final_report := final_report r; pdf_path := pdf_path r;
     overall_score := overall_score r; total_duration_ms := total_duration_ms r;
     status := status r |}.
Definition set_final_report v (r : SEOAnalysisResult) :=
  {| url := url r; request_id := request_id r; agent_results := agent_results r;
     final_report := v; pdf_path := pdf_path r;
     overall_score := overall_score r; total_duration_ms := total_duration_ms r;
     status := status r |}.
Definition set_pdf_path v (r : SEOAnalysisResult) :=
  {| url := url r; request_id := request_id r; agent_results := agent_results r;
     final_report := final_report r; pdf_path := v;
     overall_score := overall_score r; total_duration_ms := total_duration_ms r;
     status := status r |}.
Definition set_overall_score v (r : SEOAnalysisResult) :=
  {| url := url r; request_id := request_id r; agent_results := agent_results r;
     final_report := final_report r; pdf_path := pdf_path r;
     overall_score := v; total_duration_ms := total_duration_ms r;
     status := status r |}.
Definition set_total_duration_ms v (r : SEOAnalysisResult) :=
  {| url := url r; request_id := request_id r; agent_results := agent_results r;
     final_report := final_report r; pdf_path := pdf_path r;
     overall_score := overall_score r; total_duration_ms := v;
     status := status r |}.
Definition set_status v (r : SEOAnalysisResult) :=
  {| url := url r; request_id := request_id r; agent_results := agent_results r;
     final_report := final_report r; pdf_path := pdf_path r;
     overall_score := overall_score r; total_duration_ms := total_duration_ms r;
     status := v |}.

(** orchestrator.py:135-148: the text collected from the stream,
    starting from [result_text].  Iterating over [parts] raises
    [TypeError] when it is [None], which ends the loop. *)
Fixpoint collect_from (result_text : string) (events : list Event)
    : outcome string :=
  match events with
  | [] => Ret result_text
  | event :: events' =>
      match event with
      | Some (Parts parts) =>
          collect_from
            (foldl (λ acc part,
                      match part with
                      | Some text => acc +:+ text
                      | None => acc
                      end) result_text parts)
            events'
      | Some NoParts => Raise "'NoneType' object is not iterable"
      | Some (Text s) => collect_from (result_text +:+ s) events'
      | _ => collect_from result_text events'
      end
  end.

Definition collect_text (events : list Event) : outcome string :=
  collect_from "" events.

(** orchestrator.py:216-222 *)
Definition agent_prompts (url : string) : list (string * string) :=
  [ ("security_agent",
     "Analyze the security of this website: " +:+ url +:+
     ". Check HTTPS, SSL, and security headers.");
    ("onpage_agent",
     "Analyze the on-page SEO of this website: " +:+ url +:+
     ". Check title, meta description, headings, and images.");
    ("content_agent",
     "Analyze the content quality of this website: " +:+ url +:+
     ". Check word count and internal linking.");
    ("performance_agent",
     "Analyze the performance of this website: " +:+ url +:+
     ". Check page speed and mobile-friendliness.");
    ("indexability_agent",
     "Analyze the indexability of this website: " +:+ url +:+
     ". Check robots.txt, sitemap, and meta robots.") ].

(** orchestrator.py:227 *)
Definition prompt_for (url agent : string) : string :=
  default ("Analyze this website: " +:+ url) (dict_get agent (agent_prompts url)).

(** orchestrator.py:242-245: the loop over the gathered outcomes. *)
Definition collect_results (results : list (outcome AgentResult))
    : list (string * AgentResult) :=
  foldl (λ agent_results result,
           match result with
           | Ret r => dict_set (agent_name r) r agent_results
           | Raise _ => agent_results
           end) [] results.

(** orchestrator.py:275-283 *)
Definition results_summary (url : string) (agent_results : list (string * AgentResult))
    : string :=
  foldl (λ summary '(agent_name, result),
           summary +:+ "--- " +:+ Py.upper agent_name +:+ " ---" +:+ nl +:+
           (if success result then Orchestrator.result result +:+ nl +:+ nl
            else "Analysis failed: " +:+ default "None" (error result) +:+ nl +:+ nl))
        ("Website analyzed: " +:+ url +:+ nl +:+ nl +:+
         "=== ANALYSIS RESULTS ===" +:+ nl +:+ nl)
        agent_results.

(** orchestrator.py:285-296 *)
Definition report_prompt (url : string) (agent_results : list (string * AgentResult))
    : string :=
  "Based on the following SEO analysis results, create a comprehensive SEO report for the website." +:+ nl +:+ nl +:+
  results_summary url agent_results +:+ nl +:+ nl +:+
  "Create a well-formatted markdown report that includes:" +:+ nl +:+
  "1. Executive Summary with overall score" +:+ nl +:+
  "2. What's working well (positives)" +:+ nl +:+
  "3. Issues found (organized by category)" +:+ nl +:+
  "4. Prioritized recommendations" +:+ nl +:+
  "5. Next steps" +:+ nl +:+ nl +:+
  "Make the report easy to understand for non-technical users.".

(** orchestrator.py:386-394 *)
Fixpoint collect_scores (results : list AgentResult) : outcome (list Z) :=
  match results with
  | [] => Ret []
  | result :: results' =>
      if success result then
        match Scores.parse_score (Orchestrator.result result) with
        | Ret (Some score) =>
            match collect_scores results' with
            | Ret scores => Ret (score :: scores)
            | Raise msg => Raise msg
            end
        | Ret None => collect_scores results'
        | Raise msg => Raise msg
        end
      else collect_scores results'
  end.

(** orchestrator.py:423-434 *)
Definition analysis_doc (r : SEOAnalysisResult) : Database.AnalysisDoc :=
  {| Database.d_agent_results :=
       map (λ '(name, r),
              (name, {| Database.s_success := success r;
                        Database.s_duration_ms := duration_ms r;
                        Database.s_error := error r |}))
           (agent_results r);
     Database.d_overall_score := overall_score r;
     Database.d_total_duration_ms := total_duration_ms r |}.

Definition report_failed_text : string :=
  "Report generation failed. See individual agent results.".

Section Orchestrator.
Variable env : Env.
(** The names of the configured analysis agents ([ANALYSIS_AGENTS]). *)
Variable analysis_agents : list string.

(** Keys of [self.runners] (orchestrator.py:84-94). *)
Definition runners : list string := analysis_agents ++ [Agents.report_agent].

Definition has_runner (agent_name : string) : bool :=
  existsb (String.eqb agent_name) runners.

(** orchestrator.py:73-82: a new session service, the database
    client (whose construction opens the store and creates the
    tables) and the runners. *)
Definition SEOOrchestrator_init : M World unit :=
  match db_init_fault env with
  | Some fault => raise fault
  | None => modify (with_session_service [])
  end.

(** [runner.run_async(...)] consumed to its end. *)
Definition invoke (agent_name session_id prompt : string) : M World string :=
  λ w,
    let w' := with_dispatched
                (dispatched w ++ [(agent_name, session_id, prompt)]) w in
    match run_async env agent_name session_id prompt with
    | inl events => (collect_text events, w')
    | inr fault => (Raise fault, w')
    end.

(** orchestrator.py:96-191 *)
Definition _run_agent (agent_name prompt session_id request_id : string)
    : M World AgentResult :=
  if negb (has_runner agent_name) then
    ret {| agent_name := agent_name; success := false; result := "";
           duration_ms := 0;
           error := Some ("Runner not found for agent: " +:+ agent_name) |}
  else
    try_except
      (result_text ← invoke agent_name session_id prompt;
       let duration_ms := elapsed_ms env agent_name "analysis_complete" in
       on_db (Database.log_agent_action env request_id agent_name
                "analysis_complete"
                (Some (Database.ResultLength (String.length result_text)))
                (Some duration_ms)) ;;
       ret {| agent_name := agent_name; success := true; result := result_text;
              duration_ms := duration_ms; error := None |})
      (λ error_msg,
       let duration_ms := elapsed_ms env agent_name "analysis_error" in
       on_db (Database.log_agent_action env request_id agent_name
                "analysis_error" (Some (Database.Error error_msg))
                (Some duration_ms)) ;;
       ret {| agent_name := agent_name; success := false; result := "";
              duration_ms := duration_ms; error := Some error_msg |}).

(** orchestrator.py:224-234 *)
Definition tasks (url request_id session_id : string)
    : list (M World AgentResult) :=
  map (λ agent,
         _run_agent agent (prompt_for url agent)
           (session_id +:+ "_" +:+ agent) request_id)
      analysis_agents.

(** orchestrator.py:193-248 *)
Definition run_parallel_analysis (url request_id session_id : string)
    : M World (list (string * AgentResult)) :=
  results ← gather (tasks url request_id session_id);
  ret (collect_results results).

(** orchestrator.py:250-303 *)
Definition generate_report (url : string)
    (agent_results : list (string * AgentResult))
    (request_id session_id : string) : M World AgentResult :=
  _run_agent "report_agent" (report_prompt url agent_results)
    (session_id +:+ "_report_agent") request_id.

(** [session_service.create_session(session_id=...)] *)
Definition create_session (session_id : string) : M World unit :=
  match session_fault env session_id with
  | Some fault => raise fault
  | None => modify (λ w, with_session_service (session_service w ++ [session_id]) w)
  end.

Definition fresh_uuid : M World string :=
  λ w, (Ret (uuid4 env (draws w)), with_draws (S (draws w)) w).

(** Statements of the [try] block run on the world and on the local
    object [analysis_result]. *)
Definition on_world {A} (m : M World A) : M (SEOAnalysisResult * World) A :=
  zoom snd (λ w '(r, _), (r, w)) m.

Definition assign (f : SEOAnalysisResult → SEOAnalysisResult)
    : M (SEOAnalysisResult * World) unit :=
  modify (λ '(r, w), (f r, w)).

Definition analysis_result : M (SEOAnalysisResult * World) SEOAnalysisResult :=
  λ s, (Ret (fst s), s).

(** orchestrator.py:382-414: what is done with the outcome of the
    report stage. *)
Definition record_report (report_result : AgentResult)
    (agent_results : list (string * AgentResult)) (url request_id : string)
    : M (SEOAnalysisResult * World) unit :=
  if success report_result then
    assign (set_final_report (Some (result report_result))) ;;
    assign (set_status "completed") ;;
    match collect_scores (dict_values agent_results) with
    | Raise msg => raise msg
    | Ret scores =>
        (match scores with
         | [] => ret tt
         | _ => assign (set_overall_score (Scores.aggregate_overall scores))
         end) ;;
        r ← analysis_result;
        match generate_report_pdf env (result report_result) url request_id
                (overall_score r) with
        | Raise msg => raise msg
        | Ret (Some path) =>
            if Py.truthy_str path then assign (set_pdf_path (Some path))
            else ret tt
        | Ret None => ret tt
        end
    end
  else
    assign (set_status "partial") ;;
    assign (set_final_report (Some report_failed_text)).

(** orchestrator.py:416-436: the duration, then the row of the job. *)
Definition store_results (request_id : string)
    : M (SEOAnalysisResult * World) unit :=
  assign (set_total_duration_ms (total_elapsed_ms env)) ;;
  r ← analysis_result;
  on_world (on_db (Database.update_request_status env request_id (status r)
                     (Some (analysis_doc r)) (final_report r) None)) ;;
  ret tt.

(** orchestrator.py:353-441, the body of [try]. *)
Definition analyze_try (url request_id session_id : string)
    : M (SEOAnalysisResult * World) unit :=
  on_world (on_db (Database.log_agent_action env request_id "orchestrator"
                     "parallel_analysis_start" (Some (Database.Url url)) None)) ;;
  agent_results ← on_world (run_parallel_analysis url request_id session_id);
  assign (set_agent_results agent_results) ;;
  on_world (on_db (Database.log_agent_action env request_id "orchestrator"
                     "report_generation_start" None None)) ;;
  report_result ← on_world (generate_report url agent_results request_id session_id);
  record_report report_result agent_results url request_id ;;
  store_results request_id.

(** orchestrator.py:443-454, the [except Exception] handler. *)
Definition analyze_except (request_id error_msg : string)
    : M (SEOAnalysisResult * World) unit :=
  assign (set_status "failed") ;;
  assign (set_total_duration_ms (total_elapsed_ms env)) ;;
  on_world (on_db (Database.update_request_status env request_id "failed"
                     None None (Some error_msg))) ;;
  ret tt.

(** [with_local r0 m]: run [m] with a fresh local object and return
    the object as it is at the end. *)
Definition with_local {R A} (r0 : R) (m : M (R * World) A) : M World R :=
  λ w, match m (r0, w) with
       | (Ret _, (r, w')) => (Ret r, w')
       | (Raise msg, (_, w')) => (Raise msg, w')
       end.

(** orchestrator.py:320-343: the statements before [try]. *)
Definition analyze_setup (url : string) : M World string :=
  uuid ← fresh_uuid;
  request_data ← on_db (Database.create_analysis_request env uuid url);
  let request_id := Database.unique_identifier request_data in
  let session_id := "seo_session_" +:+ request_id in
  on_db (Database.update_request_status env request_id "analyzing" None None None) ;;
  for_each analysis_agents
    (λ agent, create_session (session_id +:+ "_" +:+ agent)) ;;
  create_session (session_id +:+ "_report_agent") ;;
  ret request_id.

(** orchestrator.py:346-350 *)
Definition new_result (url request_id : string) : SEOAnalysisResult :=
  {| url := url; request_id := request_id; agent_results := [];
     final_report := None; pdf_path := None; overall_score := 0;
     total_duration_ms := 0; status := "analyzing" |}.

(** orchestrator.py:305-456 *)
Definition analyze_website (url : string) : M World SEOAnalysisResult :=
  request_id ← analyze_setup url;
  with_local (new_result url request_id)
    (try_except (analyze_try url request_id ("seo_session_" +:+ request_id))
                (analyze_except request_id)).
End Orchestrator.

End Orchestrator.

(* ================================================================== *)
(** * server.py *)
(* ================================================================== *)

Module Server.
Import Store.

Record AnalysisRequest := {
  url : string;
  name : string;
  email : string;
}.

(** server.py:127-133 *)
Definition validate_url (v : string) : string :=
  if negb (Py.startswith "http://" v || Py.startswith "https://" v)
  then "https://" +:+ v else v.

(** Construction of the request model runs the field validator. *)
Definition make_request (url name email : string) : AnalysisRequest :=
  {| url := validate_url url; name := name; email := email |}.

(** server.py:67-84.  The emoji alternatives of the three patterns
    lie outside the code points of the text model and are left out. *)
Definition parse_report_stats (report : string) : Z * Z * Z :=
  let fl := {| Re.IGNORECASE := true; Re.DOTALL := false |} in
  let issues :=
    Re.findall_count fl
      (Re.alts [Re.Lit "issue"; Re.Lit "fail"; Re.Lit "error"; Re.Lit "critical"])
      report in
  let warnings :=
    Re.findall_count fl
      (Re.alts [Re.Lit "warning"; Re.Lit "caution";
                Re.seq [Re.Lit "need"; Re.Opt (Re.Lit "s"); Re.Plus Re.ws;
                        Re.Lit "improvement"]])
      report in
  let passed :=
    Re.findall_count fl
      (Re.alts [Re.Lit "pass"; Re.Lit "good"; Re.Lit "excellent"; Re.Lit "correct"])
      report in
  match issues, warnings, passed with
  | O, O, O => (3, 5, 15)
  | _, _, _ => (Z.of_nat issues, Z.of_nat warnings, Z.of_nat passed)
  end.

Definition agent_names : list string :=
  ["security"; "onpage"; "content"; "performance"; "indexability"; "report"].

Definition parallel_agent_names : list string :=
  ["security"; "onpage"; "content"; "performance"; "indexability"].

(** [str(KeyError(k))] *)
Definition key_error (k : string) : string := "'" +:+ k +:+ "'".

(** [analysis_store[request_id][key] = v] *)
Definition store_set (request_id key : string) (v : PyVal) : M World unit :=
  λ w, match analysis_store w !! request_id with
       | Some analysis =>
           (Ret tt,
            with_analysis_store
              (<[request_id := <[key := v]> analysis]> (analysis_store w)) w)
       | None => (Raise (key_error request_id), w)
       end.

(** [analysis_store[request_id].update({...})] *)
Definition store_update (request_id : string) (items : list (string * PyVal))
    : M World unit :=
  for_each items (λ '(key, v), store_set request_id key v).

(** [analysis_store[request_id]["agents"]] *)
Definition store_agents (request_id : string)
    : M World (list (string * AgentStatus)) :=
  λ w, match analysis_store w !! request_id with
       | Some analysis =>
           match analysis !! "agents" with
           | Some (VAgents agents) => (Ret agents, w)
           | Some _ => (Raise "object does not support item assignment", w)
           | None => (Raise (key_error "agents"), w)
           end
       | None => (Raise (key_error request_id), w)
       end.

(** [analysis_store[request_id]["agents"][agent_name] = status] *)
Definition agent_set (request_id agent_name : string) (st : AgentStatus)
    : M World unit :=
  agents ← store_agents request_id;
  store_set request_id "agents" (VAgents (dict_set agent_name st agents)).

(** [analysis_store[request_id]["agents"][agent_name][field] = ...] *)
Definition agent_alter (request_id agent_name : string)
    (f : AgentStatus → AgentStatus) : M World unit :=
  agents ← store_agents request_id;
  match dict_get agent_name agents with
  | Some st =>
      store_set request_id "agents" (VAgents (dict_set agent_name (f st) agents))
  | None => raise (key_error agent_name)
  end.

Definition set_a_status (v : string) (st : AgentStatus) : AgentStatus :=
  {| a_status := v; a_message := a_message st; a_duration := a_duration st |}.

Definition set_a_message (v : string) (st : AgentStatus) : AgentStatus :=
  {| a_status := a_status st; a_message := Some v; a_duration := a_duration st |}.

Record AnalysisResponse := {
  r_request_id : string;
  r_message : string;
  r_status : string;
}.

(** What [get_analysis_results] answers: the three HTTP answers that
    carry no result, or the result document. *)
Record ResultDocument := {
  p_request_id : string;
  p_url : PyVal;
  overallScore : PyVal;
  report : PyVal;
  issuesFound : PyVal;
  warnings : PyVal;
  passed : PyVal;
  categoryScores : PyVal;
  pdfAvailable : bool;
}.

Inductive Response :=
| NotFound                         (* 404 *)
| AnalysisFailed (detail : PyVal)  (* 500 *)
| InProgress (status : PyVal)      (* 202 *)
| Results (doc : ResultDocument).  (* 200 *)

Definition is_str (s : string) (v : PyVal) : bool :=
  match v with
  | VStr s' => String.eqb s' s
  | _ => false
  end.

Definition is_none (v : PyVal) : bool :=
  match v with
  | VNone => true
  | _ => false
  end.

(** server.py:316-343; a [KeyError] on the record is the [Raise]. *)
Definition get_analysis_results (request_id : string) (w : World)
    : outcome Response :=
  match analysis_store w !! request_id with
  | None => Ret NotFound
  | Some analysis =>
      match analysis !! "status" with
      | None => Raise (key_error "status")
      | Some status =>
          if is_str "error" status then
            Ret (AnalysisFailed (default (VStr "Analysis failed") (analysis !! "error")))
          else if negb (is_str "completed" status) then
            Ret (InProgress status)
          else
            match analysis !! "url" with
            | None => Raise (key_error "url")
            | Some url =>
                Ret (Results
                  {| p_request_id := request_id;
                     p_url := url;
                     overallScore := default (VInt 75) (analysis !! "overall_score");
                     report := default (VStr "") (analysis !! "report");
                     issuesFound := default (VInt 0) (analysis !! "issues_found");
                     warnings := default (VInt 0) (analysis !! "warnings");
                     passed := default (VInt 0) (analysis !! "passed");
                     categoryScores := default (VScores []) (analysis !! "category_scores");
                     pdfAvailable :=
                       negb (is_none (default VNone (analysis !! "pdf_path"))) |})
            end
      end
  end.

(** The models of the progress endpoint. *)
Record AgentStatusModel := {
  m_name : string;
  m_status : string;
  m_message : option string;
  m_duration : option Z;
}.

Record ProgressResponse := {
  pr_request_id : string;
  pr_status : string;
  pr_current_agent : option string;
  pr_agents : list AgentStatusModel;
}.

(** What [get_analysis_progress] answers: 404, or the progress. *)
Inductive ProgressAnswer :=
| ProgressNotFound
| Progress (response : ProgressResponse).

(** [{name: i for i, name in enumerate(agent_names)}.get(name, 99)] *)
Fixpoint order_from (i : nat) (names : list string) (name : string) : nat :=
  match names with
  | [] => 99
  | name' :: names' =>
      if String.eqb name' name then i else order_from (S i) names' name
  end.

Definition order (name : string) : nat := order_from 0 agent_names name.

(** [list.sort(key=...)], which is stable: an element is put before
    the first element of the sorted rest whose key is not smaller. *)
Fixpoint insert_by {X} (key : X → nat) (x : X) (sorted : list X) : list X :=
  match sorted with
  | [] => [x]
  | y :: sorted' =>
      if (key x <=? key y)%nat then x :: sorted else y :: insert_by key x sorted'
  end.

Definition sort_by {X} (key : X → nat) (l : list X) : list X :=
  foldr (insert_by key) [] l.

(** server.py:279-313.  A [KeyError], an [AttributeError] or a
    validation error of the response model is the [Raise]. *)
Definition get_analysis_progress (request_id : string) (w : World)
    : outcome ProgressAnswer :=
  match analysis_store w !! request_id with
  | None => Ret ProgressNotFound
  | Some analysis =>
      match
        match analysis !! "agents" with
        | None => Ret []
        | Some (VAgents agents) => Ret agents
        | Some (VScores []) => Ret []
        | Some (VScores (_ :: _)) => Raise "'int' object has no attribute 'get'"
        | Some _ => Raise "object has no attribute 'items'"
        end
      with
      | Raise msg => Raise msg
      | Ret items =>
          let agents :=
            map (λ '(name, data),
                   {| m_name := name; m_status := a_status data;
                      m_message := a_message data; m_duration := a_duration data |})
                items in
          let existing_names := map m_name agents in
          let agents :=
            agents ++
            map (λ name, {| m_name := name; m_status := "pending";
                            m_message := None; m_duration := None |})
                (filter (λ name, name ∉ existing_names) agent_names) in
          let agents := sort_by (λ a, order (m_name a)) agents in
          match analysis !! "status" with
          | None => Raise (key_error "status")
          | Some (VStr status) =>
              match default VNone (analysis !! "current_agent") with
              | VNone =>
                  Ret (Progress {| pr_request_id := request_id; pr_status := status;
                                   pr_current_agent := None; pr_agents := agents |})
              | VStr current_agent =>
                  Ret (Progress {| pr_request_id := request_id; pr_status := status;
                                   pr_current_agent := Some current_agent;
                                   pr_agents := agents |})
              | _ => Raise "validation error for ProgressResponse: current_agent"
              end
          | Some _ => Raise "validation error for ProgressResponse: status"
          end
      end
  end.

(** Truthiness of a stored value. *)
Definition truthy (v : PyVal) : bool :=
  match v with
  | VNone => false
  | VStr s => Py.truthy_str s
  | VInt z => Py.truthy_int z
  | VAgents agents => match agents with [] => false | _ => true end
  | VScores scores => match scores with [] => false | _ => true end
  end.

(** What [download_pdf] answers: an HTTP error, or the file. *)
Inductive PdfAnswer :=
| PdfError (status_code : Z) (detail : string)
| PdfFile (path : PyVal) (filename : string).

(** server.py:346-365 *)
Definition download_pdf (request_id : string) (w : World) : outcome PdfAnswer :=
  match analysis_store w !! request_id with
  | None => Ret (PdfError 404 "Analysis not found")
  | Some analysis =>
      match analysis !! "status" with
      | None => Raise (key_error "status")
      | Some status =>
          if negb (is_str "completed" status) then
            Ret (PdfError 400 "Analysis not yet completed")
          else
            let pdf_path := default VNone (analysis !! "pdf_path") in
            if negb (truthy pdf_path) then Ret (PdfError 404 "PDF not available")
            else
              Ret (PdfFile pdf_path
                     ("seo-report-" +:+ substring 0 8 request_id +:+ ".pdf"))
      end
  end.

Section Server.
Variable env : Env.

Definition timestamp : M World string :=
  λ w, (Ret (now env (draws w)), with_draws (S (draws w)) w).

(** server.py:252-276; the background task is run by [run_analysis]
    with the arguments recorded here. *)
Definition start_analysis (request : AnalysisRequest) : M World AnalysisResponse :=
  request_id ← Orchestrator.fresh_uuid env;
  created_at ← timestamp;
  modify (λ w,
    with_analysis_store
      (<[request_id :=
           list_to_map
             [("request_id", VStr request_id); ("url", VStr (url request));
              ("name", VStr (name request)); ("email", VStr (email request));
              ("status", VStr "pending"); ("created_at", VStr created_at);
              ("agents", VAgents []); ("current_agent", VNone)]]>
         (analysis_store w)) w) ;;
  ret {| r_request_id := request_id;
         r_message := "Analysis started successfully";
         r_status := "pending" |}.

(** server.py:173-242 *)
Definition run_analysis (request_id url name email : string) : M World unit :=
  try_except
    (store_set request_id "status" (VStr "running") ;;
     started_at ← timestamp;
     store_set request_id "started_at" (VStr started_at) ;;
     Orchestrator.SEOOrchestrator_init env ;;
     for_each agent_names
       (λ agent_name,
          agent_set request_id agent_name
            {| a_status := "pending"; a_message := None; a_duration := None |}) ;;
     store_set request_id "current_agent" (VStr "security") ;;
     for_each parallel_agent_names
       (λ agent_name, agent_alter request_id agent_name (set_a_status "running")) ;;
     result ← Orchestrator.analyze_website env Agents.ANALYSIS_AGENTS url;
     for_each parallel_agent_names
       (λ agent_name,
          agent_alter request_id agent_name (set_a_status "completed") ;;
          agent_alter request_id agent_name (set_a_message "Analysis complete")) ;;
     agent_alter request_id "report" (set_a_status "completed") ;;
     agent_alter request_id "report" (set_a_message "Report generated") ;;
     let overall_score :=
       if Py.truthy_int (Orchestrator.overall_score result)
       then Orchestrator.overall_score result else 75 in
     let report :=
       match Orchestrator.final_report result with
       | Some text => if Py.truthy_str text then text else ""
       | None => ""
       end in
     let pdf_path := Orchestrator.pdf_path result in
     let category_scores := Scores.parse_category_scores report in
     let '(issues_found, warnings, passed) := parse_report_stats report in
     completed_at ← timestamp;
     store_update request_id
       [("status", VStr "completed"); ("completed_at", VStr completed_at);
        ("overall_score", VInt overall_score); ("report", VStr report);
        ("issues_found", VInt issues_found); ("warnings", VInt warnings);
        ("passed", VInt passed); ("category_scores", VScores category_scores);
        ("pdf_path", match pdf_path with Some path => VStr path | None => VNone end);
        ("current_agent", VNone)])
    (λ e,
     completed_at ← timestamp;
     store_update request_id
       [("status", VStr "error"); ("error", VStr e);
        ("completed_at", VStr completed_at); ("current_agent", VNone)]).
End Server.

End Server.

(* ================================================================== *)
(** * main.py *)
(* ================================================================== *)

Module Main.
Section Main.
Variable env : Env.

(** main.py:90-119: the command-line [analyze]; [sys.exit(1)] when no
    API key is configured. *)
Definition run_analysis (url : string) (verbose : bool)
    : M World Orchestrator.SEOAnalysisResult :=
  match GOOGLE_API_KEY env with
  | None => raise "1"
  | Some key =>
      if negb (Py.truthy_str key) then raise "1"
      else
        Orchestrator.SEOOrchestrator_init env ;;
        Orchestrator.analyze_website env Agents.ANALYSIS_AGENTS url
  end.
End Main.
End Main.

(* ================================================================== *)
(** * Concrete environments *)
(* ================================================================== *)

Module Scenario.

(** What each worker writes when everything is up. *)
Definition worker_text (agent : string) : string :=
  if String.eqb agent "security_agent" then "Security Score: 85/100"
  else if String.eqb agent "onpage_agent" then "On-page SEO score: 70"
  else if String.eqb agent "content_agent" then "Content quality is fine."
  else if String.eqb agent "performance_agent" then "Performance score: 100"
  else if String.eqb agent "indexability_agent" then "Indexability" +:+ nl +:+ "SCORE 66/100"
  else "# SEO report" +:+ nl +:+ "## Security" +:+ nl +:+ "Score: 85/100".

(** Every collaborator answers. *)
Definition healthy : Env :=
  {| run_async := λ agent _ _, inl [Some (Parts [Some (worker_text agent)]); None];
     elapsed_ms := λ _ _, 1200;
     total_elapsed_ms := 5400;
     uuid4 := λ n, "3f2a9c1e-77d4-4b0a-9c51-" +:+ Observability.zero_padded 12 n;
     now := λ n, "2025-01-01T00:00:0" +:+ pretty n;
     db_init_fault := None;
     db_create_fault := λ _, None;
     db_update_fault := λ _ _, None;
     db_log_fault := λ _ _ _, None;
     db_read_fault := λ _ _, None;
     session_fault := λ _, None;
     generate_report_pdf := λ _ _ request_id _,
       Ret (Some ("reports/seo_" +:+ request_id +:+ ".pdf"));
     GOOGLE_API_KEY := Some "key" |}.

Definition with_run_async (f : string → string → string → list Event + string)
    (env : Env) : Env :=
  {| run_async := f; elapsed_ms := elapsed_ms env;
     total_elapsed_ms := total_elapsed_ms env; uuid4 := uuid4 env; now := now env;
     db_init_fault := db_init_fault env; db_create_fault := db_create_fault env;
     db_update_fault := db_update_fault env; db_log_fault := db_log_fault env;
     db_read_fault := db_read_fault env;
     session_fault := session_fault env;
     generate_report_pdf := generate_report_pdf env;
     GOOGLE_API_KEY := GOOGLE_API_KEY env |}.

Definition with_db_faults (create : string → option string)
    (update : string → string → option string)
    (log : string → string → string → option string) (env : Env) : Env :=
  {| run_async := run_async env; elapsed_ms := elapsed_ms env;
     total_elapsed_ms := total_elapsed_ms env; uuid4 := uuid4 env; now := now env;
     db_init_fault := db_init_fault env; db_create_fault := create;
     db_update_fault := update; db_log_fault := log;
     db_read_fault := db_read_fault env;
     session_fault := session_fault env;
     generate_report_pdf := generate_report_pdf env;
     GOOGLE_API_KEY := GOOGLE_API_KEY env |}.

(** The store cannot be opened: every statement faults. *)
Definition store_down : Env :=
  with_db_faults (λ _, Some "unable to open database file")
                 (λ _ _, Some "unable to open database file")
                 (λ _ _ _, Some "unable to open database file") healthy.

(** The capability is down for the security worker while the log
    table cannot be written. *)
Definition security_down_log_locked : Env :=
  with_run_async
    (λ agent session prompt,
       if String.eqb agent "security_agent" then inr "503 capability unavailable"
       else run_async healthy agent session prompt)
    (with_db_faults (λ _, None) (λ _ _, None) (λ _ _ _, Some "database is locked")
       healthy).

(** One worker faults, the store is up. *)
Definition security_down : Env :=
  with_run_async
    (λ agent session prompt,
       if String.eqb agent "security_agent" then inr "503 capability unavailable"
       else run_async healthy agent session prompt)
    healthy.

(** Rows can be inserted, but no [UPDATE] commits. *)
Definition updates_fail : Env :=
  with_db_faults (λ _, None) (λ _ _, Some "database is locked") (λ _ _ _, None)
    healthy.

(** The job can be created and set to [analyzing]; no later write of
    its row commits. *)
Definition terminal_writes_fail : Env :=
  with_db_faults (λ _, None)
    (λ _ status,
       if String.eqb status "analyzing" then None else Some "database is locked")
    (λ _ _ _, None) healthy.

(** The first log write of the guarded block faults; the rest is up. *)
Definition first_log_fails : Env :=
  with_db_faults (λ _, None) (λ _ _, None)
    (λ _ agent action,
       if String.eqb action "parallel_analysis_start"
       then Some "database is locked" else None)
    healthy.

(** The synthesis stage faults; the workers and the store are up. *)
Definition report_down : Env :=
  with_run_async
    (λ agent session prompt,
       if String.eqb agent "report_agent" then inr "429 quota exceeded"
       else run_async healthy agent session prompt)
    healthy.

(** No worker states a score. *)
Definition no_scores : Env :=
  with_run_async (λ _ _ _, inl [Some (Text "no numeric content")]) healthy.

(** A score of 4301 digits, and a system where the security worker
    states it. *)
Definition long_score : string :=
  "Score: " +:+ String.concat "" (replicate 4301 "7").

Definition security_overstates : Env :=
  with_run_async
    (λ agent session prompt,
       if String.eqb agent "security_agent" then inl [Some (Text long_score)]
       else run_async healthy agent session prompt)
    healthy.

(** The security worker answers with a content whose parts are [None]. *)
Definition security_unreadable : Env :=
  with_run_async
    (λ agent session prompt,
       if String.eqb agent "security_agent" then inl [Some NoParts]
       else run_async healthy agent session prompt)
    healthy.

(** ** Sites *)

(** A document with a title, a description, one H1 above two H2, a
    viewport tag and four links. *)
Definition landing_soup : Tools.Soup :=
  {| Tools.title := Some "  Example Domain: a page used in documentation  ";
     Tools.meta_descriptions := [Some "An illustrative page."];
     Tools.headings := λ i,
       if (i =? 1)%nat then ["Example Domain"]
       else if (i =? 2)%nat then ["About"; "Contact"] else [];
     Tools.anchors :=
       ["/about"; "#top"; "https://example.com/contact";
        "https://www.iana.org/domains/example"];
     Tools.meta_viewport := true;
     Tools.meta_robots := None |}.

Definition no_headers : string → option string := λ _, None.

(** A site that answers every request with status 200 and the same
    document, over a certificate that verifies. *)
Definition site (body : string) (served : string → option string)
    (soup : Tools.Soup) : Tools.Web :=
  {| Tools.REQUEST_TIMEOUT := 10;
     Tools.requests_get := λ url _,
       Tools.Fetched
         {| Tools.resp_url := Py.replace "http://" "https://" url;
            Tools.status_code := 200; Tools.text := body;
            Tools.headers := served |};
     Tools.urlparse := λ url,
       Ret {| Tools.scheme := "https"; Tools.netloc := "example.com" |};
     Tools.getpeercert := λ _, Ret true;
     Tools.BeautifulSoup := λ _, Ret soup |}.

Definition landing_page : Tools.Web :=
  site ("User-agent: *" +:+ nl +:+ "Disallow: /private" +:+ nl +:+
        "Sitemap: https://example.com/sitemap.xml" +:+ nl)
    (λ header,
       if String.eqb header "Strict-Transport-Security" then Some "max-age=63072000"
       else if String.eqb header "X-Frame-Options" then Some ""
       else None)
    landing_soup.

(** A page that asks not to be indexed, in its meta tag and in the
    response header. *)
Definition hidden_page : Tools.Web :=
  site "<html></html>"
    (λ header, if String.eqb header "X-Robots-Tag" then Some "noindex" else None)
    {| Tools.title := None; Tools.meta_descriptions := [];
       Tools.headings := λ _, []; Tools.anchors := [];
       Tools.meta_viewport := false;
       Tools.meta_robots := Some (Some "NOINDEX, NOFOLLOW") |}.

(** No answer from the network: every request ends in a
    [RequestException]. *)
Definition offline : Tools.Web :=
  {| Tools.REQUEST_TIMEOUT := 10;
     Tools.requests_get := λ _ _, Tools.RequestException "connection refused";
     Tools.urlparse := λ url,
       Ret {| Tools.scheme := "https"; Tools.netloc := "example.com" |};
     Tools.getpeercert := λ _, Raise "timed out";
     Tools.BeautifulSoup := λ _, Raise "not reached" |}.

(** A target that [urlparse] rejects. *)
Definition unparsable : Tools.Web :=
  {| Tools.REQUEST_TIMEOUT := 10;
     Tools.requests_get := λ _ _, Tools.RequestException "invalid URL";
     Tools.urlparse := λ _, Raise "Invalid IPv6 URL";
     Tools.getpeercert := λ _, Raise "not reached";
     Tools.BeautifulSoup := λ _, Raise "not reached" |}.

(** The request of the scenarios as the API records it, and its id. *)
Definition recorded_request (env : Env) : World :=
  snd (Server.start_analysis env
         (Server.make_request "example.com" "Ann" "ann@example.org") initial_world).

Definition request_id : string := "3f2a9c1e-77d4-4b0a-9c51-000000000000".

(** The world after the background task of that request. *)
Definition served_request (env : Env) : World :=
  snd (Server.run_analysis env request_id "https://example.com" "Ann"
         "ann@example.org" (recorded_request env)).

End Scenario.

(* ================================================================== *)
(** * Vocabulary of the properties *)
(* ================================================================== *)

(** [preserves f m]: running [m] leaves the observation [f] of the store
    unchanged, whether [m] returns or raises. *)
Definition preserves {S A X} (f : S → X) (m : M S A) : Prop :=
  ∀ s, f (snd (m s)) = f s.

(** [hoare pre m post exc]: from a store satisfying [pre], [m] ends in
    [post] when it returns and in [exc] when it raises. *)
Definition hoare {S A} (pre : S → Prop) (m : M S A)
    (post : A → S → Prop) (exc : string → S → Prop) : Prop :=
  ∀ s, pre s →
       match m s with
       | (Ret a, s') => post a s'
       | (Raise msg, s') => exc msg s'
       end.

(** The job rows and the history of their status. *)
Definition db_core (d : Database.DatabaseClient) :=
  (Database.analysis_requests d, Database.status_writes d).

(** Everything but the log table and the record of dispatched calls. *)
Definition quiet (w : World) :=
  (db_core (db w), session_service w, observability w, analysis_store w, draws w).

(** Everything outside the orchestrator and its store. *)
Definition outer (w : World) := (observability w, analysis_store w).

(** The rows and the status history seen from inside [try]. *)
Definition core (s : Orchestrator.SEOAnalysisResult * World) := db_core (db (snd s)).

(** What the task of one worker ends in when it runs on its own. *)
Definition settled (env : Env) (analysis_agents : list string)
    (url request_id session_id agent : string)
    : outcome Orchestrator.AgentResult :=
  fst (Orchestrator._run_agent env analysis_agents agent
         (Orchestrator.prompt_for url agent)
         (session_id +:+ "_" +:+ agent) request_id initial_world).

(** The reading of C1 that the code does not meet: whenever the
    invocation of a configured worker faults, the map holds a failed
    result with the message of the fault. *)
Definition faults_recorded (env : Env) (analysis_agents : list string)
    (url request_id session_id : string) (w : World) : Prop :=
  ∀ agent msg,
    agent ∈ analysis_agents →
    run_async env agent (session_id +:+ "_" +:+ agent)
      (Orchestrator.prompt_for url agent) = inr msg →
    ∃ results w' r,
      Orchestrator.run_parallel_analysis env analysis_agents url request_id
        session_id w = (Ret results, w') ∧
      dict_get agent results = Some r ∧
      Orchestrator.success r = false ∧ Orchestrator.error r = Some msg.

(** The identifier the next job gets. *)
Definition job_id (env : Env) (w : World) : string :=
  substring 0 8 (uuid4 env (draws w)).

Definition row_pending (url : string) : Database.Row :=
  {| Database.website_url := url; Database.status := "pending";
     Database.completed_at := false; Database.analysis_result := None;
     Database.report_markdown := None; Database.error_message := None |}.

(** The row of a job once it is being analysed. *)
Definition row_analyzing (url : string) : Database.Row :=
  {| Database.website_url := url; Database.status := "analyzing";
     Database.completed_at := false; Database.analysis_result := None;
     Database.report_markdown := None; Database.error_message := None |}.

Definition terminal (status : string) : Prop :=
  status = "completed" ∨ status = "partial" ∨ status = "failed".

(** The reading of C2 that the code does not meet: the entry point
    returns a result record whatever the collaborators do. *)
Definition always_returns (env : Env) (analysis_agents : list string)
    (url : string) (w : World) : Prop :=
  ∃ r, fst (Orchestrator.analyze_website env analysis_agents url w) = Ret r.

(** The reading of C3 that the code does not meet: the status of
    every job runs through exactly [pending], [analyzing] and one
    terminal status. *)
Definition lifecycle_complete (writes : list (string * string)) (job : string)
    : Prop :=
  ∃ t, terminal t ∧ writes = [(job, "pending"); (job, "analyzing"); (job, t)].

(** The overall score of a record that says [completed] is the
    aggregate of the scores read from its successful workers. *)
Definition scored (r : Orchestrator.SEOAnalysisResult) : Prop :=
  Orchestrator.status r = "completed" →
  ∃ scores,
    Orchestrator.collect_scores (dict_values (Orchestrator.agent_results r))
      = Ret scores ∧
    Orchestrator.overall_score r = Scores.aggregate_overall scores.

(** A text whose score can be read: [int] accepts the digits that
    follow the keyword, if there are any. *)
Definition readable (text : string) : Prop :=
  ∃ score, Scores.parse_score text = Ret score.

(** No answer of the capability states a score of more than 4300
    digits. *)
Definition answers_readable (env : Env) : Prop :=
  ∀ agent session_id prompt events text,
    run_async env agent session_id prompt = inl events →
    Orchestrator.collect_text events = Ret text →
    readable text.

(** The scores of the successful results can be read. *)
Definition scores_readable (results : list Orchestrator.AgentResult) : Prop :=
  Forall (λ r, Orchestrator.success r = true → readable (Orchestrator.result r))
    results.

(** In the words of the specification: all successfully parsed scores
    across successful workers, in the order of the results.  To be
    compared with [Orchestrator.collect_scores], the loop of the code. *)
Definition parsed_scores (results : list Orchestrator.AgentResult) : list Z :=
  omap (λ r, if Orchestrator.success r
             then match Scores.parse_score (Orchestrator.result r) with
                  | Ret (Some score) => Some score
                  | _ => None
                  end
             else None)
       results.

(** The record of a request is there, and its status is [running]. *)
Definition running (request_id : string) (w : World) : Prop :=
  ∃ analysis, analysis_store w !! request_id = Some analysis ∧
              analysis !! "status" = Some (Store.VStr "running").

Definition recorded (request_id : string) (w : World) : Prop :=
  is_Some (analysis_store w !! request_id).

(** The score the background task stores. *)
Definition stored_score (r : Orchestrator.SEOAnalysisResult) : Z :=
  if Py.truthy_int (Orchestrator.overall_score r)
  then Orchestrator.overall_score r else 75.

(** The record of a request after the background task is over. *)
Definition settled_record (env : Env) (request_id url : string) (w : World) : Prop :=
  ∃ analysis,
    analysis_store w !! request_id = Some analysis ∧
    (analysis !! "status" = Some (Store.VStr "error") ∨
     analysis !! "status" = Some (Store.VStr "completed") ∧
     ∃ r w0,
       fst (Orchestrator.analyze_website env Agents.ANALYSIS_AGENTS url w0) = Ret r ∧
       analysis !! "overall_score" = Some (Store.VInt (stored_score r))).

(** The groups a pattern can bind. *)
Fixpoint groups (r : Re.regex) : list nat :=
  match r with
  | Re.Cat r1 r2 | Re.Alt r1 r2 => groups r1 ++ groups r2
  | Re.Opt r1 | Re.Star r1 | Re.Plus r1 | Re.StarLazy r1 => groups r1
  | Re.Group n r1 => n :: groups r1
  | _ => []
  end.

(** Characters that only match themselves, with or without
    [IGNORECASE]. *)
Definition caseless (fl : Re.flags) (a : ascii) : Prop :=
  ∀ c, Re.chr_eq fl a c = true → c = a.

Fixpoint all_caseless (fl : Re.flags) (l : string) : Prop :=
  match l with
  | EmptyString => True
  | String a l' => caseless fl a ∧ all_caseless fl l'
  end.

Fixpoint all_chars (p : ascii → bool) (s : string) : Prop :=
  match s with
  | EmptyString => True
  | String c s' => p c = true ∧ all_chars p s'
  end.

(** The header as [check_security_headers] counts it: present with a
    value that is not empty. *)
Definition served (page : Tools.Response) (header : string)
    : option (string * string) :=
  match Tools.headers page header with
  | Some value => if Py.truthy_str value then Some (header, value) else None
  | None => None
  end.

(** No heading level in use lies below a level that is not in use:
    the levels in use are 1 to some [k]. *)
Definition no_level_skipped (count : nat → nat) : Prop :=
  ∀ i, (2 ≤ i ≤ 6)%nat → (0 < count i)%nat → (0 < count (i - 1))%nat.

(** What holds of the result of [check_robots_and_sitemap] until the
    points for the sitemap and for crawling are added. *)
Definition robots_invariant (r : Tools.RobotsAndSitemap) : Prop :=
  Tools.rs_error r = None ∧
  Tools.rs_score r = (if Tools.has_robots_txt r then 25 else 0) ∧
  (Tools.robots_allows_crawling r = false → Tools.has_robots_txt r = true) ∧
  (Tools.has_sitemap r = true ↔ is_Some (Tools.sitemap_url r)).

(** A call of the database client by one of its users. *)
Inductive Call :=
| Create (uuid website_url : string)
| Update (unique_identifier status : string)
         (analysis_result : option Database.AnalysisDoc)
         (report_markdown error_message : option string)
| Log (request_id agent_name action : string)
      (details : option Database.Details) (duration_ms : option Z).

(** The store after a call, whether the call returned or raised. *)
Definition after_call (env : Env) (d : Database.DatabaseClient) (c : Call)
    : Database.DatabaseClient :=
  match c with
  | Create uuid website_url =>
      snd (Database.create_analysis_request env uuid website_url d)
  | Update unique_identifier status analysis_result report_markdown error_message =>
      snd (Database.update_request_status env unique_identifier status
             analysis_result report_markdown error_message d)
  | Log request_id agent_name action details duration_ms =>
      snd (Database.log_agent_action env request_id agent_name action details
             duration_ms d)
  end.

Definition after_calls (env : Env) (cs : list Call) (d : Database.DatabaseClient)
    : Database.DatabaseClient :=
  foldl (after_call env) d cs.

(** A row keeps what it has: the target, and every column that has
    been set. *)
Definition keeps (row row' : Database.Row) : Prop :=
  Database.website_url row' = Database.website_url row ∧
  (Database.completed_at row = true → Database.completed_at row' = true) ∧
  (is_Some (Database.analysis_result row) → is_Some (Database.analysis_result row')) ∧
  (is_Some (Database.report_markdown row) → is_Some (Database.report_markdown row')) ∧
  (is_Some (Database.error_message row) → is_Some (Database.error_message row')).

(** Session states that are integers, written in decimal by
    [json.dumps] and read back by [json.loads]. *)
Definition dumps_int (z : Z) : outcome string := Ret (pretty z).

Definition loads_int (text : string) : outcome Z :=
  match Py.int text with
  | Some z => if String.eqb (pretty z) text then Ret z else Raise "Expecting value"
  | None => Raise "Expecting value"
  end.

(** The entry of a key in a dictionary kept as a list. *)
Fixpoint entry {K V} `{EqDecision K} (key : K) (d : list (K * V)) : option V :=
  match d with
  | [] => None
  | (k, v) :: d' => if decide (k = key) then Some v else entry key d'
  end.

(** [metrics._counters.get(key, 0)] *)
Definition counter_value (name : string) (labels : Observability.Labels)
    (g : Observability.Globals) : Z :=
  default 0 (entry (name, labels) (Observability._counters (Observability.metrics g))).

(** [metrics._histograms.get(key, [])] *)
Definition histogram_values (name : string) (labels : Observability.Labels)
    (g : Observability.Globals) : list Z :=
  default [] (entry (name, labels)
                (Observability._histograms (Observability.metrics g))).


(** The elements of a list whose sort key is [k], in the order of the
    list. *)
Definition bucket {X} (key : X → nat) (k : nat) (l : list X) : list X :=
  filter (λ y, key y = k) l.

(** What the progress endpoint shows of a stored agent entry, and of an
    agent that has none. *)
Definition shown (name : string) (data : Store.AgentStatus) : Server.AgentStatusModel :=
  {| Server.m_name := name; Server.m_status := Store.a_status data;
     Server.m_message := Store.a_message data;
     Server.m_duration := Store.a_duration data |}.

Definition not_started (name : string) : Server.AgentStatusModel :=
  {| Server.m_name := name; Server.m_status := "pending";
     Server.m_message := None; Server.m_duration := None |}.

Definition reported (items : list (string * Store.AgentStatus)) (name : string)
    : Server.AgentStatusModel :=
  match dict_get name items with
  | Some data => shown name data
  | None => not_started name
  end.

(** The entries the progress endpoint lists after the six agents. *)
Definition others (items : list (string * Store.AgentStatus))
    : list Server.AgentStatusModel :=
  filter (λ a, Server.m_name a ∉ Server.agent_names)
    (map (λ '(name, data), shown name data) items).

(** The record of a request satisfies [R]. *)
Definition record_with (request_id : string)
    (R : gmap string Store.PyVal → Prop) (w : World) : Prop :=
  ∃ analysis, analysis_store w !! request_id = Some analysis ∧ R analysis.

(** A record with the given status whose agent entries satisfy [Q]. *)
Definition at_stage (status : string)
    (Q : list (string * Store.AgentStatus) → Prop)
    (analysis : gmap string Store.PyVal) : Prop :=
  analysis !! "status" = Some (Store.VStr status) ∧
  ∃ items, analysis !! "agents" = Some (Store.VAgents items) ∧ Q items.

(** Agent entries that hold the entries [known], and whose entries
    under other names than the six are shown as [rest]. *)
Definition agents_with (known : list (string * Store.AgentStatus))
    (rest : list Server.AgentStatusModel)
    (items : list (string * Store.AgentStatus)) : Prop :=
  NoDup (dict_keys items) ∧ others items = rest ∧
  ∀ name st, dict_get name known = Some st → dict_get name items = Some st.

Definition agent_status (status : string) (message : option string)
    : Store.AgentStatus :=
  {| Store.a_status := status; Store.a_message := message;
     Store.a_duration := None |}.

(** The six entries when the task has entered them, while the pipeline
    runs, and after it. *)
Definition when_entered : list (string * Store.AgentStatus) :=
  [("security", agent_status "pending" None);
   ("onpage", agent_status "pending" None);
   ("content", agent_status "pending" None);
   ("performance", agent_status "pending" None);
   ("indexability", agent_status "pending" None);
   ("report", agent_status "pending" None)].

Definition while_running : list (string * Store.AgentStatus) :=
  [("security", agent_status "running" None);
   ("onpage", agent_status "running" None);
   ("content", agent_status "running" None);
   ("performance", agent_status "running" None);
   ("indexability", agent_status "running" None);
   ("report", agent_status "pending" None)].

Definition when_completed : list (string * Store.AgentStatus) :=
  [("security", agent_status "completed" (Some "Analysis complete"));
   ("onpage", agent_status "completed" (Some "Analysis complete"));
   ("content", agent_status "completed" (Some "Analysis complete"));
   ("performance", agent_status "completed" (Some "Analysis complete"));
   ("indexability", agent_status "completed" (Some "Analysis complete"));
   ("report", agent_status "completed" (Some "Report generated"))].

(** The report the background task stores: [final_report] or the
    empty text. *)
Definition served_report (r : Orchestrator.SEOAnalysisResult) : string :=
  match Orchestrator.final_report r with
  | Some text => if Py.truthy_str text then text else ""
  | None => ""
  end.

(** What the background task writes of the result of a run. *)
Definition holds_result (r : Orchestrator.SEOAnalysisResult)
    (analysis : gmap string Store.PyVal) : Prop :=
  analysis !! "current_agent" = Some Store.VNone ∧
  analysis !! "overall_score" = Some (Store.VInt (stored_score r)) ∧
  analysis !! "report" = Some (Store.VStr (served_report r)) ∧
  analysis !! "issues_found"
    = Some (Store.VInt (Server.parse_report_stats (served_report r)).1.1) ∧
  analysis !! "warnings"
    = Some (Store.VInt (Server.parse_report_stats (served_report r)).1.2) ∧
  analysis !! "passed"
    = Some (Store.VInt (Server.parse_report_stats (served_report r)).2) ∧
  analysis !! "category_scores"
    = Some (Store.VScores (Scores.parse_category_scores (served_report r))) ∧
  analysis !! "pdf_path"
    = Some (match Orchestrator.pdf_path r with
            | Some path => Store.VStr path
            | None => Store.VNone
            end).

(** The result of some run of the pipeline on [url]. *)
Definition result_of_run (env : Env) (url : string)
    (r : Orchestrator.SEOAnalysisResult) : Prop :=
  ∃ w0, fst (Orchestrator.analyze_website env Agents.ANALYSIS_AGENTS url w0) = Ret r.

(** The record after a background task that ended in a fault: the
    message is stored, and the agent entries are as they were when the
    fault was raised. *)
Definition failed_record (items0 : list (string * Store.AgentStatus))
    (analysis : gmap string Store.PyVal) : Prop :=
  analysis !! "current_agent" = Some Store.VNone ∧
  (∃ e, analysis !! "error" = Some (Store.VStr e)) ∧
  (at_stage "error" (eq items0) analysis ∨
   at_stage "error" (agents_with while_running (others items0)) analysis).

Definition completed_record (env : Env) (url : string)
    (items0 : list (string * Store.AgentStatus))
    (analysis : gmap string Store.PyVal) : Prop :=
  at_stage "completed" (agents_with when_completed (others items0)) analysis ∧
  ∃ r, result_of_run env url r ∧ holds_result r analysis.

(** A request whose record holds the agent entries [items0], as
    [start_analysis] and the background task leave it. *)
Definition accepted (request_id : string)
    (items0 : list (string * Store.AgentStatus)) (w : World) : Prop :=
  NoDup (dict_keys items0) ∧
  record_with request_id
    (λ analysis, analysis !! "agents" = Some (Store.VAgents items0)) w.

(** The six entries as the progress endpoint shows them. *)
Definition shown_all (known : list (string * Store.AgentStatus))
    : list Server.AgentStatusModel :=
  map (λ '(name, data), shown name data) known.
(** The path of the rendered report, when the result has one, is not
    empty. *)
Definition pdf_ok (r : Orchestrator.SEOAnalysisResult) : Prop :=
  ∀ path, Orchestrator.pdf_path r = Some path → Py.truthy_str path = true.
(** The row of [analysis_logs] that belongs to the result of a worker:
    its action and details tell success from failure, and its duration
    is the duration of the result. *)
Definition log_row_of (request_id : string) (r : Orchestrator.AgentResult)
    : Database.LogRow :=
  {| Database.l_request_id := request_id;
     Database.l_agent_name := Orchestrator.agent_name r;
     Database.l_action :=
       if Orchestrator.success r then "analysis_complete" else "analysis_error";
     Database.l_details :=
       Some (if Orchestrator.success r
             then Database.ResultLength (String.length (Orchestrator.result r))
             else Database.Error (default "" (Orchestrator.error r)));
     Database.l_duration_ms := Some (Orchestrator.duration_ms r) |}.
(** What the capability sees of the world: the sessions that exist and
    the calls made so far. *)
Definition wire (w : World) : list string * list (string * string * string) :=
  (session_service w, dispatched w).

(** The calls of the workers of a job, in the order of the
    configuration, and the call of the report agent. *)
Definition worker_calls (analysis_agents : list string) (url request_id : string)
    : list (string * string * string) :=
  map (λ agent, (agent, ("seo_session_" +:+ request_id) +:+ "_" +:+ agent,
                 Orchestrator.prompt_for url agent))
      analysis_agents.

Definition report_call (url request_id : string)
    (agent_results : list (string * Orchestrator.AgentResult))
    : string * string * string :=
  ("report_agent", ("seo_session_" +:+ request_id) +:+ "_report_agent",
   Orchestrator.report_prompt url agent_results).

(** The calls a run can have made: none, those of the workers, or
    those of the workers and then that of the report agent. *)
Definition calls_of_run (analysis_agents : list string) (url request_id : string)
    (calls : list (string * string * string)) : Prop :=
  calls = [] ∨ calls = worker_calls analysis_agents url request_id ∨
  ∃ agent_results,
    calls = worker_calls analysis_agents url request_id ++
            [report_call url request_id agent_results].

(** What [lstrip] leaves does not start with white space. *)
Definition trimmed_left (s : string) : Prop :=
  match s with
  | String c _ => Py.isspace c = false
  | EmptyString => True
  end.
(* ================================================================== *)
(** * Reasoning about computations *)
(* ================================================================== *)

Section Preserves.
Context {S X : Type} (f : S → X).

Lemma preserves_ret {A} (a : A) : preserves f (ret a).
Proof. by intros s. Qed.

Lemma preserves_raise {A} msg : preserves f (raise (A:=A) msg).
Proof. by intros s. Qed.

Lemma preserves_get : preserves f get.
Proof. by intros s. Qed.

Lemma preserves_modify g : (∀ s, f (g s) = f s) → preserves f (modify g).
Proof. intros Hg s. apply Hg. Qed.

Lemma preserves_bind {A B} (m : M S A) (k : A → M S B) :
  preserves f m → (∀ a, preserves f (k a)) → preserves f (bind m k).
Proof.
  intros Hm Hk s. unfold bind. specialize (Hm s).
  destruct (m s) as [[a|msg] s']; simpl in *; [|done].
  by rewrite Hk.
Qed.

Lemma preserves_try_except {A} (m : M S A) h :
  preserves f m → (∀ msg, preserves f (h msg)) → preserves f (try_except m h).
Proof.
  intros Hm Hh s. unfold try_except. specialize (Hm s).
  destruct (m s) as [[a|msg] s']; simpl in *; [done|].
  by rewrite Hh.
Qed.

Lemma preserves_for_each {A} (xs : list A) body :
  (∀ x, preserves f (body x)) → preserves f (for_each xs body).
Proof.
  intros Hb. induction xs as [|x xs IH]; simpl.
  - apply preserves_ret.
  - apply preserves_bind; auto.
Qed.

Lemma preserves_gather {A} (tasks : list (M S A)) :
  Forall (preserves f) tasks → preserves f (gather tasks).
Proof.
  induction 1 as [|task tasks Ht _ IH]; simpl.
  - apply preserves_ret.
  - intros s. specialize (Ht s). destruct (task s) as [o s']. simpl in Ht.
    rewrite <- Ht. apply (preserves_bind (gather tasks)); [done|].
    intros os. apply preserves_ret.
Qed.
End Preserves.

(** A computation on a component preserves what does not read it. *)
Lemma preserves_zoom_out {S T A X} (f : T → X) (proj : T → S) upd (m : M S A) :
  (∀ s t, f (upd s t) = f t) → preserves f (zoom proj upd m).
Proof. intros Hf t. unfold zoom. destruct (m (proj t)) as [o s']. apply Hf. Qed.

(** ... and what it preserves on the component. *)
Lemma preserves_zoom_in {S T A X} (g : S → X) (proj : T → S) upd (m : M S A) :
  (∀ s t, proj (upd s t) = s) → preserves g m →
  preserves (λ t, g (proj t)) (zoom proj upd m).
Proof.
  intros Hp Hm t. unfold zoom. specialize (Hm (proj t)).
  destruct (m (proj t)) as [o s']. simpl in *. by rewrite Hp.
Qed.

Section Hoare.
Context {S : Type}.

Lemma hoare_ret {A} (a : A) (post : A → S → Prop) exc :
  hoare (post a) (ret a) post exc.
Proof. by intros s. Qed.

Lemma hoare_raise {A} msg (post : A → S → Prop) exc :
  hoare (exc msg) (raise msg) post exc.
Proof. by intros s. Qed.

Lemma hoare_bind {A B} (mid : A → S → Prop) pre (m : M S A) (k : A → M S B)
    post exc :
  hoare pre m mid exc → (∀ a, hoare (mid a) (k a) post exc) →
  hoare pre (bind m k) post exc.
Proof.
  intros Hm Hk s Hs. unfold bind. specialize (Hm s Hs).
  destruct (m s) as [[a|msg] s']; [|done]. by apply Hk.
Qed.

Lemma hoare_try_except {A} (caught : string → S → Prop) pre (m : M S A) h
    post exc :
  hoare pre m post caught → (∀ msg, hoare (caught msg) (h msg) post exc) →
  hoare pre (try_except m h) post exc.
Proof.
  intros Hm Hh s Hs. unfold try_except. specialize (Hm s Hs).
  destruct (m s) as [[a|msg] s']; [done|]. by apply Hh.
Qed.

Lemma hoare_consequence {A} (pre pre' : S → Prop) (m : M S A)
    (post post' : A → S → Prop) (exc exc' : string → S → Prop) :
  hoare pre' m post' exc' →
  (∀ s, pre s → pre' s) → (∀ a s, post' a s → post a s) →
  (∀ msg s, exc' msg s → exc msg s) →
  hoare pre m post exc.
Proof.
  intros Hm Hpre Hpost Hexc s Hs. specialize (Hm s (Hpre s Hs)).
  destruct (m s) as [[a|msg] s']; auto.
Qed.

(** A fact that does not depend on the store can be assumed. *)
Lemma hoare_assume {A} (φ : Prop) (pre : S → Prop) (m : M S A) post exc :
  (φ → hoare pre m post exc) → hoare (λ s, φ ∧ pre s) m post exc.
Proof. intros Hm s [Hφ Hs]. by apply Hm. Qed.

Lemma hoare_preserves {A X} (f : S → X) (m : M S A) (P : X → Prop) :
  preserves f m → hoare (λ s, P (f s)) m (λ _ s, P (f s)) (λ _ s, P (f s)).
Proof.
  intros Hm s Hs. specialize (Hm s).
  destruct (m s) as [[a|msg] s']; simpl in *; by rewrite Hm.
Qed.

(** A computation that always returns, on top of what it preserves. *)
Lemma hoare_total {A X} (f : S → X) (m : M S A) (P : X → Prop) (Q : A → Prop) :
  preserves f m → (∀ s, ∃ a, fst (m s) = Ret a ∧ Q a) →
  hoare (λ s, P (f s)) m (λ a s, P (f s) ∧ Q a) (λ _ _, False).
Proof.
  intros Hm Hret s Hs. specialize (Hm s). destruct (Hret s) as (a & Ha & HQ).
  destruct (m s) as [[a'|msg] s']; simpl in *; [|done].
  injection Ha as ->. by rewrite Hm.
Qed.

Lemma hoare_for_each {A} (inv : S → Prop) (xs : list A) body exc :
  (∀ x, hoare inv (body x) (λ _, inv) exc) →
  hoare inv (for_each xs body) (λ _, inv) exc.
Proof.
  intros Hb. induction xs as [|x xs IH]; simpl.
  - by intros s.
  - eapply hoare_bind; [apply Hb|]. intros []. apply IH.
Qed.
End Hoare.

(* ================================================================== *)
(** * What the stages leave untouched *)
(* ================================================================== *)

Lemma preserves_weaken {S A X Y} (f : S → X) (g : S → Y) (h : X → Y) (m : M S A) :
  (∀ s, g s = h (f s)) → preserves f m → preserves g m.
Proof. intros Hg Hm s. by rewrite !Hg, Hm. Qed.

Ltac preserves_step :=
  first
    [ apply preserves_ret | apply preserves_raise | apply preserves_get
    | apply preserves_bind; [|intros ?]
    | apply preserves_try_except; [|intros ?]
    | apply preserves_for_each; intros ?
    | match goal with
      | |- preserves _ (match ?x with _ => _ end) => destruct x
      | |- preserves _ (let '(_, _) := ?x in _) => destruct x
      end ].

Section Frames.
Variable env : Env.
Variable analysis_agents : list string.

Lemma log_agent_action_core request_id agent_name action details duration_ms :
  preserves db_core
    (Database.log_agent_action env request_id agent_name action details duration_ms).
Proof.
  unfold Database.log_agent_action.
  destruct (db_log_fault _ _ _ _); [apply preserves_raise|].
  by apply preserves_modify.
Qed.

Lemma on_db_quiet {A} (m : M Database.DatabaseClient A) :
  preserves db_core m → preserves quiet (on_db m).
Proof.
  intros Hm w. unfold on_db, zoom, quiet. specialize (Hm (db w)).
  destruct (m (db w)) as [o d']. simpl in *. by rewrite Hm.
Qed.

Lemma on_db_outer {A} (m : M Database.DatabaseClient A) : preserves outer (on_db m).
Proof. by apply preserves_zoom_out. Qed.

Lemma invoke_quiet agent_name session_id prompt :
  preserves quiet (Orchestrator.invoke env agent_name session_id prompt).
Proof.
  intros w. unfold Orchestrator.invoke. by destruct (run_async _ _ _ _).
Qed.

Lemma _run_agent_quiet agent_name prompt session_id request_id :
  preserves quiet
    (Orchestrator._run_agent env analysis_agents agent_name prompt session_id
       request_id).
Proof.
  unfold Orchestrator._run_agent.
  destruct (negb _); [apply preserves_ret|].
  repeat first [ apply invoke_quiet
               | apply on_db_quiet, log_agent_action_core
               | preserves_step ].
Qed.

Lemma run_parallel_analysis_quiet url request_id session_id :
  preserves quiet
    (Orchestrator.run_parallel_analysis env analysis_agents url request_id session_id).
Proof.
  unfold Orchestrator.run_parallel_analysis.
  apply preserves_bind; [|intros; apply preserves_ret].
  apply preserves_gather, Forall_forall. intros task Htask.
  unfold Orchestrator.tasks in Htask.
  apply list_elem_of_In, in_map_iff in Htask as (agent & <- & _).
  apply _run_agent_quiet.
Qed.

Lemma generate_report_quiet url agent_results request_id session_id :
  preserves quiet
    (Orchestrator.generate_report env analysis_agents url agent_results request_id
       session_id).
Proof. apply _run_agent_quiet. Qed.

Lemma quiet_outer {A} (m : M World A) : preserves quiet m → preserves outer m.
Proof.
  apply (preserves_weaken quiet outer (λ q, (q.1.1.2, q.1.2))). by intros w.
Qed.

Lemma quiet_core {A} (m : M World A) :
  preserves quiet m → preserves (λ w, db_core (db w)) m.
Proof.
  apply (preserves_weaken quiet _ (λ q, q.1.1.1.1)). by intros w.
Qed.

Lemma create_session_outer session_id :
  preserves outer (Orchestrator.create_session env session_id).
Proof.
  unfold Orchestrator.create_session.
  destruct (session_fault _ _); [apply preserves_raise|].
  by apply preserves_modify.
Qed.

Lemma create_session_core session_id :
  preserves (λ w, db_core (db w)) (Orchestrator.create_session env session_id).
Proof.
  unfold Orchestrator.create_session.
  destruct (session_fault _ _); [apply preserves_raise|].
  by apply preserves_modify.
Qed.

Lemma fresh_uuid_outer : preserves outer (Orchestrator.fresh_uuid env).
Proof. by intros w. Qed.

Lemma on_world_preserves {A X} (f : World → X) (m : M World A) :
  preserves f m →
  preserves (λ s : Orchestrator.SEOAnalysisResult * World, f (snd s))
    (Orchestrator.on_world m).
Proof.
  intros Hm [r w]. unfold Orchestrator.on_world, zoom. simpl.
  specialize (Hm w). by destruct (m w).
Qed.

Lemma assign_preserves {X} (f : World → X) g :
  preserves (λ s : Orchestrator.SEOAnalysisResult * World, f (snd s))
    (Orchestrator.assign g).
Proof. by intros [r w]. Qed.

Lemma analysis_result_preserves {X} (f : Orchestrator.SEOAnalysisResult * World → X) :
  preserves f Orchestrator.analysis_result.
Proof. by intros s. Qed.

Lemma with_local_preserves {R A X} (f : World → X) (r0 : R) (m : M (R * World) A) :
  preserves (λ s, f (snd s)) m → preserves f (Orchestrator.with_local r0 m).
Proof.
  intros Hm w. unfold Orchestrator.with_local. specialize (Hm (r0, w)).
  by destruct (m (r0, w)) as [[a|msg] [r w']].
Qed.

Ltac local_step f :=
  first [ apply (assign_preserves f) | apply analysis_result_preserves
        | preserves_step ].

(** The block that records the report writes the local object only. *)
Lemma record_report_preserves {X} (f : World → X) report_result agent_results url
    request_id :
  preserves (λ s, f (snd s))
    (Orchestrator.record_report env report_result agent_results url request_id).
Proof. unfold Orchestrator.record_report. repeat local_step f. Qed.

Lemma store_results_outer request_id :
  preserves (λ s, outer (snd s)) (Orchestrator.store_results env request_id).
Proof.
  unfold Orchestrator.store_results.
  repeat first [ apply (on_world_preserves outer), on_db_outer | local_step outer ].
Qed.

Lemma analyze_try_outer url request_id session_id :
  preserves (λ s, outer (snd s))
    (Orchestrator.analyze_try env analysis_agents url request_id session_id).
Proof.
  unfold Orchestrator.analyze_try.
  repeat first
    [ apply (record_report_preserves outer)
    | apply store_results_outer
    | apply (on_world_preserves outer);
      first [ apply on_db_outer
            | apply quiet_outer, run_parallel_analysis_quiet
            | apply quiet_outer, generate_report_quiet ]
    | local_step outer ].
Qed.

Lemma analyze_except_outer request_id error_msg :
  preserves (λ s, outer (snd s))
    (Orchestrator.analyze_except env request_id error_msg).
Proof.
  unfold Orchestrator.analyze_except.
  repeat first
    [ apply (assign_preserves outer)
    | apply (on_world_preserves outer), on_db_outer
    | preserves_step ].
Qed.

Lemma analyze_setup_outer url :
  preserves outer (Orchestrator.analyze_setup env analysis_agents url).
Proof.
  unfold Orchestrator.analyze_setup.
  repeat first
    [ apply fresh_uuid_outer | apply on_db_outer | apply create_session_outer
    | preserves_step ].
Qed.

Lemma analyze_website_outer url :
  preserves outer (Orchestrator.analyze_website env analysis_agents url).
Proof.
  unfold Orchestrator.analyze_website.
  apply preserves_bind; [apply analyze_setup_outer|]. intros request_id.
  apply with_local_preserves, preserves_try_except.
  - apply analyze_try_outer.
  - intros msg. apply analyze_except_outer.
Qed.

Lemma SEOOrchestrator_init_outer :
  preserves outer (Orchestrator.SEOOrchestrator_init env).
Proof.
  unfold Orchestrator.SEOOrchestrator_init.
  destruct (db_init_fault env); [apply preserves_raise|].
  by apply preserves_modify.
Qed.
End Frames.

(* ================================================================== *)
(** * Dictionaries *)
(* ================================================================== *)

Lemma dict_get_set_eq {V} k (v : V) d : dict_get k (dict_set k v d) = Some v.
Proof.
  unfold dict_get. induction d as [|[k' v'] d IH]; simpl.
  - by rewrite String.eqb_refl.
  - destruct (String.eqb k' k) eqn:E; simpl.
    + by rewrite String.eqb_refl.
    + by rewrite E.
Qed.

Lemma dict_get_set_ne {V} k k' (v : V) d :
  k ≠ k' → dict_get k' (dict_set k v d) = dict_get k' d.
Proof.
  unfold dict_get. intros Hne. induction d as [|[k0 v0] d IH]; simpl.
  - by apply String.eqb_neq in Hne as ->.
  - destruct (String.eqb k0 k) eqn:E; simpl.
    + apply String.eqb_eq in E as ->.
      by apply String.eqb_neq in Hne as ->.
    + by rewrite IH.
Qed.

Lemma dict_get_Some_keys {V} k (v : V) d : dict_get k d = Some v → k ∈ dict_keys d.
Proof.
  unfold dict_get, dict_keys. induction d as [|[k0 v0] d IH]; simpl; [done|].
  destruct (String.eqb k0 k) eqn:E.
  - apply String.eqb_eq in E as ->. intros _. apply list_elem_of_here.
  - intros H. apply list_elem_of_further. auto.
Qed.

(* ================================================================== *)
(** * The parallel stage *)
(* ================================================================== *)

Section Parallel.
Import Orchestrator.
Variable env : Env.
Variable analysis_agents : list string.

Lemma has_runner_configured agent :
  agent ∈ analysis_agents → has_runner analysis_agents agent = true.
Proof.
  intros Hin. unfold has_runner, runners. apply existsb_exists.
  exists agent. split; [|apply String.eqb_refl].
  apply in_or_app. left. by apply list_elem_of_In.
Qed.

Lemma has_runner_report : has_runner analysis_agents "report_agent" = true.
Proof.
  unfold has_runner, runners. apply existsb_exists.
  exists "report_agent". split; [|done].
  apply in_or_app. right. by left.
Qed.

(** The cases of a run of one agent: what the capability answers,
    whether its answer can be read, and what the store does with the
    two log rows. *)
Ltac agent_cases :=
  unfold try_except, bind, invoke, on_db, zoom, Database.log_agent_action;
  match goal with
  | |- context [run_async ?env ?agent ?session_id ?prompt] =>
      destruct (run_async env agent session_id prompt) as [events|fault]; simpl;
      [destruct (collect_text events) as [text|fault]; simpl|]
  end;
  repeat match goal with
         | |- context [db_log_fault ?env ?request_id ?agent ?action] =>
             destruct (db_log_fault env request_id agent action); simpl
         end.

(** The outcome of a worker's task is decided by the answers of the
    collaborators to that worker alone: the store it starts from plays
    no part. *)
Lemma _run_agent_outcome agent prompt session_id request_id w1 w2 :
  fst (_run_agent env analysis_agents agent prompt session_id request_id w1) =
  fst (_run_agent env analysis_agents agent prompt session_id request_id w2).
Proof.
  unfold _run_agent. destruct (negb _); [done|]. agent_cases; done.
Qed.

Lemma _run_agent_result agent prompt session_id request_id w r :
  fst (_run_agent env analysis_agents agent prompt session_id request_id w) = Ret r →
  agent_name r = agent ∧
  (duration_ms r = 0 ∨ ∃ action, duration_ms r = elapsed_ms env agent action).
Proof.
  unfold _run_agent. destruct (negb _).
  { intros [= <-]. simpl. auto. }
  agent_cases; try done; intros [= <-]; simpl; eauto.
Qed.

(** A fault of the capability, once its log row is written, is the
    failed result that carries the message. *)
Lemma _run_agent_fault agent prompt session_id request_id msg w :
  has_runner analysis_agents agent = true →
  run_async env agent session_id prompt = inr msg →
  db_log_fault env request_id agent "analysis_error" = None →
  fst (_run_agent env analysis_agents agent prompt session_id request_id w) =
  Ret {| agent_name := agent; success := false; result := "";
         duration_ms := elapsed_ms env agent "analysis_error";
         error := Some msg |}.
Proof.
  intros Hr Hrun Hlog. unfold _run_agent. rewrite Hr. simpl.
  unfold try_except, bind, invoke, on_db, zoom, Database.log_agent_action.
  by rewrite Hrun, Hlog.
Qed.

(** ... and a fault whose log row cannot be written leaves the task
    itself raising, from inside its handler. *)
Lemma _run_agent_unlogged_fault agent prompt session_id request_id msg fault w :
  has_runner analysis_agents agent = true →
  run_async env agent session_id prompt = inr msg →
  db_log_fault env request_id agent "analysis_error" = Some fault →
  fst (_run_agent env analysis_agents agent prompt session_id request_id w)
  = Raise fault.
Proof.
  intros Hr Hrun Hlog. unfold _run_agent. rewrite Hr. simpl.
  unfold try_except, bind, invoke, on_db, zoom, Database.log_agent_action.
  by rewrite Hrun, Hlog.
Qed.

Lemma _run_agent_dispatched agent prompt session_id request_id w :
  has_runner analysis_agents agent = true →
  dispatched (snd (_run_agent env analysis_agents agent prompt session_id request_id w))
  = dispatched w ++ [(agent, session_id, prompt)].
Proof.
  intros Hr. unfold _run_agent. rewrite Hr. simpl. agent_cases; done.
Qed.

(** [gather] returns one outcome per task, in order, and never raises. *)
Lemma gather_settles {A B} (task : B → M World A) (l : list B) w :
  (∀ b w1 w2, fst (task b w1) = fst (task b w2)) →
  fst (gather (map task l) w) = Ret (map (λ b, fst (task b initial_world)) l).
Proof.
  intros Hindep. revert w. induction l as [|b l IH]; intros w; simpl; [done|].
  pose proof (Hindep b w initial_world) as Hb.
  destruct (task b w) as [o w1]. simpl in Hb. subst o.
  unfold bind. specialize (IH w1).
  destruct (gather (map task l) w1) as [[os|msg] w2]; simpl in *; [|done].
  by injection IH as ->.
Qed.

Lemma gather_dispatched url request_id session_id (l : list string) w :
  (∀ agent, agent ∈ l → agent ∈ analysis_agents) →
  dispatched
    (snd (gather
            (map (λ agent, _run_agent env analysis_agents agent (prompt_for url agent)
                             (session_id +:+ "_" +:+ agent) request_id) l) w))
  = dispatched w ++
    map (λ agent, (agent, session_id +:+ "_" +:+ agent, prompt_for url agent)) l.
Proof.
  revert w. induction l as [|agent l IH]; intros w Hl; simpl.
  - by rewrite app_nil_r.
  - pose proof (_run_agent_dispatched agent (prompt_for url agent)
                  (session_id +:+ "_" +:+ agent) request_id w
                  (has_runner_configured agent (Hl agent (list_elem_of_here _ _)))) as Hd.
    destruct (_run_agent _ _ _ _ _ _ w) as [o w1]. simpl in Hd.
    unfold bind.
    specialize (IH w1 (λ a Ha, Hl a (list_elem_of_further _ _ _ Ha))).
    destruct (gather _ w1) as [[os|msg] w2]; simpl in *;
      by rewrite IH, Hd, <- app_assoc.
Qed.

(** The entry of a name in the map built from the outcomes. *)
Lemma collect_results_lookup (out : string → outcome AgentResult) agent l acc :
  (∀ a r, out a = Ret r → agent_name r = a) →
  dict_get agent
    (foldl (λ agent_results result,
              match result with
              | Ret r => dict_set (agent_name r) r agent_results
              | Raise _ => agent_results
              end) acc (map out l))
  = if decide (agent ∈ l) then
      match out agent with
      | Ret r => Some r
      | Raise _ => dict_get agent acc
      end
    else dict_get agent acc.
Proof.
  intros Hname. revert acc. induction l as [|a l IH]; intros acc.
  - cbn [map foldl]. destruct (decide (agent ∈ [])) as [Hin|]; [|done].
    by apply elem_of_nil in Hin.
  - cbn [map foldl]. rewrite IH. clear IH.
    assert (Hstep : ∀ b, dict_get b
              (match out a with
               | Ret r => dict_set (agent_name r) r acc
               | Raise _ => acc
               end) = if decide (b = a)
                      then match out a with
                           | Ret r => Some r
                           | Raise _ => dict_get b acc
                           end
                      else dict_get b acc).
    { intros b. destruct (out a) as [r|msg] eqn:E.
      - rewrite (Hname a r E). destruct (decide (b = a)) as [->|Hne].
        + apply dict_get_set_eq.
        + apply dict_get_set_ne. congruence.
      - by destruct (decide (b = a)). }
    rewrite Hstep.
    destruct (decide (agent ∈ l)) as [Hin|Hnin];
      destruct (decide (agent = a)) as [->|Hne];
      destruct (decide (_ ∈ _ :: l)) as [Hin'|Hnin']; try done.
    + by destruct (out a).
    + exfalso. apply Hnin'. by apply list_elem_of_further.
    + exfalso. apply Hnin'. by apply list_elem_of_further.
    + exfalso. apply Hnin'. apply list_elem_of_here.
    + apply elem_of_cons in Hin' as [?|?]; done.
Qed.

Lemma run_parallel_analysis_results url request_id session_id w :
  fst (run_parallel_analysis env analysis_agents url request_id session_id w)
  = Ret (collect_results
           (map (settled env analysis_agents url request_id session_id) analysis_agents)).
Proof.
  unfold run_parallel_analysis, bind, tasks.
  pose proof (gather_settles
                (λ agent, _run_agent env analysis_agents agent (prompt_for url agent)
                            (session_id +:+ "_" +:+ agent) request_id)
                analysis_agents w
                (λ b w1 w2, _run_agent_outcome b _ _ _ w1 w2)) as Hg.
  destruct (gather _ w) as [[os|msg] w1]; simpl in *; [|done].
  by injection Hg as ->.
Qed.
End Parallel.

Section ParallelClaims.
Import Orchestrator.

Lemma run_parallel_analysis_returns env analysis_agents url request_id session_id w :
  ∃ w', run_parallel_analysis env analysis_agents url request_id session_id w
        = (Ret (collect_results
                  (map (settled env analysis_agents url request_id session_id)
                       analysis_agents)), w').
Proof.
  pose proof (run_parallel_analysis_results env analysis_agents url request_id
                session_id w) as H.
  destruct (run_parallel_analysis _ _ _ _ _ w) as [o w']. simpl in H. subst o.
  by exists w'.
Qed.

(** C1, counterexample: the capability faults for the security worker
    while the log table is locked; the task of that worker raises from
    its handler, [gather] hands the exception back as a value, and the
    loop over the outcomes leaves the worker out of the map. *)
Lemma unlogged_fault_is_dropped :
  ¬ faults_recorded Scenario.security_down_log_locked Agents.ANALYSIS_AGENTS
      "https://example.com" "3f2a9c1e" "seo_session_3f2a9c1e" initial_world.
Proof.
  intros H.
  destruct (H "security_agent" "503 capability unavailable")
    as (results & w' & r & Hrun & Hget & _).
  - unfold Agents.ANALYSIS_AGENTS. apply list_elem_of_here.
  - reflexivity.
  - vm_compute in Hrun. injection Hrun as <- _. discriminate Hget.
Qed.

(** C1 (amended): the parallel stage never raises; it calls the
    capability once for every configured worker, in order; the entry of
    a worker in the returned map is what that worker's own task ends in
    (absent exactly when the task itself raised), whatever the other
    workers do; every key is a configured name, names its own result,
    and carries a duration that is not negative when the clock does not
    run backwards; and a worker whose invocation faults is recorded as
    failed with the message of the fault whenever the log row for that
    fault is written, and is absent from the map when that log write
    faults. *)
Theorem run_parallel_analysis_isolates env analysis_agents url request_id
    session_id w :
  (∀ agent action, 0 ≤ elapsed_ms env agent action) →
  ∃ results w',
    run_parallel_analysis env analysis_agents url request_id session_id w
      = (Ret results, w') ∧
    dispatched w' =
      dispatched w ++
      map (λ agent, (agent, session_id +:+ "_" +:+ agent, prompt_for url agent))
          analysis_agents ∧
    (∀ agent, agent ∈ analysis_agents →
       dict_get agent results =
         match settled env analysis_agents url request_id session_id agent with
         | Ret r => Some r
         | Raise _ => None
         end) ∧
    (∀ name r, dict_get name results = Some r →
       name ∈ analysis_agents ∧ agent_name r = name ∧ 0 ≤ duration_ms r) ∧
    (∀ agent msg,
       agent ∈ analysis_agents →
       run_async env agent (session_id +:+ "_" +:+ agent) (prompt_for url agent)
         = inr msg →
       db_log_fault env request_id agent "analysis_error" = None →
       dict_get agent results =
         Some {| agent_name := agent; success := false; result := "";
                 duration_ms := elapsed_ms env agent "analysis_error";
                 error := Some msg |}) ∧
    (∀ agent msg fault,
       agent ∈ analysis_agents →
       run_async env agent (session_id +:+ "_" +:+ agent) (prompt_for url agent)
         = inr msg →
       db_log_fault env request_id agent "analysis_error" = Some fault →
       dict_get agent results = None).
Proof.
  intros Hclock.
  destruct (run_parallel_analysis_returns env analysis_agents url request_id
              session_id w) as (w' & Hrun).
  set (out := settled env analysis_agents url request_id session_id) in *.
  assert (Hname : ∀ a r, out a = Ret r → agent_name r = a).
  { intros a r Ha. by apply _run_agent_result in Ha as [? _]. }
  assert (Hlookup : ∀ agent,
             dict_get agent (collect_results (map out analysis_agents)) =
             if decide (agent ∈ analysis_agents) then
               match out agent with Ret r => Some r | Raise _ => None end
             else None).
  { intros agent. unfold collect_results.
    rewrite (collect_results_lookup out agent analysis_agents [] Hname).
    destruct (decide _); [|done]. by destruct (out agent). }
  eexists _, w'. split; [exact Hrun|]. split; [|split; [|split; [|split]]].
  - pose proof (gather_dispatched env analysis_agents url request_id session_id
                  analysis_agents w (λ _ H, H)) as Hd.
    unfold run_parallel_analysis, bind, tasks in Hrun.
    destruct (gather _ w) as [[os|msg] w1]; simpl in *; [|done].
    by injection Hrun as _ <-.
  - intros agent Hin. rewrite Hlookup. by rewrite decide_True.
  - intros name r. rewrite Hlookup.
    destruct (decide (name ∈ analysis_agents)) as [Hin|]; [|done].
    destruct (out name) as [r'|] eqn:E; [|done]. intros [= ->].
    apply _run_agent_result in E as [Hn Hd].
    split; [done|]. split; [done|].
    destruct Hd as [->|[action ->]]; [done|apply Hclock].
  - intros agent msg Hin Hfault Hlog. rewrite Hlookup, decide_True by done.
    unfold out, settled.
    by rewrite (_run_agent_fault env analysis_agents agent _ _ _ msg initial_world
                  (has_runner_configured _ _ Hin) Hfault Hlog).
  - intros agent msg fault Hin Hfault Hlog. rewrite Hlookup, decide_True by done.
    unfold out, settled.
    by rewrite (_run_agent_unlogged_fault env analysis_agents agent _ _ _ msg fault
                  initial_world (has_runner_configured _ _ Hin) Hfault Hlog).
Qed.

(** C1, witness: the security worker faults, the store is up. *)
Lemma run_parallel_analysis_isolates_witness :
  (∀ agent action, 0 ≤ elapsed_ms Scenario.security_down agent action) ∧
  ∃ results w',
    run_parallel_analysis Scenario.security_down Agents.ANALYSIS_AGENTS
      "https://example.com" "3f2a9c1e" "seo_session_3f2a9c1e" initial_world
      = (Ret results, w') ∧
    dict_get "security_agent" results =
      Some {| agent_name := "security_agent"; success := false; result := "";
              duration_ms := 1200;
              error := Some "503 capability unavailable" |}.
Proof.
  assert (Hclock : ∀ agent action, 0 ≤ elapsed_ms Scenario.security_down agent action)
    by (intros; simpl; lia).
  split; [exact Hclock|].
  destruct (run_parallel_analysis_isolates Scenario.security_down
              Agents.ANALYSIS_AGENTS "https://example.com" "3f2a9c1e"
              "seo_session_3f2a9c1e" initial_world Hclock)
    as (results & w' & Hrun & _ & _ & _ & Hfault & _).
  exists results, w'. split; [exact Hrun|].
  apply (Hfault "security_agent" "503 capability unavailable");
    [apply list_elem_of_here|reflexivity|reflexivity].
Defined.
End ParallelClaims.

(* ================================================================== *)
(** * The life of a job *)
(* ================================================================== *)

Section Lifecycle.
Import Orchestrator.
Variable env : Env.
Variable analysis_agents : list string.

Lemma create_analysis_request_spec uuid url d0 :
  hoare (λ d, d = d0) (Database.create_analysis_request env uuid url)
    (λ request_data d,
       let uid := substring 0 8 uuid in
       Database.unique_identifier request_data = uid ∧
       Database.analysis_requests d0 !! uid = None ∧
       db_core d = (<[uid := row_pending url]> (Database.analysis_requests d0),
                    Database.status_writes d0 ++ [(uid, "pending")]))
    (λ _ d, d = d0).
Proof.
  intros d ->. unfold Database.create_analysis_request.
  destruct (db_create_fault env url); [done|].
  by destruct (Database.analysis_requests d0 !! substring 0 8 uuid) eqn:E.
Qed.

Lemma update_request_status_spec uid status doc report_markdown error_message c row :
  c.1 !! uid = Some row →
  hoare (λ d, db_core d = c)
    (Database.update_request_status env uid status doc report_markdown error_message)
    (λ _ d,
       db_core d =
         (<[uid := Database.updated_row row status doc report_markdown error_message]>
            c.1,
          c.2 ++ [(uid, status)]))
    (λ _ d, db_core d = c).
Proof.
  intros Hrow d <-. unfold Database.update_request_status.
  destruct (db_update_fault env uid status); [done|].
  simpl in Hrow. by rewrite Hrow.
Qed.

Lemma update_request_status_commits uid status doc report_markdown error_message
    c row :
  db_update_fault env uid status = None →
  c.1 !! uid = Some row →
  hoare (λ d, db_core d = c)
    (Database.update_request_status env uid status doc report_markdown error_message)
    (λ _ d,
       db_core d =
         (<[uid := Database.updated_row row status doc report_markdown error_message]>
            c.1,
          c.2 ++ [(uid, status)]))
    (λ _ _, False).
Proof.
  intros Hok Hrow d <-. unfold Database.update_request_status.
  rewrite Hok. simpl in Hrow. by rewrite Hrow.
Qed.

(** A statement on the store, seen from the world. *)
Lemma hoare_on_db {A} (m : M Database.DatabaseClient A) pre post exc :
  hoare pre m post exc →
  hoare (λ w, pre (db w)) (on_db m) (λ a w, post a (db w)) (λ msg w, exc msg (db w)).
Proof.
  intros Hm w Hw. unfold on_db, zoom. specialize (Hm (db w) Hw).
  by destruct (m (db w)) as [[a|msg] d'].
Qed.

(** A statement on the world, seen from inside [try]: the local object
    is left as it is. *)
Lemma hoare_on_world {A} (m : M World A) pre post exc (R : SEOAnalysisResult → Prop) :
  hoare pre m post exc →
  hoare (λ s, R (fst s) ∧ pre (snd s)) (on_world m)
    (λ a s, R (fst s) ∧ post a (snd s)) (λ msg s, R (fst s) ∧ exc msg (snd s)).
Proof.
  intros Hm [r w] [Hr Hw]. unfold on_world, zoom. simpl in *.
  specialize (Hm w Hw). by destruct (m w) as [[a|msg] w'].
Qed.

Lemma create_session_db session_id : preserves db (create_session env session_id).
Proof.
  unfold create_session.
  destruct (session_fault _ _); [apply preserves_raise|].
  by apply preserves_modify.
Qed.

Lemma analyze_setup_hoare url w0 :
  hoare (λ w, w = w0) (analyze_setup env analysis_agents url)
    (λ request_id w',
       request_id = job_id env w0 ∧
       Database.analysis_requests (db w0) !! request_id = None ∧
       db_core (db w') =
         (<[request_id := row_analyzing url]> (Database.analysis_requests (db w0)),
          Database.status_writes (db w0) ++
            [(request_id, "pending"); (request_id, "analyzing")]))
    (λ _ w',
       ∃ l, Database.status_writes (db w') = Database.status_writes (db w0) ++ l ∧
            (l = [] ∨ l = [(job_id env w0, "pending")] ∨
             l = [(job_id env w0, "pending"); (job_id env w0, "analyzing")])).
Proof.
  unfold analyze_setup.
  set (rid := job_id env w0).
  set (c1 := (<[rid := row_pending url]> (Database.analysis_requests (db w0)),
              Database.status_writes (db w0) ++ [(rid, "pending")])).
  set (c2 := (<[rid := row_analyzing url]> (Database.analysis_requests (db w0)),
              Database.status_writes (db w0) ++
                [(rid, "pending"); (rid, "analyzing")])).
  set (fresh := Database.analysis_requests (db w0) !! rid = None).
  apply hoare_bind with (mid := λ uuid w, uuid = uuid4 env (draws w0) ∧ db w = db w0).
  { by intros w ->. }
  intros uuid.
  apply hoare_bind with
    (mid := λ rd w, Database.unique_identifier rd = rid ∧ fresh ∧ db_core (db w) = c1).
  { apply hoare_assume. intros ->.
    eapply hoare_consequence;
      [apply hoare_on_db, (create_analysis_request_spec _ url (db w0))| | |].
    - done.
    - by intros rd w H.
    - intros msg w Hdb. simpl in *. exists []. rewrite app_nil_r, Hdb. auto. }
  intros rd.
  apply hoare_bind with (mid := λ _ w, Database.unique_identifier rd = rid ∧ fresh
                                       ∧ db_core (db w) = c2).
  { intros w (Hrd & Hfresh & Hc1). rewrite Hrd.
    pose proof (hoare_on_db _ _ _ _
                  (update_request_status_spec rid "analyzing" None None None c1
                     (row_pending url) (lookup_insert_eq _ _ _)) w Hc1) as Hu.
    destruct (on_db _ w) as [[a|msg] w']; simpl in *.
    - split; [done|]. split; [done|]. rewrite Hu. unfold c1, c2. simpl.
      rewrite insert_insert_eq. by rewrite <- app_assoc.
    - exists [(rid, "pending")]. split; [|auto].
      unfold db_core in Hu. by injection Hu as _ ->. }
  intros _.
  assert (Hexc : ∀ w, db_core (db w) = c2 →
                      ∃ l, Database.status_writes (db w) =
                             Database.status_writes (db w0) ++ l ∧
                           (l = [] ∨ l = [(rid, "pending")] ∨
                            l = [(rid, "pending"); (rid, "analyzing")])).
  { intros w Hc2. exists [(rid, "pending"); (rid, "analyzing")].
    split; [|auto]. unfold db_core in Hc2. by injection Hc2 as _ ->. }
  set (inv := λ w : World, Database.unique_identifier rd = rid ∧ fresh
                           ∧ db_core (db w) = c2).
  assert (Hsession : ∀ session_id,
             hoare inv (create_session env session_id) (λ _, inv)
               (λ _ w, ∃ l, Database.status_writes (db w) =
                              Database.status_writes (db w0) ++ l ∧
                            (l = [] ∨ l = [(rid, "pending")] ∨
                             l = [(rid, "pending"); (rid, "analyzing")]))).
  { intros session_id w (Hrd & Hfresh & Hc2).
    pose proof (create_session_db session_id w) as Hdb.
    destruct (create_session env session_id w) as [[a|msg] w']; simpl in *;
      rewrite <- Hdb in Hc2; [done|by apply Hexc]. }
  apply hoare_bind with (mid := λ _, inv).
  { apply hoare_for_each. intros agent. apply Hsession. }
  intros _. apply hoare_bind with (mid := λ _, inv); [apply Hsession|].
  intros _ w (Hrd & Hfresh & Hc2). simpl. by rewrite Hrd.
Qed.

(** With the store and the session service up, the setup returns. *)
Lemma analyze_setup_returns url w :
  db_create_fault env url = None →
  Database.analysis_requests (db w) !! job_id env w = None →
  db_update_fault env (job_id env w) "analyzing" = None →
  (∀ session_id, session_fault env session_id = None) →
  ∃ w', analyze_setup env analysis_agents url w = (Ret (job_id env w), w').
Proof.
  intros Hcreate Hfresh Hupdate Hsession.
  unfold analyze_setup.
  unfold bind at 1. unfold fresh_uuid at 1. cbn beta iota.
  unfold bind at 1. unfold on_db at 1, zoom, Database.create_analysis_request.
  fold (job_id env w). rewrite Hcreate. simpl. rewrite Hfresh. simpl.
  unfold bind at 1. unfold on_db at 1, zoom, Database.update_request_status.
  rewrite Hupdate. simpl. rewrite lookup_insert_eq.
  match goal with |- ∃ w', (_ ;; ?k) ?s = _ => generalize s end.
  assert (Hs : ∀ session_id w1,
             ∃ w2, create_session env session_id w1 = (Ret tt, w2)).
  { intros session_id w1. unfold create_session. rewrite Hsession. by eexists. }
  intros w1. unfold bind at 1.
  assert (∃ w2, for_each analysis_agents
                  (λ agent, create_session env
                              (("seo_session_" +:+ job_id env w) +:+ "_" +:+ agent)) w1
                = (Ret tt, w2)) as [w2 ->].
  { generalize w1. induction analysis_agents as [|agent l IH]; intros w1'; simpl.
    - by eexists.
    - unfold bind. destruct (Hs (("seo_session_" +:+ job_id env w) +:+ "_" +:+ agent) w1')
        as [w2 ->]. apply IH. }
  unfold bind.
  destruct (Hs (("seo_session_" +:+ job_id env w) +:+ "_report_agent") w2) as [w3 ->].
  by eexists.
Qed.

(** Inside [try], everything before the last statement leaves the rows
    and their status history alone. *)
Lemma on_world_core {A} (m : M World A) :
  preserves quiet m → preserves core (on_world m).
Proof.
  intros Hm. apply (on_world_preserves (λ w, db_core (db w))). by apply quiet_core.
Qed.

Lemma hoare_core {A} (m : M (SEOAnalysisResult * World) A) c :
  preserves core m →
  hoare (λ s, core s = c) m (λ _ s, core s = c) (λ _ s, core s = c).
Proof. intros Hm. apply (hoare_preserves core m (λ x, x = c) Hm). Qed.

Lemma record_report_spec report_result agent_results url request_id c :
  hoare (λ s, core s = c)
    (record_report env report_result agent_results url request_id)
    (λ _ s, core s = c ∧
            (status (fst s) = "completed" ∧ success report_result = true ∨
             status (fst s) = "partial" ∧ success report_result = false ∧
             final_report (fst s) = Some report_failed_text))
    (λ _ s, core s = c).
Proof.
  intros [r w] Hc. unfold record_report.
  unfold bind, assign, modify, analysis_result, raise, ret.
  destruct (success report_result); simpl; [|by auto 6].
  destruct (collect_scores _) as [scores|msg]; [|done].
  destruct scores as [|score scores]; simpl;
    destruct (generate_report_pdf _ _ _ _ _) as [[path|]|msg]; simpl; auto;
    destruct (Py.truthy_str path); simpl; auto.
Qed.

Lemma store_results_spec request_id c row (R : SEOAnalysisResult → Prop) :
  c.1 !! request_id = Some row →
  (∀ r v, R r → R (set_total_duration_ms v r)) →
  hoare (λ s, core s = c ∧ R (fst s))
    (store_results env request_id)
    (λ _ s,
       R (fst s) ∧
       core s =
         (<[request_id :=
              Database.updated_row row (status (fst s)) (Some (analysis_doc (fst s)))
                (final_report (fst s)) None]> c.1,
          c.2 ++ [(request_id, status (fst s))]))
    (λ _ s, core s = c).
Proof.
  intros Hrow HR [r w] [Hc Hr]. unfold store_results.
  unfold bind at 1. unfold assign at 1, modify. cbn beta iota.
  unfold bind at 1. unfold analysis_result at 1. cbn beta iota. cbn [fst].
  set (r' := set_total_duration_ms (total_elapsed_ms env) r).
  pose proof (hoare_on_world _ _ _ _ (λ x, x = r')
                (hoare_on_db _ _ _ _
                   (update_request_status_spec request_id (status r')
                      (Some (analysis_doc r')) (final_report r') None c row Hrow))
                (r', w) (conj eq_refl Hc)) as Hu.
  unfold bind.
  destruct (on_world _ (r', w)) as [[a|msg] [r2 w2]]; simpl in *.
  - destruct Hu as [-> Hu]. split; [by apply HR|done].
  - by destruct Hu as [_ Hu].
Qed.

Lemma store_results_commits request_id c row (R : SEOAnalysisResult → Prop) :
  c.1 !! request_id = Some row →
  (∀ r v, R r → R (set_total_duration_ms v r)) →
  (∀ r, R r → db_update_fault env request_id (status r) = None) →
  hoare (λ s, core s = c ∧ R (fst s))
    (store_results env request_id)
    (λ _ s,
       R (fst s) ∧
       core s =
         (<[request_id :=
              Database.updated_row row (status (fst s)) (Some (analysis_doc (fst s)))
                (final_report (fst s)) None]> c.1,
          c.2 ++ [(request_id, status (fst s))]))
    (λ _ _, False).
Proof.
  intros Hrow HR Hok [r w] [Hc Hr]. unfold store_results.
  unfold bind at 1. unfold assign at 1, modify. cbn beta iota.
  unfold bind at 1. unfold analysis_result at 1. cbn beta iota. cbn [fst].
  set (r' := set_total_duration_ms (total_elapsed_ms env) r).
  assert (Hok' : db_update_fault env request_id (status r') = None)
    by apply Hok, HR, Hr.
  pose proof (hoare_on_world _ _ _ _ (λ x, x = r')
                (hoare_on_db _ _ _ _
                   (update_request_status_commits request_id (status r')
                      (Some (analysis_doc r')) (final_report r') None c row Hok' Hrow))
                (r', w) (conj eq_refl Hc)) as Hu.
  unfold bind.
  destruct (on_world _ (r', w)) as [[a|msg] [r2 w2]]; simpl in *.
  - destruct Hu as [-> Hu]. split; [by apply HR|done].
  - by destruct Hu as [_ Hu].
Qed.

(** The body of [try]: when it returns, the last thing it did was to
    write the final status [completed] or [partial]; when it raises,
    the rows and their history are as they were. *)
Lemma analyze_try_spec url request_id session_id c row :
  c.1 !! request_id = Some row →
  hoare (λ s, core s = c)
    (analyze_try env analysis_agents url request_id session_id)
    (λ _ s,
       (status (fst s) = "completed" ∨ status (fst s) = "partial") ∧
       core s =
         (<[request_id :=
              Database.updated_row row (status (fst s)) (Some (analysis_doc (fst s)))
                (final_report (fst s)) None]> c.1,
          c.2 ++ [(request_id, status (fst s))]))
    (λ _ s, core s = c).
Proof.
  intros Hrow. unfold analyze_try.
  apply hoare_bind with (mid := λ _ s, core s = c).
  { apply hoare_core, on_world_core, on_db_quiet, log_agent_action_core. }
  intros ?. apply hoare_bind with (mid := λ _ s, core s = c).
  { apply hoare_core, on_world_core, run_parallel_analysis_quiet. }
  intros agent_results. apply hoare_bind with (mid := λ _ s, core s = c).
  { apply hoare_core. by intros [r w]. }
  intros ?. apply hoare_bind with (mid := λ _ s, core s = c).
  { apply hoare_core, on_world_core, on_db_quiet, log_agent_action_core. }
  intros ?. apply hoare_bind with (mid := λ _ s, core s = c).
  { apply hoare_core, on_world_core, generate_report_quiet. }
  intros report_result.
  eapply hoare_bind; [apply record_report_spec|].
  intros ?.
  eapply hoare_consequence;
    [apply (store_results_spec request_id c row
              (λ r, status r = "completed" ∨ status r = "partial") Hrow)| | |].
  - by intros r v.
  - intros s [Hc [[? _]|[? _]]]; auto.
  - done.
  - done.
Qed.

(** The handler: it writes the status [failed] with the message, or
    faults on that write and leaves the rows as they were. *)
Lemma analyze_except_spec request_id error_msg c row :
  c.1 !! request_id = Some row →
  hoare (λ s, core s = c)
    (analyze_except env request_id error_msg)
    (λ _ s,
       status (fst s) = "failed" ∧
       core s =
         (<[request_id :=
              Database.updated_row row "failed" None None (Some error_msg)]> c.1,
          c.2 ++ [(request_id, "failed")]))
    (λ _ s, db_update_fault env request_id "failed" ≠ None ∧ core s = c).
Proof.
  intros Hrow [r w] Hc. unfold analyze_except.
  unfold bind, assign, modify, on_world, on_db, zoom. simpl.
  unfold Database.update_request_status.
  destruct (db_update_fault env request_id "failed") eqn:Hf; simpl; [done|].
  unfold core in Hc. simpl in Hc. rewrite <- Hc in Hrow. simpl in Hrow.
  rewrite Hrow. simpl. split; [done|]. by rewrite <- Hc.
Qed.

(** The whole entry point, from any store. *)
Lemma analyze_website_spec url w0 :
  hoare (λ w, w = w0) (analyze_website env analysis_agents url)
    (λ r w',
       terminal (status r) ∧
       Database.status <$> (Database.analysis_requests (db w') !! job_id env w0)
         = Some (status r) ∧
       Database.status_writes (db w') =
         Database.status_writes (db w0) ++
           [(job_id env w0, "pending"); (job_id env w0, "analyzing");
            (job_id env w0, status r)])
    (λ _ w',
       ∃ l, Database.status_writes (db w') = Database.status_writes (db w0) ++ l ∧
            (l = [] ∨ l = [(job_id env w0, "pending")] ∨
             l = [(job_id env w0, "pending"); (job_id env w0, "analyzing")])).
Proof.
  unfold analyze_website.
  eapply hoare_bind; [apply analyze_setup_hoare|].
  intros request_id. apply hoare_assume. intros ->. apply hoare_assume. intros Hfresh.
  set (rid := job_id env w0) in *.
  set (c := (<[rid := row_analyzing url]> (Database.analysis_requests (db w0)),
             Database.status_writes (db w0) ++ [(rid, "pending"); (rid, "analyzing")])).
  assert (Hrow : c.1 !! rid = Some (row_analyzing url)) by apply lookup_insert_eq.
  intros w Hc. unfold with_local.
  pose proof (hoare_try_except (λ _ s, core s = c) (λ s, core s = c)
                (analyze_try env analysis_agents url rid ("seo_session_" +:+ rid))
                (analyze_except env rid)
                (λ _ s, terminal (status (fst s)) ∧
                        Database.status <$> ((core s).1 !! rid) = Some (status (fst s)) ∧
                        (core s).2 = c.2 ++ [(rid, status (fst s))])
                (λ _ s, core s = c)) as Htry.
  specialize (Htry ltac:(
    eapply hoare_consequence; [apply (analyze_try_spec _ _ _ c _ Hrow)|done| |done];
    intros _ s [Hs ->]; simpl; rewrite lookup_insert_eq; simpl;
    split; [destruct Hs; unfold terminal; auto|done])).
  specialize (Htry ltac:(
    intros msg;
    eapply hoare_consequence; [apply (analyze_except_spec _ msg c _ Hrow)|done| |];
    [intros _ s [Hs ->]; simpl; rewrite lookup_insert_eq; simpl; rewrite Hs;
     split; [unfold terminal; auto|done]
    |by intros _ s [_ ?]])).
  specialize (Htry (new_result url rid, w) Hc).
  destruct (try_except _ _ (new_result url rid, w)) as [[a|msg] [r w']];
    simpl in *.
  - destruct Htry as (Ht & Hst & Hw). split; [done|]. split; [done|].
    unfold core in Hw. simpl in Hw. rewrite Hw. unfold c. simpl.
    by rewrite <- app_assoc.
  - exists [(rid, "pending"); (rid, "analyzing")]. split; [|auto].
    unfold core, db_core in Htry. simpl in Htry. by injection Htry as _ ->.
Qed.

(** The synthesis stage faults while the store is up: the body of
    [try] returns with the job degraded to [partial]. *)
Lemma analyze_try_synthesis_fault url request_id session_id c row msg :
  c.1 !! request_id = Some row →
  db_log_fault env request_id "orchestrator" "parallel_analysis_start" = None →
  db_log_fault env request_id "orchestrator" "report_generation_start" = None →
  (∀ prompt, run_async env "report_agent" (session_id +:+ "_report_agent") prompt
             = inr msg) →
  db_log_fault env request_id "report_agent" "analysis_error" = None →
  db_update_fault env request_id "partial" = None →
  hoare (λ s, core s = c)
    (analyze_try env analysis_agents url request_id session_id)
    (λ _ s,
       (status (fst s) = "partial" ∧ final_report (fst s) = Some report_failed_text) ∧
       core s =
         (<[request_id :=
              Database.updated_row row (status (fst s)) (Some (analysis_doc (fst s)))
                (final_report (fst s)) None]> c.1,
          c.2 ++ [(request_id, status (fst s))]))
    (λ _ _, False).
Proof.
  intros Hrow Hlog1 Hlog2 Hreport Hlog3 Hupdate. unfold analyze_try.
  assert (Hlog : ∀ action details duration,
             db_log_fault env request_id "orchestrator" action = None →
             hoare (λ s, core s = c)
               (on_world (on_db (Database.log_agent_action env request_id
                                   "orchestrator" action details duration)))
               (λ _ s, core s = c) (λ _ _, False)).
  { intros action details duration Hok.
    eapply hoare_consequence;
      [apply (hoare_total core _ (λ x, x = c) (λ _, True))| | |].
    - apply on_world_core, on_db_quiet, log_agent_action_core.
    - intros [r w]. unfold on_world, on_db, zoom, Database.log_agent_action.
      rewrite Hok. simpl. by eexists.
    - done.
    - by intros ? ? [? _].
    - done. }
  apply hoare_bind with (mid := λ _ s, core s = c); [by apply Hlog|].
  intros ?. apply hoare_bind with (mid := λ _ s, core s = c).
  { eapply hoare_consequence;
      [apply (hoare_total core _ (λ x, x = c) (λ _, True))| | |].
    - apply on_world_core, run_parallel_analysis_quiet.
    - intros [r w]. unfold on_world, zoom. simpl.
      destruct (run_parallel_analysis_returns env analysis_agents url request_id
                  session_id w) as (w' & ->). by eexists.
    - done.
    - by intros ? ? [? _].
    - done. }
  intros agent_results. apply hoare_bind with (mid := λ _ s, core s = c).
  { by intros [r w]. }
  intros ?. apply hoare_bind with (mid := λ _ s, core s = c); [by apply Hlog|].
  intros ?.
  apply hoare_bind with (mid := λ report_result s,
                                  core s = c ∧ success report_result = false).
  { apply (hoare_total core _ (λ x, x = c) (λ r, success r = false)).
    - apply on_world_core, generate_report_quiet.
    - intros [r w]. unfold on_world, zoom, generate_report. simpl.
      pose proof (_run_agent_fault env analysis_agents "report_agent"
                    (report_prompt url agent_results)
                    (session_id +:+ "_report_agent") request_id msg w
                    (has_runner_report analysis_agents) (Hreport _) Hlog3) as Hf.
      destruct (_run_agent _ _ _ _ _ _ w) as [o w']. simpl in *. subst o.
      by eexists. }
  intros report_result.
  apply hoare_bind with
    (mid := λ _ s, core s = c ∧
                   (status (fst s) = "partial" ∧
                    final_report (fst s) = Some report_failed_text)).
  { intros [r w] [Hc Hs]. unfold record_report. rewrite Hs.
    unfold bind, assign, modify. by simpl. }
  intros ?.
  apply (store_results_commits request_id c row
           (λ r, status r = "partial" ∧ final_report r = Some report_failed_text) Hrow).
  - by intros r v.
  - by intros r [-> _].
Qed.
End Lifecycle.

(* ================================================================== *)
(** * The entry point *)
(* ================================================================== *)

Section EntryPoint.
Import Orchestrator.

(** C2, counterexample: with the store unavailable the very first
    statement, which creates the job, faults before [try] is entered,
    and the call raises. *)
Lemma store_down_raises :
  ¬ always_returns Scenario.store_down Agents.ANALYSIS_AGENTS "https://example.com"
      initial_world.
Proof. intros [r Hr]. vm_compute in Hr. discriminate Hr. Qed.

(** C2 (amended): once the job has been created and set to analysing
    and its sessions exist, and provided the store accepts the write of
    the status [failed], the entry point returns a result record; a
    fault raised inside the guarded block ends in status [failed], in
    the record and in the row, the row holding the message of the
    fault as it was raised (an empty message is not stored); otherwise
    the status is [completed] or [partial]. *)
Theorem analyze_website_guarded env analysis_agents url w :
  db_create_fault env url = None →
  Database.analysis_requests (db w) !! job_id env w = None →
  db_update_fault env (job_id env w) "analyzing" = None →
  (∀ session_id, session_fault env session_id = None) →
  db_update_fault env (job_id env w) "failed" = None →
  ∃ w1 r w',
    analyze_setup env analysis_agents url w = (Ret (job_id env w), w1) ∧
    analyze_website env analysis_agents url w = (Ret r, w') ∧
    Database.status <$> (Database.analysis_requests (db w') !! job_id env w)
      = Some (status r) ∧
    match analyze_try env analysis_agents url (job_id env w)
            ("seo_session_" +:+ job_id env w) (new_result url (job_id env w), w1) with
    | (Ret _, _) => status r = "completed" ∨ status r = "partial"
    | (Raise msg, _) =>
        status r = "failed" ∧
        Database.error_message <$>
          (Database.analysis_requests (db w') !! job_id env w)
          = Some (if Py.truthy_str msg then Some msg else None)
    end.
Proof.
  intros Hcreate Hfresh Hupdate Hsession Hfailed.
  destruct (analyze_setup_returns env analysis_agents url w Hcreate Hfresh Hupdate
              Hsession) as [w1 Hsetup].
  pose proof (analyze_setup_hoare env analysis_agents url w w eq_refl) as Hs.
  rewrite Hsetup in Hs. destruct Hs as (_ & _ & Hc).
  set (rid := job_id env w) in *.
  set (c := db_core (db w1)) in *.
  assert (Hrow : c.1 !! rid = Some (row_analyzing url)).
  { rewrite Hc. apply lookup_insert_eq. }
  exists w1. unfold analyze_website, bind. rewrite Hsetup.
  unfold with_local, try_except.
  pose proof (analyze_try_spec env analysis_agents url rid ("seo_session_" +:+ rid)
                c (row_analyzing url) Hrow (new_result url rid, w1) eq_refl) as Htry.
  destruct (analyze_try _ _ _ _ _ _) as [[[]|msg] [r1 w2]]; simpl in Htry.
  - exists r1, w2. split; [done|]. split; [done|].
    destruct Htry as [Hst Hcore]. unfold core in Hcore. simpl in Hcore.
    split; [|done].
    unfold db_core in Hcore. injection Hcore as -> _.
    by rewrite lookup_insert_eq.
  - pose proof (analyze_except_spec env rid msg c (row_analyzing url) Hrow (r1, w2)
                  Htry) as Hexc.
    destruct (analyze_except _ _ _ _) as [[[]|msg'] [r2 w3]]; simpl in Hexc.
    + exists r2, w3. split; [done|]. split; [done|].
      destruct Hexc as [Hst Hcore]. unfold core in Hcore. simpl in Hcore.
      unfold db_core in Hcore. injection Hcore as -> _.
      rewrite lookup_insert_eq. simpl. rewrite Hst.
      split; [done|]. split; [done|].
      by destruct (Py.truthy_str msg).
    + by destruct Hexc as [? _].
Qed.

(** C2, witness: the first log write of the guarded block faults. *)
Lemma analyze_website_guarded_witness :
  (db_create_fault Scenario.first_log_fails "https://example.com" = None ∧
   Database.analysis_requests (db initial_world)
     !! job_id Scenario.first_log_fails initial_world = None ∧
   db_update_fault Scenario.first_log_fails
     (job_id Scenario.first_log_fails initial_world) "analyzing" = None ∧
   (∀ session_id, session_fault Scenario.first_log_fails session_id = None) ∧
   db_update_fault Scenario.first_log_fails
     (job_id Scenario.first_log_fails initial_world) "failed" = None) ∧
  ∃ r w',
    analyze_website Scenario.first_log_fails Agents.ANALYSIS_AGENTS
      "https://example.com" initial_world = (Ret r, w') ∧
    status r = "failed" ∧
    Database.error_message <$> (Database.analysis_requests (db w') !! "3f2a9c1e")
      = Some (Some "database is locked").
Proof.
  assert (H1 : db_create_fault Scenario.first_log_fails "https://example.com" = None)
    by reflexivity.
  assert (H2 : Database.analysis_requests (db initial_world)
                 !! job_id Scenario.first_log_fails initial_world = None)
    by reflexivity.
  assert (H3 : db_update_fault Scenario.first_log_fails
                 (job_id Scenario.first_log_fails initial_world) "analyzing" = None)
    by reflexivity.
  assert (H4 : ∀ session_id, session_fault Scenario.first_log_fails session_id = None)
    by reflexivity.
  assert (H5 : db_update_fault Scenario.first_log_fails
                 (job_id Scenario.first_log_fails initial_world) "failed" = None)
    by reflexivity.
  split; [done|].
  destruct (analyze_website_guarded Scenario.first_log_fails Agents.ANALYSIS_AGENTS
              "https://example.com" initial_world H1 H2 H3 H4 H5)
    as (w1 & r & w' & Hsetup & Hrun & _ & Htry).
  exists r, w'. split; [exact Hrun|].
  vm_compute in Hsetup. injection Hsetup as <-.
  vm_compute in Htry. exact Htry.
Defined.

(** C3, counterexample: the store stops accepting writes of the row
    once the job is analysing; the final write faults, the write of
    [failed] in the handler faults too, the call raises, and the job
    stays [analyzing]. *)
Lemma stalled_job_stays_analyzing :
  ¬ lifecycle_complete
      (Database.status_writes
         (db (snd (analyze_website Scenario.terminal_writes_fail
                     Agents.ANALYSIS_AGENTS "https://example.com" initial_world))))
      "3f2a9c1e".
Proof. intros (t & _ & H). vm_compute in H. discriminate H. Qed.

(** C3 (amended): the status writes of a job are a prefix of
    [pending], [analyzing], one terminal status, in that order and each
    at most once; a run that returns has written all three, the last
    being the status of the returned record and of the row; a run that
    raises has stopped before any terminal status was written.  So
    nothing is written after a terminal status. *)
Theorem status_is_monotonic env analysis_agents url w :
  match analyze_website env analysis_agents url w with
  | (Ret r, w') =>
      terminal (status r) ∧
      Database.status <$> (Database.analysis_requests (db w') !! job_id env w)
        = Some (status r) ∧
      Database.status_writes (db w') =
        Database.status_writes (db w) ++
          [(job_id env w, "pending"); (job_id env w, "analyzing");
           (job_id env w, status r)]
  | (Raise _, w') =>
      ∃ l, Database.status_writes (db w') = Database.status_writes (db w) ++ l ∧
           (l = [] ∨ l = [(job_id env w, "pending")] ∨
            l = [(job_id env w, "pending"); (job_id env w, "analyzing")])
  end.
Proof. exact (analyze_website_spec env analysis_agents url w w eq_refl). Qed.

(** C7: with the job created and the store up, a fault of the report
    stage is absorbed: the entry point returns, the record and the row
    have status [partial], and both hold the placeholder report. *)
Theorem synthesis_fault_degrades env analysis_agents url w msg :
  db_create_fault env url = None →
  Database.analysis_requests (db w) !! job_id env w = None →
  db_update_fault env (job_id env w) "analyzing" = None →
  (∀ session_id, session_fault env session_id = None) →
  db_log_fault env (job_id env w) "orchestrator" "parallel_analysis_start" = None →
  db_log_fault env (job_id env w) "orchestrator" "report_generation_start" = None →
  (∀ prompt, run_async env "report_agent"
               (("seo_session_" +:+ job_id env w) +:+ "_report_agent") prompt
             = inr msg) →
  db_log_fault env (job_id env w) "report_agent" "analysis_error" = None →
  db_update_fault env (job_id env w) "partial" = None →
  ∃ r w',
    analyze_website env analysis_agents url w = (Ret r, w') ∧
    status r = "partial" ∧
    final_report r = Some report_failed_text ∧
    Database.status <$> (Database.analysis_requests (db w') !! job_id env w)
      = Some "partial" ∧
    Database.report_markdown <$> (Database.analysis_requests (db w') !! job_id env w)
      = Some (Some report_failed_text).
Proof.
  intros Hcreate Hfresh Hupdate Hsession Hlog1 Hlog2 Hreport Hlog3 Hpartial.
  destruct (analyze_setup_returns env analysis_agents url w Hcreate Hfresh Hupdate
              Hsession) as [w1 Hsetup].
  pose proof (analyze_setup_hoare env analysis_agents url w w eq_refl) as Hs.
  rewrite Hsetup in Hs. destruct Hs as (_ & _ & Hc).
  set (rid := job_id env w) in *.
  set (c := db_core (db w1)) in *.
  assert (Hrow : c.1 !! rid = Some (row_analyzing url)).
  { rewrite Hc. apply lookup_insert_eq. }
  unfold analyze_website, bind. rewrite Hsetup.
  unfold with_local, try_except.
  pose proof (analyze_try_synthesis_fault env analysis_agents url rid
                ("seo_session_" +:+ rid) c (row_analyzing url) msg Hrow Hlog1 Hlog2
                Hreport Hlog3 Hpartial (new_result url rid, w1) eq_refl) as Htry.
  destruct (analyze_try _ _ _ _ _ _) as [[[]|msg'] [r1 w2]]; simpl in Htry; [|done].
  destruct Htry as [[Hst Hrep] Hcore].
  exists r1, w2. split; [done|]. split; [done|]. split; [done|].
  unfold core in Hcore. simpl in Hcore. unfold db_core in Hcore.
  injection Hcore as -> _. rewrite lookup_insert_eq. simpl.
  by rewrite Hst, Hrep.
Qed.

(** C7, witness: the capability refuses the report agent. *)
Lemma synthesis_fault_degrades_witness :
  ∃ r w',
    analyze_website Scenario.report_down Agents.ANALYSIS_AGENTS
      "https://example.com" initial_world = (Ret r, w') ∧
    status r = "partial" ∧
    final_report r = Some report_failed_text ∧
    Database.status <$> (Database.analysis_requests (db w') !! "3f2a9c1e")
      = Some "partial" ∧
    Database.report_markdown <$> (Database.analysis_requests (db w') !! "3f2a9c1e")
      = Some (Some report_failed_text).
Proof.
  apply (synthesis_fault_degrades Scenario.report_down Agents.ANALYSIS_AGENTS
           "https://example.com" initial_world "429 quota exceeded");
    reflexivity.
Defined.
End EntryPoint.

(* ================================================================== *)
(** * The background task of the API *)
(* ================================================================== *)

Section BackgroundTask.
Import Store Server.
Variable env : Env.

Lemma outer_store {A} (m : M World A) : preserves outer m → preserves analysis_store m.
Proof. apply (preserves_weaken outer analysis_store snd). by intros w. Qed.

Lemma outer_observability {A} (m : M World A) :
  preserves outer m → preserves observability m.
Proof. apply (preserves_weaken outer observability fst). by intros w. Qed.

Lemma timestamp_quiet : preserves outer (timestamp env).
Proof. by intros w. Qed.

Lemma store_set_observability request_id key v :
  preserves observability (store_set request_id key v).
Proof. intros w. unfold store_set. by destruct (analysis_store w !! request_id). Qed.

Lemma store_agents_preserves {X} (f : World → X) request_id :
  preserves f (store_agents request_id).
Proof.
  intros w. unfold store_agents.
  destruct (analysis_store w !! request_id) as [analysis|]; [|done].
  by destruct (analysis !! "agents") as [[]|].
Qed.

Lemma agent_set_observability request_id agent_name st :
  preserves observability (agent_set request_id agent_name st).
Proof.
  apply preserves_bind; [apply store_agents_preserves|].
  intros. apply store_set_observability.
Qed.

Lemma agent_alter_observability request_id agent_name f :
  preserves observability (agent_alter request_id agent_name f).
Proof.
  apply preserves_bind; [apply store_agents_preserves|]. intros agents.
  destruct (dict_get _ _); [apply store_set_observability|apply preserves_raise].
Qed.

Lemma store_update_observability request_id items :
  preserves observability (store_update request_id items).
Proof.
  apply preserves_for_each. intros [key v]. apply store_set_observability.
Qed.

Lemma server_run_analysis_observability request_id url name email :
  preserves observability (run_analysis env request_id url name email).
Proof.
  unfold run_analysis.
  repeat first
    [ apply store_set_observability | apply store_update_observability
    | apply agent_set_observability | apply agent_alter_observability
    | apply outer_observability, timestamp_quiet
    | apply outer_observability, SEOOrchestrator_init_outer
    | apply outer_observability, analyze_website_outer
    | preserves_step ].
Qed.

Lemma main_run_analysis_observability url verbose :
  preserves observability (Main.run_analysis env url verbose).
Proof.
  unfold Main.run_analysis.
  destruct (GOOGLE_API_KEY env) as [key|]; [|apply preserves_raise].
  destruct (negb _); [apply preserves_raise|].
  apply preserves_bind.
  - apply outer_observability, SEOOrchestrator_init_outer.
  - intros. apply outer_observability, analyze_website_outer.
Qed.
End BackgroundTask.

(** C8: no run opens or closes a trace or records a span.  The entry
    point of the pipeline, the command-line run and the background task
    of the API all leave the tracer, the metrics and the trace filter of
    the observability module exactly as they found them: the module's
    [log_analysis_start], [log_analysis_complete] and [span] are never
    called on these paths. *)
Theorem runs_leave_tracer_untouched env analysis_agents url verbose request_id name
    email w :
  observability (snd (Orchestrator.analyze_website env analysis_agents url w))
    = observability w ∧
  observability (snd (Main.run_analysis env url verbose w)) = observability w ∧
  observability (snd (Server.run_analysis env request_id url name email w))
    = observability w.
Proof.
  split; [|split].
  - apply outer_observability, analyze_website_outer.
  - apply main_run_analysis_observability.
  - apply server_run_analysis_observability.
Qed.

(** What a bracketed run would record: [log_analysis_start] opens one
    trace and [log_analysis_complete] closes it. *)
Lemma log_analysis_brackets_one_trace env url request_id total_duration_ms status g :
  let g1 := snd (Observability.log_analysis_start env url request_id g) in
  let g2 := snd (Observability.log_analysis_complete request_id total_duration_ms
                   status g1) in
  Observability._trace_id_counter (Observability.tracer g1)
    = S (Observability._trace_id_counter (Observability.tracer g)) ∧
  is_Some (Observability._current_trace_id (Observability.tracer g1)) ∧
  Observability._trace_id_counter (Observability.tracer g2)
    = S (Observability._trace_id_counter (Observability.tracer g)) ∧
  Observability._current_trace_id (Observability.tracer g2) = None.
Proof. simpl. by eauto. Qed.

(** The command-line run on a healthy system: six calls reach the
    capability, and the tracer has counted no trace and holds no span. *)
Lemma healthy_run_has_no_trace :
  let w := snd (Main.run_analysis Scenario.healthy "https://example.com" false
                  initial_world) in
  length (dispatched w) = 6%nat ∧
  Observability._trace_id_counter (Observability.tracer (observability w)) = 0%nat ∧
  Observability.spans (Observability.tracer (observability w)) = [].
Proof. by vm_compute. Qed.

Section Results.
Import Store Server.
Variable env : Env.

Lemma running_recorded request_id w : running request_id w → recorded request_id w.
Proof. intros (analysis & H & _). by exists analysis. Qed.

Lemma store_set_spec request_id key v analysis :
  hoare (λ w, analysis_store w !! request_id = Some analysis)
    (store_set request_id key v)
    (λ _ w, analysis_store w !! request_id = Some (<[key := v]> analysis))
    (λ _ _, False).
Proof.
  intros w Hw. unfold store_set. rewrite Hw. simpl. apply lookup_insert_eq.
Qed.

Lemma store_update_spec request_id items analysis :
  hoare (λ w, analysis_store w !! request_id = Some analysis)
    (store_update request_id items)
    (λ _ w, analysis_store w !! request_id
            = Some (foldl (λ acc kv, <[kv.1 := kv.2]> acc) analysis items))
    (λ _ _, False).
Proof.
  unfold store_update. revert analysis.
  induction items as [|[key v] items IH]; intros analysis; simpl.
  - by intros w.
  - eapply hoare_bind; [apply store_set_spec|]. intros []. apply IH.
Qed.

(** A step that leaves [analysis_store] alone. *)
Lemma hoare_running {A} request_id (m : M World A) :
  preserves analysis_store m →
  hoare (running request_id) m (λ _, running request_id) (λ _, recorded request_id).
Proof.
  intros Hm. eapply hoare_consequence;
    [apply (hoare_preserves analysis_store m
              (λ st, ∃ analysis, st !! request_id = Some analysis ∧
                                 analysis !! "status" = Some (VStr "running")) Hm)
    |done|done|].
  intros ? w. apply running_recorded.
Qed.

Lemma store_set_running request_id key v :
  key ≠ "status" →
  hoare (running request_id) (store_set request_id key v)
    (λ _, running request_id) (λ _, recorded request_id).
Proof.
  intros Hkey w (analysis & Hw & Hst). unfold store_set. rewrite Hw. simpl.
  exists (<[key := v]> analysis). split; [apply lookup_insert_eq|].
  by rewrite lookup_insert_ne.
Qed.

Lemma agent_set_running request_id agent_name st :
  hoare (running request_id) (agent_set request_id agent_name st)
    (λ _, running request_id) (λ _, recorded request_id).
Proof.
  unfold agent_set. eapply hoare_bind.
  - apply hoare_running, store_agents_preserves.
  - intros agents. by apply store_set_running.
Qed.

Lemma agent_alter_running request_id agent_name f :
  hoare (running request_id) (agent_alter request_id agent_name f)
    (λ _, running request_id) (λ _, recorded request_id).
Proof.
  unfold agent_alter. eapply hoare_bind.
  - apply hoare_running, store_agents_preserves.
  - intros agents. destruct (dict_get _ _).
    + by apply store_set_running.
    + intros w. apply running_recorded.
Qed.

Lemma stored_score_nonzero r : stored_score r ≠ 0.
Proof.
  unfold stored_score, Py.truthy_int.
  destruct (Z.eqb_spec (Orchestrator.overall_score r) 0); simpl; [done|done].
Qed.

Lemma run_analysis_try_spec request_id url analysis0 :
  hoare (λ w, analysis_store w !! request_id = Some analysis0)
    (store_set request_id "status" (VStr "running") ;;
     started_at ← timestamp env;
     store_set request_id "started_at" (VStr started_at) ;;
     Orchestrator.SEOOrchestrator_init env ;;
     for_each agent_names
       (λ agent_name,
          agent_set request_id agent_name
            {| a_status := "pending"; a_message := None; a_duration := None |}) ;;
     store_set request_id "current_agent" (VStr "security") ;;
     for_each parallel_agent_names
       (λ agent_name, agent_alter request_id agent_name (set_a_status "running")) ;;
     result ← Orchestrator.analyze_website env Agents.ANALYSIS_AGENTS url;
     for_each parallel_agent_names
       (λ agent_name,
          agent_alter request_id agent_name (set_a_status "completed") ;;
          agent_alter request_id agent_name (set_a_message "Analysis complete")) ;;
     agent_alter request_id "report" (set_a_status "completed") ;;
     agent_alter request_id "report" (set_a_message "Report generated") ;;
     let overall_score :=
       if Py.truthy_int (Orchestrator.overall_score result)
       then Orchestrator.overall_score result else 75 in
     let report :=
       match Orchestrator.final_report result with
       | Some text => if Py.truthy_str text then text else ""
       | None => ""
       end in
     let pdf_path := Orchestrator.pdf_path result in
     let category_scores := Scores.parse_category_scores report in
     let '(issues_found, warnings, passed) := parse_report_stats report in
     completed_at ← timestamp env;
     store_update request_id
       [("status", VStr "completed"); ("completed_at", VStr completed_at);
        ("overall_score", VInt overall_score); ("report", VStr report);
        ("issues_found", VInt issues_found); ("warnings", VInt warnings);
        ("passed", VInt passed); ("category_scores", VScores category_scores);
        ("pdf_path", match pdf_path with Some path => VStr path | None => VNone end);
        ("current_agent", VNone)])
    (λ _, settled_record env request_id url)
    (λ _, recorded request_id).
Proof.
  apply hoare_bind with (mid := λ _, running request_id).
  { intros w Hw. unfold store_set. rewrite Hw. simpl.
    exists (<["status" := VStr "running"]> analysis0).
    split; apply lookup_insert_eq. }
  intros ?. apply hoare_bind with (mid := λ _, running request_id).
  { apply hoare_running, outer_store, timestamp_quiet. }
  intros started_at. apply hoare_bind with (mid := λ _, running request_id).
  { by apply store_set_running. }
  intros ?. apply hoare_bind with (mid := λ _, running request_id).
  { apply hoare_running, outer_store, SEOOrchestrator_init_outer. }
  intros ?. apply hoare_bind with (mid := λ _, running request_id).
  { apply hoare_for_each. intros agent_name. apply agent_set_running. }
  intros ?. apply hoare_bind with (mid := λ _, running request_id).
  { by apply store_set_running. }
  intros ?. apply hoare_bind with (mid := λ _, running request_id).
  { apply hoare_for_each. intros agent_name. apply agent_alter_running. }
  intros ?.
  apply hoare_bind with
    (mid := λ r w,
       (∃ w0, fst (Orchestrator.analyze_website env Agents.ANALYSIS_AGENTS url w0)
              = Ret r) ∧ running request_id w).
  { intros w Hw.
    pose proof (outer_store _ (analyze_website_outer env Agents.ANALYSIS_AGENTS url) w)
      as Hst.
    destruct (Orchestrator.analyze_website _ _ _ w) as [[r|msg] w'] eqn:E;
      simpl in Hst.
    - split; [exists w; by rewrite E|].
      destruct Hw as (analysis & ? & ?). exists analysis. by rewrite Hst.
    - apply running_recorded in Hw. unfold recorded in *. by rewrite Hst. }
  intros result. apply hoare_assume. intros [w0 Hresult].
  apply hoare_bind with (mid := λ _, running request_id).
  { apply hoare_for_each. intros agent_name.
    eapply hoare_bind; [apply agent_alter_running|].
    intros ?. apply agent_alter_running. }
  intros ?. apply hoare_bind with (mid := λ _, running request_id).
  { apply agent_alter_running. }
  intros ?. apply hoare_bind with (mid := λ _, running request_id).
  { apply agent_alter_running. }
  intros ?. cbv zeta.
  destruct (parse_report_stats _) as [[issues_found warnings] passed].
  apply hoare_bind with (mid := λ _, running request_id).
  { apply hoare_running, outer_store, timestamp_quiet. }
  intros completed_at w (analysis & Hw & _).
  pose proof (store_update_spec request_id
                [("status", VStr "completed"); ("completed_at", VStr completed_at);
                 ("overall_score", VInt (stored_score result));
                 ("report", VStr match Orchestrator.final_report result with
                                 | Some text => if Py.truthy_str text then text else ""
                                 | None => ""
                                 end);
                 ("issues_found", VInt issues_found); ("warnings", VInt warnings);
                 ("passed", VInt passed);
                 ("category_scores",
                  VScores (Scores.parse_category_scores
                             match Orchestrator.final_report result with
                             | Some text => if Py.truthy_str text then text else ""
                             | None => ""
                             end));
                 ("pdf_path", match Orchestrator.pdf_path result with
                              | Some path => VStr path
                              | None => VNone
                              end);
                 ("current_agent", VNone)] analysis w Hw) as Hu.
  unfold stored_score in Hu.
  destruct (store_update _ _ w) as [[[]|msg] w']; [|done].
  eexists. split; [exact Hu|]. right. simpl. split.
  - by simplify_map_eq.
  - exists result, w0. split; [done|]. unfold stored_score. by simplify_map_eq.
Qed.

Lemma run_analysis_spec request_id url name email analysis0 :
  hoare (λ w, analysis_store w !! request_id = Some analysis0)
    (run_analysis env request_id url name email)
    (λ _, settled_record env request_id url)
    (λ _ _, False).
Proof.
  unfold run_analysis.
  eapply hoare_try_except; [apply run_analysis_try_spec|].
  intros e. apply hoare_bind with (mid := λ _, recorded request_id).
  { intros w Hw. simpl. exact Hw. }
  intros completed_at w [analysis Hw].
  pose proof (store_update_spec request_id
                [("status", VStr "error"); ("error", VStr e);
                 ("completed_at", VStr completed_at); ("current_agent", VNone)]
                analysis w Hw) as Hu.
  destruct (store_update _ _ w) as [[[]|msg] w']; [|done].
  eexists. split; [exact Hu|]. left. simpl. by simplify_map_eq.
Qed.

Lemma run_analysis_unknown request_id url name email w :
  analysis_store w !! request_id = None →
  analysis_store (snd (run_analysis env request_id url name email w)) !! request_id
    = None.
Proof.
  intros Hw. unfold run_analysis, try_except, bind at 1, store_set at 1.
  rewrite Hw. unfold bind, timestamp, store_update. simpl.
  unfold bind, store_set. simpl. by rewrite Hw.
Qed.
End Results.

(** C10: whenever the results endpoint answers with a result document
    after the background task has run, the overall score in it is the
    integer stored by that task: the score computed by the orchestrator
    for that run if it is not zero, and 75 if it is zero.  It is never
    zero. *)
Theorem completed_score_is_never_zero env request_id url name email w doc :
  Server.get_analysis_results request_id
    (snd (Server.run_analysis env request_id url name email w))
    = Ret (Server.Results doc) →
  ∃ r w0,
    fst (Orchestrator.analyze_website env Agents.ANALYSIS_AGENTS url w0) = Ret r ∧
    Server.overallScore doc =
      Store.VInt (if (Orchestrator.overall_score r =? 0)
                  then 75 else Orchestrator.overall_score r) ∧
    Server.overallScore doc ≠ Store.VInt 0.
Proof.
  intros Hdoc.
  destruct (analysis_store w !! request_id) as [analysis0|] eqn:Hw.
  - pose proof (run_analysis_spec env request_id url name email analysis0 w Hw) as H.
    destruct (Server.run_analysis _ _ _ _ _ w) as [[[]|msg] w']; [|done].
    simpl in Hdoc. destruct H as (analysis & Hst & Hcase).
    unfold Server.get_analysis_results in Hdoc. rewrite Hst in Hdoc.
    destruct Hcase as [Herr|[Hdone (r & w0 & Hr & Hscore)]].
    + rewrite Herr in Hdoc. simpl in Hdoc. discriminate Hdoc.
    + rewrite Hdone in Hdoc. simpl in Hdoc.
      destruct (analysis !! "url"); [|discriminate Hdoc].
      injection Hdoc as <-. simpl. rewrite Hscore. simpl.
      exists r, w0. split; [done|]. unfold stored_score, Py.truthy_int.
      destruct (Z.eqb_spec (Orchestrator.overall_score r) 0) as [?|Hne]; simpl.
      * split; [done|]. intros [=].
      * split; [done|]. intros [= ?]. done.
  - pose proof (run_analysis_unknown env request_id url name email w Hw) as H.
    unfold Server.get_analysis_results in Hdoc. rewrite H in Hdoc. discriminate Hdoc.
Qed.

(** C10, witness: no worker states a score, the orchestrator computes 0,
    and the endpoint reports 75. *)
Lemma completed_score_is_never_zero_witness :
  ∃ doc,
    Server.get_analysis_results "3f2a9c1e-77d4-4b0a-9c51-000000000000"
      (snd (Server.run_analysis Scenario.no_scores
              "3f2a9c1e-77d4-4b0a-9c51-000000000000" "https://example.com" "Ann"
              "ann@example.org"
              (snd (Server.start_analysis Scenario.no_scores
                      (Server.make_request "example.com" "Ann" "ann@example.org")
                      initial_world))))
      = Ret (Server.Results doc) ∧
    Server.overallScore doc = Store.VInt 75 ∧
    Server.overallScore doc ≠ Store.VInt 0.
Proof.
  destruct (Server.get_analysis_results "3f2a9c1e-77d4-4b0a-9c51-000000000000" _)
    as [[| | |doc]|] eqn:E; try (vm_compute in E; discriminate E).
  exists doc. split; [reflexivity|].
  destruct (completed_score_is_never_zero _ _ _ _ _ _ doc E) as (r & w0 & _ & _ & Hne).
  split; [|exact Hne].
  vm_compute in E. injection E as <-. reflexivity.
Defined.

(* ================================================================== *)
(** * Scores *)
(* ================================================================== *)

(** C4: the two examples of the specification hold, and the score read
    from a worker's text is not clamped: a text stating 250 yields 250
    (the category scores of the report are clamped to 100, the score of
    a worker is not); and only the keyword [score] is recognised, not
    [rating]. *)
Theorem parse_score_is_not_clamped :
  Scores.parse_score "Security Score: 85/100" = Ret (Some 85) ∧
  Scores.parse_score "no numeric content" = Ret None ∧
  Scores.parse_score "Score: 250" = Ret (Some 250) ∧
  Scores.clamp 250 = 100 ∧
  Scores.parse_score "Rating: 85" = Ret None ∧
  match fst (Orchestrator.analyze_website
               (Scenario.with_run_async
                  (λ agent _ _, inl [Some (Text "Score: 250")]) Scenario.healthy)
               Agents.ANALYSIS_AGENTS "https://example.com" initial_world) with
  | Ret r => Orchestrator.overall_score r = 250
  | Raise _ => False
  end.
Proof. by vm_compute. Qed.

Section OverallScore.
Import Orchestrator.
Variable env : Env.
Variable analysis_agents : list string.

Lemma on_world_local {A} (m : M World A) (R : SEOAnalysisResult → Prop) :
  hoare (λ s, R (fst s)) (on_world m) (λ _ s, R (fst s)) (λ _ _, True).
Proof.
  intros [r w] Hr. unfold on_world, zoom. simpl in *.
  by destruct (m w) as [[a|msg] w'].
Qed.

Lemma record_report_scored report_result agent_results url request_id :
  hoare (λ s, overall_score (fst s) = 0 ∧
              Orchestrator.agent_results (fst s) = agent_results)
    (record_report env report_result agent_results url request_id)
    (λ _ s, scored (fst s)) (λ _ _, True).
Proof.
  intros [r w] [Hzero Hresults]. unfold record_report, scored.
  unfold bind, assign, modify, analysis_result, raise, ret. simpl in *.
  destruct (success report_result); simpl; [|done].
  destruct (collect_scores (dict_values agent_results)) as [scores|msg] eqn:E;
    [|done].
  destruct scores as [|score scores]; simpl;
    destruct (generate_report_pdf _ _ _ _ _) as [[path|]|msg]; simpl; try done;
    try destruct (Py.truthy_str path); simpl; intros _; rewrite Hresults, E;
    eexists; (split; [done|]); done.
Qed.

Lemma store_results_scored request_id :
  hoare (λ s, scored (fst s)) (store_results env request_id)
    (λ _ s, scored (fst s)) (λ _ _, True).
Proof.
  intros [r w] Hr. unfold store_results.
  unfold bind, assign, modify, analysis_result, on_world, zoom. simpl.
  by destruct (on_db _ w) as [[a|msg] w'].
Qed.

Lemma analyze_try_scored url request_id session_id :
  hoare (λ s, overall_score (fst s) = 0)
    (analyze_try env analysis_agents url request_id session_id)
    (λ _ s, scored (fst s)) (λ _ _, True).
Proof.
  unfold analyze_try.
  apply hoare_bind with (mid := λ _ s, overall_score (fst s) = 0).
  { apply (on_world_local _ (λ r, overall_score r = 0)). }
  intros ?. apply hoare_bind with (mid := λ _ s, overall_score (fst s) = 0).
  { apply (on_world_local _ (λ r, overall_score r = 0)). }
  intros agent_results.
  apply hoare_bind with
    (mid := λ _ s, overall_score (fst s) = 0 ∧
                   Orchestrator.agent_results (fst s) = agent_results).
  { by intros [r w]. }
  intros ?.
  apply hoare_bind with
    (mid := λ _ s, overall_score (fst s) = 0 ∧
                   Orchestrator.agent_results (fst s) = agent_results).
  { apply (on_world_local _ (λ r, overall_score r = 0 ∧
                                  Orchestrator.agent_results r = agent_results)). }
  intros ?.
  apply hoare_bind with
    (mid := λ _ s, overall_score (fst s) = 0 ∧
                   Orchestrator.agent_results (fst s) = agent_results).
  { apply (on_world_local _ (λ r, overall_score r = 0 ∧
                                  Orchestrator.agent_results r = agent_results)). }
  intros report_result.
  eapply hoare_bind; [apply record_report_scored|].
  intros ?. apply store_results_scored.
Qed.

Lemma analyze_website_scored url w :
  match analyze_website env analysis_agents url w with
  | (Ret r, _) => scored r
  | (Raise _, _) => True
  end.
Proof.
  unfold analyze_website, bind.
  destruct (analyze_setup env analysis_agents url w) as [[request_id|msg] w1];
    [|done].
  unfold with_local, try_except.
  pose proof (analyze_try_scored url request_id ("seo_session_" +:+ request_id)
                (new_result url request_id, w1) eq_refl) as Htry.
  destruct (analyze_try _ _ _ _ _ _) as [[[]|msg] [r1 w2]]; [done|].
  unfold analyze_except, bind, assign, modify, on_world, zoom. simpl.
  destruct (on_db _ w2) as [[a|msg'] w3]; [|done].
  simpl. intros Hst. discriminate Hst.
Qed.
End OverallScore.

(** The loop of the code reads the scores that the specification
    names, and raises exactly when one of them cannot be read. *)
Lemma collect_scores_parsed results :
  match Orchestrator.collect_scores results with
  | Ret scores => scores = parsed_scores results ∧ scores_readable results
  | Raise _ => ¬ scores_readable results
  end.
Proof.
  unfold parsed_scores, scores_readable.
  induction results as [|r results IH]; simpl; [by split|].
  destruct (Orchestrator.success r) eqn:Hsuccess.
  - destruct (Scores.parse_score (Orchestrator.result r)) as [[score|]|msg] eqn:E.
    + destruct (Orchestrator.collect_scores results) as [scores|msg'].
      * destruct IH as [-> IH]. split; [done|].
        constructor; [|done]. intros _. by eexists.
      * intros H. apply Forall_cons in H as [_ H]. by apply IH.
    + destruct (Orchestrator.collect_scores results) as [scores|msg'].
      * destruct IH as [-> IH]. split; [done|].
        constructor; [|done]. intros _. by eexists.
      * intros H. apply Forall_cons in H as [_ H]. by apply IH.
    + intros H. apply Forall_cons in H as [H _].
      destruct (H Hsuccess) as [score Hscore]. unfold readable in *.
      rewrite E in Hscore. discriminate Hscore.
  - destruct (Orchestrator.collect_scores results) as [scores|msg'].
    + destruct IH as [-> IH]. split; [done|].
      constructor; [intros ?; congruence|done].
    + intros H. apply Forall_cons in H as [_ H]. by apply IH.
Qed.

(** C5: the aggregate of a non-empty list of scores is the floor of
    their arithmetic mean, the aggregate of no score is 0, and the
    examples of the specification hold.  The scores that the code
    aggregates are the successfully parsed scores of the successful
    workers: a failed worker and a text without a score contribute
    nothing, and the loop raises exactly when a score cannot be read.
    The overall score of every run that ends [completed] is the
    aggregate of these scores of its workers.  On a healthy system,
    where four of the five workers state the scores 85, 70, 100 and 66,
    the run ends completed with the overall score 80; where no worker
    states a score it ends completed with the overall score 0. *)
Theorem overall_score_is_floor_of_mean :
  (∀ scores,
     scores ≠ [] →
     let n := Z.of_nat (length scores) in
     let total := foldr Z.add 0 scores in
     n * Scores.aggregate_overall scores ≤ total
     ∧ total < n * (Scores.aggregate_overall scores + 1)) ∧
  Scores.aggregate_overall [] = 0 ∧
  Scores.aggregate_overall [80; 60; 100] = 80 ∧
  (∀ results,
     match Orchestrator.collect_scores results with
     | Ret scores => scores = parsed_scores results
     | Raise _ => ¬ scores_readable results
     end) ∧
  (∀ env analysis_agents url w,
     match Orchestrator.analyze_website env analysis_agents url w with
     | (Ret r, _) =>
         Orchestrator.status r = "completed" →
         ∃ scores,
           Orchestrator.collect_scores (dict_values (Orchestrator.agent_results r))
             = Ret scores ∧
           scores = parsed_scores (dict_values (Orchestrator.agent_results r)) ∧
           Orchestrator.overall_score r = Scores.aggregate_overall scores
     | (Raise _, _) => True
     end) ∧
  (∃ r w,
     Orchestrator.analyze_website Scenario.healthy Agents.ANALYSIS_AGENTS
       "https://example.com" initial_world = (Ret r, w) ∧
     Orchestrator.status r = "completed" ∧
     parsed_scores (dict_values (Orchestrator.agent_results r)) = [85; 70; 100; 66] ∧
     Orchestrator.overall_score r = 80) ∧
  (∃ r w,
     Orchestrator.analyze_website Scenario.no_scores Agents.ANALYSIS_AGENTS
       "https://example.com" initial_world = (Ret r, w) ∧
     Orchestrator.status r = "completed" ∧
     parsed_scores (dict_values (Orchestrator.agent_results r)) = [] ∧
     Orchestrator.overall_score r = 0).
Proof.
  split; [|split; [done|split; [done|split; [|split; [|split]]]]].
  - intros scores Hne n total.
    assert (Hn : 0 < n) by (destruct scores; [done|unfold n; simpl; lia]).
    assert (Hagg : Scores.aggregate_overall scores = total `div` n)
      by (by destruct scores).
    rewrite Hagg. split.
    + by apply Z.mul_div_le.
    + rewrite Z.mul_add_distr_l, Z.mul_1_r.
      pose proof (Z.mod_pos_bound total n Hn).
      pose proof (Z.div_mod total n). lia.
  - intros results. pose proof (collect_scores_parsed results) as H.
    destruct (Orchestrator.collect_scores results); [by destruct H|done].
  - intros env analysis_agents url w.
    pose proof (analyze_website_scored env analysis_agents url w) as H.
    destruct (Orchestrator.analyze_website env analysis_agents url w)
      as [[r|msg] w']; [|done].
    intros Hstatus. destruct (H Hstatus) as (scores & Hscores & Hoverall).
    exists scores. split; [done|]. split; [|done].
    pose proof (collect_scores_parsed
                  (dict_values (Orchestrator.agent_results r))) as Hp.
    rewrite Hscores in Hp. by destruct Hp.
  - eexists _, _. split; [vm_compute; reflexivity|]. by vm_compute.
  - eexists _, _. split; [vm_compute; reflexivity|]. by vm_compute.
Qed.

(* ================================================================== *)
(** * The matcher *)
(* ================================================================== *)

Section MatcherFacts.
Import Re.
Variable fl : flags.

Lemma star_greedy_inv {A} p s m (k : string → captures → option A) x :
  star_greedy p s m k = Some x → ∃ s', k s' m = Some x.
Proof.
  induction s as [|c s IH]; simpl; [eauto|].
  destruct (p c); [|eauto].
  destruct (star_greedy p s m k) as [y|]; [intros [= <-]; auto|eauto].
Qed.

Lemma star_lazy_inv {A} p s m (k : string → captures → option A) x :
  star_lazy p s m k = Some x → ∃ s', k s' m = Some x.
Proof.
  induction s as [|c s IH]; simpl.
  - destruct (k "" m) eqn:E; [intros [= <-]; eauto|done].
  - destruct (k (String c s) m) eqn:E; [intros [= <-]; eauto|].
    destruct (p c); [auto|done].
Qed.

(** A successful match has run its continuation, on captures that
    differ from the initial ones only at the groups of the pattern. *)
Lemma rmatch_inv {A} r s m (k : string → captures → option A) x :
  rmatch fl r s m k = Some x →
  ∃ s' m', k s' m' = Some x ∧
           ∀ n, n ∉ groups r → group_opt n m' = group_opt n m.
Proof.
  revert s m k. induction r as [|l|p| |r1 IH1 r2 IH2|r1 IH1 r2 IH2|r1 IH1|r1 _|r1 _
                                |r1 _|g r1 IH1]; intros s m k; simpl.
  - eauto.
  - destruct (lit fl l s); [eauto|done].
  - destruct s as [|c s]; [done|]. destruct (p c); [eauto|done].
  - destruct s as [|c s]; [done|]. destruct (dot_class fl c); [eauto|done].
  - intros H. apply IH1 in H as (s1 & m1 & H & Hf1).
    apply IH2 in H as (s2 & m2 & H & Hf2).
    exists s2, m2. split; [done|]. intros n Hn.
    rewrite Hf2, Hf1; [done| |]; intros ?; apply Hn, elem_of_app; auto.
  - destruct (rmatch fl r1 s m k) as [y|] eqn:E.
    + intros [= <-]. apply IH1 in E as (s1 & m1 & H & Hf1).
      exists s1, m1. split; [done|]. intros n Hn. apply Hf1.
      intros ?; apply Hn, elem_of_app; auto.
    + intros H. apply IH2 in H as (s2 & m2 & H & Hf2).
      exists s2, m2. split; [done|]. intros n Hn. apply Hf2.
      intros ?; apply Hn, elem_of_app; auto.
  - destruct (rmatch fl r1 s m k) as [y|] eqn:E.
    + intros [= <-]. by apply IH1 in E.
    + eauto.
  - intros H. apply star_greedy_inv in H as [s' H]. eauto.
  - destruct s as [|c s]; [done|]. destruct (single fl r1 c); [|done].
    intros H. apply star_greedy_inv in H as [s' H]. eauto.
  - intros H. apply star_lazy_inv in H as [s' H]. eauto.
  - intros H. apply IH1 in H as (s1 & m1 & H & Hf1).
    eexists _, _. split; [exact H|]. intros n Hn. simpl.
    destruct (Nat.eqb_spec g n) as [->|Hne].
    + exfalso. apply Hn. apply list_elem_of_here.
    + apply Hf1. intros ?. apply Hn. by apply list_elem_of_further.
Qed.

Lemma search_inv r s m :
  search fl r s = Some m → ∃ t, match_here fl r t = Some m.
Proof.
  induction s as [|c s IH]; simpl.
  - destruct (match_here fl r "") eqn:E; [intros [= <-]; eauto|done].
  - destruct (match_here fl r (String c s)) eqn:E; [intros [= <-]; eauto|auto].
Qed.

Lemma length_append (l s : string) :
  String.length (l +:+ s) = (String.length l + String.length s)%nat.
Proof. induction l; simpl; auto. Qed.

Lemma consumed_prefix l s : consumed (l +:+ s) s = l.
Proof.
  unfold consumed. rewrite length_append.
  replace (String.length l + String.length s - String.length s)%nat
    with (String.length l) by lia.
  induction l as [|a l IH]; simpl.
  - by destruct s.
  - by rewrite IH.
Qed.

Lemma lit_exact l s s' : all_caseless fl l → lit fl l s = Some s' → s = l +:+ s'.
Proof.
  revert s. induction l as [|a l IH]; intros s Hl; simpl.
  - by intros [= ->].
  - destruct s as [|c s]; [done|]. destruct Hl as [Ha Hl].
    destruct (chr_eq fl a c) eqn:E; [|done].
    intros H. apply Ha in E as ->. by rewrite (IH s Hl H).
Qed.
End MatcherFacts.

Lemma caseless_below_letters fl (a : ascii) :
  (Py.code a <? 65)%N = true → caseless fl a.
Proof.
  intros Ha c. unfold Re.chr_eq.
  assert (Hlow : ∀ x, (Py.code x <? 65)%N = true → Py.lower_char x = x).
  { intros x Hx. unfold Py.lower_char, Py.between.
    apply N.ltb_lt in Hx.
    destruct (N.leb_spec 65 (Py.code x)); [lia|].
    destruct (N.leb_spec 192 (Py.code x)); [lia|]. done. }
  assert (Himg : ∀ x, Py.lower_char x = a → x = a).
  { intros x Hx. unfold Py.lower_char, Py.between in Hx.
    destruct (_ || _) eqn:E; [|done].
    exfalso. apply N.ltb_lt in Ha. subst a. unfold Py.code in Ha.
    assert (Py.code x < 224)%N.
    { unfold Py.code.
      apply orb_prop in E as [E|E].
      - apply andb_prop in E as [_ E]. apply N.leb_le in E. unfold Py.code in E. lia.
      - apply andb_prop in E as [E _]. apply andb_prop in E as [_ E].
        apply N.leb_le in E. unfold Py.code in E. lia. }
    assert (65 ≤ Py.code x)%N.
    { apply orb_prop in E as [E|E].
      - apply andb_prop in E as [E _]. by apply N.leb_le in E.
      - apply andb_prop in E as [E _]. apply andb_prop in E as [E _].
        apply N.leb_le in E. lia. }
    rewrite N_ascii_embedding in Ha; unfold Py.code in *; lia. }
  destruct (Re.IGNORECASE fl).
  - intros H. apply Ascii.eqb_eq in H. rewrite (Hlow a Ha) in H.
    symmetry in H. by apply Himg.
  - intros H. by apply Ascii.eqb_eq in H.
Qed.

(** The heading pattern of a category binds its first group to the
    text [1, 3], which is not a number. *)
Lemma section_pattern_group category report m :
  Re.search Scores.search_flags (Scores.section_pattern category) report = Some m →
  Re.group 1 m = "1, 3".
Proof.
  intros H. apply search_inv in H as [t H].
  unfold Re.match_here, Scores.section_pattern in H. cbn [Re.seq Re.rmatch] in H.
  destruct (Re.lit Scores.search_flags "#" t) as [t1|]; [|done].
  destruct (Re.lit Scores.search_flags "1, 3" t1) as [t2|] eqn:E; [|done].
  apply lit_exact in E.
  2:{ repeat split; by apply caseless_below_letters. }
  apply (rmatch_inv Scores.search_flags
           (Re.Cat (Re.Star Re.ws)
              (Re.Cat (Re.Lit category)
                 (Re.Cat (Re.StarLazy Re.Dot)
                    (Re.Cat (Re.Group 2 (Re.Plus Re.d))
                       (Re.Cat (Re.Star Re.ws)
                          (Re.Cat (Re.Lit "/") (Re.Cat (Re.Star Re.ws) (Re.Lit "100"))))))))
           t2 [(1%nat, Re.consumed t1 t2)] (λ _ m, Some m) m)
    in H as (s' & m' & [= ->] & Hframe).
  unfold Re.group. rewrite Hframe.
  - simpl. subst t1. by rewrite consumed_prefix.
  - simpl. intros Hin. repeat (apply elem_of_cons in Hin as [?|Hin]; [done|]).
    by apply elem_of_nil in Hin.
Qed.

Lemma int_of_tuple_text : Py.int "1, 3" = None.
Proof. reflexivity. Qed.

(** Without a match of its keyword pattern a category gets the default,
    whatever the heading pattern finds. *)
Lemma category_score_default report_lower category pattern :
  Re.search Scores.search_flags pattern report_lower = None →
  Scores.category_score report_lower category pattern = 75.
Proof.
  intros H. unfold Scores.category_score. rewrite H.
  destruct (Re.search _ (Scores.section_pattern category) _) as [m|] eqn:E; [|done].
  by rewrite (section_pattern_group _ _ _ E), int_of_tuple_text.
Qed.

Lemma parse_category_scores_lookup report category pattern :
  (category, pattern) ∈ Scores.categories →
  dict_get category (Scores.parse_category_scores report)
    = Some (Scores.category_score (Py.lower report) category pattern).
Proof.
  unfold Scores.parse_category_scores, Scores.categories.
  generalize (Scores.category_score (Py.lower report)). intros score Hin.
  repeat (apply elem_of_cons in Hin as [[= -> ->]|Hin]; [reflexivity|]).
  by apply elem_of_nil in Hin.
Qed.



(** The heading pattern never contributes a number: whenever the
    keyword pattern of a category does not match, the category gets 75. *)
Theorem heading_pattern_never_scores report category pattern :
  (category, pattern) ∈ Scores.categories →
  Re.search Scores.search_flags pattern (Py.lower report) = None →
  dict_get category (Scores.parse_category_scores report) = Some 75.
Proof.
  intros Hin Hprimary.
  rewrite (parse_category_scores_lookup report category pattern Hin).
  by rewrite category_score_default.
Qed.

Lemma heading_pattern_never_scores_witness :
  dict_get "performance"
    (Scores.parse_category_scores ("### Performance" +:+ nl +:+ "90 / 100"))
  = Some 75.
Proof.
  apply (heading_pattern_never_scores ("### Performance" +:+ nl +:+ "90 / 100")
           "performance"
           (Scores.category_pattern
              (Re.alts [Re.Lit "performance"; Re.Lit "speed"; Re.Lit "loading"]))).
  - unfold Scores.categories. do 3 apply list_elem_of_further. apply list_elem_of_here.
  - reflexivity.
Defined.

(* ================================================================== *)
(** * The score of a worker is a number *)
(* ================================================================== *)

Section ScoreFacts.
Import Re.

(** A greedy star consumes a run of the class and goes on. *)
Lemma star_greedy_run {A} p s m (k : string → captures → option A) x :
  star_greedy p s m k = Some x →
  ∃ run s', s = run +:+ s' ∧ all_chars p run ∧ k s' m = Some x.
Proof.
  induction s as [|c s IH]; simpl.
  - intros H. by exists "", "".
  - destruct (p c) eqn:Hc; [|intros H; by exists "", (String c s)].
    destruct (star_greedy p s m k) as [y|] eqn:E.
    + intros [= <-]. destruct (IH eq_refl) as (run & s' & -> & Hrun & Hk).
      by exists (String c run), s'.
    + intros H. by exists "", (String c s).
Qed.

Lemma isdigit_not_space c : Py.isdigit c = true → Py.isspace c = false.
Proof.
  unfold Py.isdigit, Py.isspace, Py.between. intros H.
  apply andb_prop in H as [H1 H2]. apply N.leb_le in H1, H2.
  repeat match goal with
         | |- context [(?a <=? ?b)%N] => destruct (N.leb_spec a b)
         | |- context [(?a =? ?b)%N] => destruct (N.eqb_spec a b)
         end; simpl; try done; lia.
Qed.

Lemma rstrip_digits s : all_chars Py.isdigit s → Py.rstrip s = s.
Proof.
  induction s as [|c s IH]; simpl; [done|]. intros [Hc Hs].
  rewrite (IH Hs). destruct s; [|done].
  by rewrite (isdigit_not_space c Hc).
Qed.

Lemma digits_value_nonneg s acc :
  0 ≤ acc → all_chars Py.isdigit s → ∃ n, Py.digits_value acc s = Some n ∧ 0 ≤ n.
Proof.
  revert acc. induction s as [|c s IH]; intros acc Hacc; simpl; [eauto|].
  intros [Hc Hs]. rewrite Hc. apply IH; [|done].
  unfold Py.digit_value. lia.
Qed.

(** [int] of a run of digits is [unsigned_int] of it. *)
Lemma int_unsigned c s :
  Py.isdigit c = true → all_chars Py.isdigit s →
  Py.int (String c s) = Py.unsigned_int (String c s).
Proof.
  intros Hc Hs. unfold Py.int, Py.strip. cbn [Py.lstrip].
  rewrite (isdigit_not_space c Hc).
  rewrite (rstrip_digits (String c s)) by done.
  assert (Hsign : c ≠ "-"%char ∧ c ≠ "+"%char).
  { split; intros ->; vm_compute in Hc; discriminate Hc. }
  destruct Hsign as [Hminus Hplus].
  destruct c as [[] [] [] [] [] [] [] []]; try done.
Qed.

(** A run of at most 4300 digits has a value, which is not negative;
    a longer run is refused. *)
Lemma int_digits c s :
  Py.isdigit c = true → all_chars Py.isdigit s →
  if Z.of_nat (String.length (String c s)) <=? Py.int_max_str_digits
  then ∃ n, Py.int (String c s) = Some n ∧ 0 ≤ n
  else Py.int (String c s) = None.
Proof.
  intros Hc Hs. rewrite int_unsigned by done. unfold Py.unsigned_int.
  destruct (Z.of_nat (String.length (String c s)) <=? Py.int_max_str_digits);
    [|done].
  by apply digits_value_nonneg.
Qed.

(** The first group of a match of the score pattern is a non-empty
    run of digits. *)
Lemma score_pattern_group text m :
  search no_flags Scores.score_pattern text = Some m →
  ∃ c run, group 1 m = String c run ∧ Py.isdigit c = true
           ∧ all_chars Py.isdigit run.
Proof.
  intros H. apply search_inv in H as [t H].
  unfold match_here, Scores.score_pattern in H. cbn [seq rmatch] in H.
  destruct (lit no_flags "score" t) as [t1|]; [|done].
  destruct t1 as [|c1 t1]; [done|].
  destruct (single no_flags colon_or_ws c1); [|done].
  apply star_greedy_run in H as (_ & t2 & _ & _ & H).
  destruct t2 as [|c t2]; [done|]. cbn [single d] in H.
  destruct (Py.isdigit c) eqn:Hc; [|done].
  apply star_greedy_run in H as (run & t3 & -> & Hrun & [= <-]).
  exists c, run. split; [|done].
  exact (consumed_prefix (String c run) t3).
Qed.
End ScoreFacts.

(** What reading the score of a text ends in, by the digits that
    follow the keyword. *)
Lemma parse_score_cases text :
  match Scores.score_search text with
  | None => Scores.parse_score text = Ret None
  | Some m =>
      let digits := Re.group 1 m in
      digits ≠ "" ∧ all_chars Py.isdigit digits ∧
      if Z.of_nat (String.length digits) <=? Py.int_max_str_digits
      then ∃ score, Scores.parse_score text = Ret (Some score) ∧ 0 ≤ score ∧
                    Py.int digits = Some score
      else Scores.parse_score text
           = Raise (Py.int_limit_message (String.length digits))
  end.
Proof.
  unfold Scores.parse_score.
  destruct (Scores.score_search text) as [m|] eqn:E; [|done].
  unfold Scores.score_search in E.
  apply score_pattern_group in E as (c & run & Hgroup & Hc & Hrun).
  cbv zeta. rewrite Hgroup. split; [done|]. split; [done|].
  pose proof (int_digits c run Hc Hrun) as Hint.
  destruct (Z.of_nat (String.length (String c run)) <=? Py.int_max_str_digits).
  - destruct Hint as (n & -> & Hn). eauto.
  - by rewrite Hint.
Qed.

(** A text whose score can be read: reading it does not raise. *)
Lemma readable_cases text :
  readable text →
  Scores.parse_score text = Ret None ∨
  ∃ score, Scores.parse_score text = Ret (Some score) ∧ 0 ≤ score.
Proof.
  intros [score Hscore]. pose proof (parse_score_cases text) as H.
  destruct (Scores.score_search text) as [m|]; [|by left].
  destruct H as (_ & _ & H).
  destruct (Z.of_nat _ <=? _).
  - right. destruct H as (n & ? & ? & _). eauto.
  - rewrite H in Hscore. discriminate Hscore.
Qed.

(** Reading the score of a worker yields nothing when the keyword is
    not followed by digits, and otherwise the value of the run of
    digits that follows it, which is not negative; it raises exactly
    when that run has more than 4300 digits, with the message of the
    digit limit of [int].  A score of 4301 digits is such a text, and
    one worker that states it fails the job: the run of the pipeline,
    with every collaborator up, returns with status [failed] and the
    message of the limit in the row of the job. *)
Theorem parse_score_raises_beyond_the_digit_limit :
  (∀ text,
     match Scores.parse_score text with
     | Ret None => Scores.score_search text = None
     | Ret (Some score) =>
         0 ≤ score ∧
         ∃ m, Scores.score_search text = Some m ∧
              Py.int (Re.group 1 m) = Some score ∧
              (String.length (Re.group 1 m) ≤ 4300)%nat
     | Raise msg =>
         ∃ m, Scores.score_search text = Some m ∧
              (4300 < String.length (Re.group 1 m))%nat ∧
              msg = Py.int_limit_message (String.length (Re.group 1 m))
     end) ∧
  Scores.parse_score Scenario.long_score = Raise (Py.int_limit_message 4301) ∧
  ∃ r w,
    Orchestrator.analyze_website Scenario.security_overstates Agents.ANALYSIS_AGENTS
      "https://example.com" initial_world = (Ret r, w) ∧
    Orchestrator.status r = "failed" ∧
    (Database.error_message
       <$> Database.analysis_requests (db w) !! Orchestrator.request_id r)
    = Some (Some (Py.int_limit_message 4301)).
Proof.
  split; [|split].
  - intros text. pose proof (parse_score_cases text) as H.
    destruct (Scores.score_search text) as [m|] eqn:E.
    + destruct H as (_ & _ & H).
      destruct (Z.leb_spec (Z.of_nat (String.length (Re.group 1 m)))
                  Py.int_max_str_digits) as [Hle|Hgt].
      * destruct H as (score & -> & Hscore & Hint). split; [done|].
        exists m. unfold Py.int_max_str_digits in Hle. repeat split; [done|lia].
      * rewrite H. exists m. unfold Py.int_max_str_digits in Hgt.
        repeat split; lia.
    + by rewrite H.
  - vm_compute. reflexivity.
  - eexists _, _. split; [vm_compute; reflexivity|]. split; vm_compute; reflexivity.
Qed.

(* ================================================================== *)
(** * The target in the instructions of the workers *)
(* ================================================================== *)

(** The instruction of a worker is a frame that depends on the agent
    alone, with the target put into it exactly as the orchestrator
    received it: the text before the target and the text after it are
    the same for every target, so nothing is added to the target,
    removed from it or changed in it (a builder that added a scheme to
    a bare host would need a different frame for it).  The frames are
    those of the five workers, and [Analyze this website: ] for any
    other agent. *)
Theorem prompt_embeds_target_verbatim agent :
  ∃ before after,
    (∀ url, Orchestrator.prompt_for url agent = before +:+ url +:+ after) ∧
    (before, after) ∈
      [("Analyze the security of this website: ",
        ". Check HTTPS, SSL, and security headers.");
       ("Analyze the on-page SEO of this website: ",
        ". Check title, meta description, headings, and images.");
       ("Analyze the content quality of this website: ",
        ". Check word count and internal linking.");
       ("Analyze the performance of this website: ",
        ". Check page speed and mobile-friendliness.");
       ("Analyze the indexability of this website: ",
        ". Check robots.txt, sitemap, and meta robots.");
       ("Analyze this website: ", "")].
Proof.
  assert (Hnil : ∀ url, url +:+ "" = url).
  { induction url as [|c url IH]; [done|].
    change (String c (url +:+ "") = String c url). by rewrite IH. }
  unfold Orchestrator.prompt_for, Orchestrator.agent_prompts, dict_get.
  cbn [Scores.dict_get].
  repeat match goal with
         | |- context [if String.eqb ?a agent then Some (?b +:+ _ +:+ ?c) else _] =>
             destruct (String.eqb a agent);
             [exists b, c; split;
              [done|repeat first [apply list_elem_of_here | apply list_elem_of_further]]|]
         end.
  exists "Analyze this website: ", "". cbn [default]. split.
  - intros url. by rewrite Hnil.
  - repeat first [apply list_elem_of_here | apply list_elem_of_further].
Qed.

(** C9: on the command-line path the target [example.com] reaches the
    instruction of every worker as the bare host: nothing between the
    command line and the orchestrator adds a scheme. *)
Theorem cli_prompts_keep_the_bare_host :
  snd <$> take 5 (dispatched
                    (snd (Main.run_analysis Scenario.healthy "example.com" false
                            initial_world)))
  = [ "Analyze the security of this website: example.com. Check HTTPS, SSL, and security headers.";
      "Analyze the on-page SEO of this website: example.com. Check title, meta description, headings, and images.";
      "Analyze the content quality of this website: example.com. Check word count and internal linking.";
      "Analyze the performance of this website: example.com. Check page speed and mobile-friendliness.";
      "Analyze the indexability of this website: example.com. Check robots.txt, sitemap, and meta robots." ].
Proof. by vm_compute. Qed.

(** On the API path the request model has added the scheme before the
    background task hands the target to the orchestrator. *)
Lemma api_prompts_embed_the_normalized_url :
  let request := Server.make_request "example.com" "Ann" "ann@example.org" in
  let w := snd (Server.start_analysis Scenario.healthy request initial_world) in
  Server.url request = "https://example.com" ∧
  snd <$> take 5 (dispatched
                    (snd (Server.run_analysis Scenario.healthy
                            "3f2a9c1e-77d4-4b0a-9c51-000000000000"
                            (Server.url request) (Server.name request)
                            (Server.email request) w)))
  = [ "Analyze the security of this website: https://example.com. Check HTTPS, SSL, and security headers.";
      "Analyze the on-page SEO of this website: https://example.com. Check title, meta description, headings, and images.";
      "Analyze the content quality of this website: https://example.com. Check word count and internal linking.";
      "Analyze the performance of this website: https://example.com. Check page speed and mobile-friendliness.";
      "Analyze the indexability of this website: https://example.com. Check robots.txt, sitemap, and meta robots." ].
Proof. by vm_compute. Qed.

Lemma normalize_url_example : Tools.normalize_url "example.com" = "https://example.com".
Proof. reflexivity. Qed.

(* ================================================================== *)
(** * Faults of workers do not fail the job *)
(* ================================================================== *)

Section Isolation.
Import Orchestrator.
Variable env : Env.
Variable analysis_agents : list string.

Lemma collect_scores_returns results :
  scores_readable results → ∃ scores, collect_scores results = Ret scores.
Proof.
  induction 1 as [|result results Hresult _ [scores IH]]; simpl; [by eexists|].
  destruct (success result); [|by eexists].
  destruct (readable_cases (Orchestrator.result result) (Hresult eq_refl))
    as [->|(score & -> & _)].
  - by eexists.
  - rewrite IH. by eexists.
Qed.

(** A successful result carries the text read from the answer of the
    capability. *)
Lemma _run_agent_success agent prompt session_id request_id w r :
  fst (_run_agent env analysis_agents agent prompt session_id request_id w) = Ret r →
  success r = true →
  ∃ events, run_async env agent session_id prompt = inl events ∧
            collect_text events = Ret (result r).
Proof.
  unfold _run_agent. destruct (negb _); [by intros [= <-]|].
  unfold try_except, bind, invoke, on_db, zoom, Database.log_agent_action.
  destruct (run_async env agent session_id prompt) as [events|fault]; simpl.
  - destruct (collect_text events) as [text|fault] eqn:Htext; simpl;
      repeat match goal with
             | |- context [db_log_fault env request_id agent ?action] =>
                 destruct (db_log_fault env request_id agent action); simpl
             end;
      try done; intros [= <-]; try done.
    intros _. by exists events.
  - destruct (db_log_fault env request_id agent "analysis_error"); simpl; [done|].
    by intros [= <-].
Qed.

(** The values of the map built from the outcomes are among the
    outcomes. *)
Lemma dict_values_set {V} k (v v' : V) d :
  v' ∈ dict_values (dict_set k v d) → v' = v ∨ v' ∈ dict_values d.
Proof.
  unfold dict_values. induction d as [|[k0 v0] d IH]; simpl.
  - intros H. apply elem_of_cons in H as [?|H]; [by left|by right].
  - destruct (String.eqb k0 k); simpl; intros H;
      apply elem_of_cons in H as [?|H].
    + by left.
    + right. by apply list_elem_of_further.
    + right. subst. apply list_elem_of_here.
    + destruct (IH H) as [?|?]; [by left|right; by apply list_elem_of_further].
Qed.

Lemma collect_results_values (outs : list (outcome AgentResult)) acc r :
  r ∈ dict_values
        (foldl (λ agent_results result,
                  match result with
                  | Ret r => dict_set (agent_name r) r agent_results
                  | Raise _ => agent_results
                  end) acc outs) →
  Ret r ∈ outs ∨ r ∈ dict_values acc.
Proof.
  revert acc. induction outs as [|out outs IH]; intros acc; simpl; [by right|].
  intros H. destruct (IH _ H) as [?|Hacc]; [left; by apply list_elem_of_further|].
  destruct out as [r'|msg]; [|by right].
  apply dict_values_set in Hacc as [->|?]; [left; apply list_elem_of_here|by right].
Qed.

Lemma parallel_scores_readable url request_id session_id :
  answers_readable env →
  scores_readable
    (dict_values
       (collect_results
          (map (settled env analysis_agents url request_id session_id)
             analysis_agents))).
Proof.
  intros Hanswers. apply Forall_forall. intros r Hr Hsuccess.
  apply collect_results_values in Hr as [Hr|Hr]; [|by apply elem_of_nil in Hr].
  apply list_elem_of_fmap in Hr as (agent & Hr & _). symmetry in Hr.
  destruct (_run_agent_success _ _ _ _ _ _ Hr Hsuccess) as (events & Hrun & Htext).
  by apply (Hanswers _ _ _ _ _ Hrun Htext).
Qed.

Lemma _run_agent_returns agent prompt session_id request_id w :
  (∀ action, db_log_fault env request_id agent action = None) →
  ∃ r, fst (_run_agent env analysis_agents agent prompt session_id request_id w) = Ret r.
Proof.
  intros Hlog. unfold _run_agent. destruct (negb _); [by eexists|].
  unfold try_except, bind, invoke, on_db, zoom, Database.log_agent_action.
  rewrite !Hlog.
  destruct (run_async env agent session_id prompt) as [events|fault]; simpl;
    [destruct (collect_text events) as [text|fault]; simpl|];
    by eexists.
Qed.

Lemma record_report_returns report_result agent_results url request_id c :
  scores_readable (dict_values agent_results) →
  (∀ markdown target job score,
     ∃ path, generate_report_pdf env markdown target job score = Ret path) →
  hoare (λ s, core s = c)
    (record_report env report_result agent_results url request_id)
    (λ _ s, core s = c ∧ (status (fst s) = "completed" ∨ status (fst s) = "partial"))
    (λ _ _, False).
Proof.
  intros Hscores Hpdf [r w] Hc. unfold record_report.
  unfold bind, assign, modify, analysis_result, raise, ret.
  destruct (success report_result); simpl; [|by auto].
  destruct (collect_scores_returns (dict_values agent_results) Hscores)
    as [scores ->].
  destruct scores as [|score scores]; simpl;
    match goal with
    | |- context [generate_report_pdf env ?a ?b ?c ?d] =>
        destruct (Hpdf a b c d) as [path ->]
    end;
    (destruct path as [path|]; simpl; [|by auto]);
    destruct (Py.truthy_str path); simpl; by auto.
Qed.

Lemma analyze_try_returns url request_id session_id c row :
  answers_readable env →
  c.1 !! request_id = Some row →
  db_log_fault env request_id "orchestrator" "parallel_analysis_start" = None →
  db_log_fault env request_id "orchestrator" "report_generation_start" = None →
  (∀ action, db_log_fault env request_id "report_agent" action = None) →
  (∀ markdown target job score,
     ∃ path, generate_report_pdf env markdown target job score = Ret path) →
  (∀ st, db_update_fault env request_id st = None) →
  hoare (λ s, core s = c)
    (analyze_try env analysis_agents url request_id session_id)
    (λ _ s, status (fst s) = "completed" ∨ status (fst s) = "partial")
    (λ _ _, False).
Proof.
  intros Hanswers Hrow Hlog1 Hlog2 Hlog3 Hpdf Hupdate. unfold analyze_try.
  assert (Hlog : ∀ action details duration,
             db_log_fault env request_id "orchestrator" action = None →
             hoare (λ s, core s = c)
               (on_world (on_db (Database.log_agent_action env request_id
                                   "orchestrator" action details duration)))
               (λ _ s, core s = c) (λ _ _, False)).
  { intros action details duration Hok.
    eapply hoare_consequence;
      [apply (hoare_total core _ (λ x, x = c) (λ _, True))| | |].
    - apply on_world_core, on_db_quiet, log_agent_action_core.
    - intros [r w]. unfold on_world, on_db, zoom, Database.log_agent_action.
      rewrite Hok. simpl. by eexists.
    - done.
    - by intros ? ? [? _].
    - done. }
  apply hoare_bind with (mid := λ _ s, core s = c); [by apply Hlog|].
  intros ?.
  apply hoare_bind with
    (mid := λ agent_results s,
       scores_readable (dict_values agent_results) ∧ core s = c).
  { eapply hoare_consequence;
      [apply (hoare_total core _ (λ x, x = c)
                (λ agent_results, scores_readable (dict_values agent_results)))| | |].
    - apply on_world_core, run_parallel_analysis_quiet.
    - intros [r w]. unfold on_world, zoom. simpl.
      destruct (run_parallel_analysis_returns env analysis_agents url request_id
                  session_id w) as (w' & ->).
      eexists. split; [done|]. by apply parallel_scores_readable.
    - done.
    - by intros ? ? [? ?].
    - done. }
  intros agent_results. apply hoare_assume. intros Hscores.
  apply hoare_bind with (mid := λ _ s, core s = c).
  { by intros [r w]. }
  intros ?. apply hoare_bind with (mid := λ _ s, core s = c); [by apply Hlog|].
  intros ?. apply hoare_bind with (mid := λ _ s, core s = c).
  { eapply hoare_consequence;
      [apply (hoare_total core _ (λ x, x = c) (λ _, True))| | |].
    - apply on_world_core, generate_report_quiet.
    - intros [r w]. unfold on_world, zoom, generate_report. simpl.
      destruct (_run_agent_returns "report_agent" (report_prompt url agent_results)
                  (session_id +:+ "_report_agent") request_id w Hlog3) as [r' Hr'].
      destruct (_run_agent _ _ _ _ _ _ w) as [o w']. simpl in *. subst o.
      by eexists.
    - done.
    - by intros ? ? [? _].
    - done. }
  intros report_result.
  eapply hoare_bind; [by apply record_report_returns|].
  intros ?.
  eapply hoare_consequence;
    [apply (store_results_commits env request_id c row
              (λ r, status r = "completed" ∨ status r = "partial") Hrow)| | |].
  - by intros r v.
  - intros r _. apply Hupdate.
  - done.
  - by intros ? [r w] [? _].
  - done.
Qed.
End Isolation.

(** With the store and the renderer up, no fault of a worker fails the
    job: whether the capability answers a worker with a stream, with a
    stream that cannot be read or with a fault, whatever it answers to
    the report agent, and whatever happens to the log rows of the
    workers, the entry point returns with status [completed] or
    [partial], provided that no answer states a score of more than 4300
    digits (reading such a score raises inside the guarded block and
    fails the job). *)
Theorem worker_faults_never_fail_the_job env analysis_agents url w :
  answers_readable env →
  db_create_fault env url = None →
  Database.analysis_requests (db w) !! job_id env w = None →
  (∀ session_id, session_fault env session_id = None) →
  (∀ st, db_update_fault env (job_id env w) st = None) →
  db_log_fault env (job_id env w) "orchestrator" "parallel_analysis_start" = None →
  db_log_fault env (job_id env w) "orchestrator" "report_generation_start" = None →
  (∀ action, db_log_fault env (job_id env w) "report_agent" action = None) →
  (∀ markdown target job score,
     ∃ path, generate_report_pdf env markdown target job score = Ret path) →
  ∃ r w',
    Orchestrator.analyze_website env analysis_agents url w = (Ret r, w') ∧
    (Orchestrator.status r = "completed" ∨ Orchestrator.status r = "partial").
Proof.
  intros Hanswers Hcreate Hfresh Hsession Hupdate Hlog1 Hlog2 Hlog3 Hpdf.
  destruct (analyze_setup_returns env analysis_agents url w Hcreate Hfresh
              (Hupdate "analyzing") Hsession) as [w1 Hsetup].
  pose proof (analyze_setup_hoare env analysis_agents url w w eq_refl) as Hs.
  rewrite Hsetup in Hs. destruct Hs as (_ & _ & Hc).
  set (rid := job_id env w) in *.
  assert (Hrow : (db_core (db w1)).1 !! rid = Some (row_analyzing url)).
  { rewrite Hc. apply lookup_insert_eq. }
  unfold Orchestrator.analyze_website, bind. rewrite Hsetup.
  unfold Orchestrator.with_local, try_except.
  pose proof (analyze_try_returns env analysis_agents url rid
                ("seo_session_" +:+ rid) (db_core (db w1)) (row_analyzing url)
                Hanswers Hrow
                Hlog1 Hlog2 Hlog3 Hpdf Hupdate (Orchestrator.new_result url rid, w1)
                eq_refl) as Htry.
  destruct (Orchestrator.analyze_try _ _ _ _ _ _) as [[[]|msg] [r1 w2]]; [|done].
  by exists r1, w2.
Qed.

(** The scores in the texts of the scenarios can be read. *)
Lemma worker_text_readable agent : readable (Scenario.worker_text agent).
Proof.
  unfold Scenario.worker_text.
  repeat match goal with
         | |- context [String.eqb ?a ?b] => destruct (String.eqb a b)
         end;
    eexists; vm_compute; reflexivity.
Qed.

Lemma security_down_answers_readable : answers_readable Scenario.security_down.
Proof.
  intros agent session_id prompt events text Hrun Htext. cbn in Hrun.
  destruct (String.eqb agent "security_agent"); [discriminate Hrun|].
  injection Hrun as <-. injection Htext as <-.
  apply worker_text_readable.
Qed.

(** One worker faults, the others and the report agent answer. *)
Lemma worker_faults_never_fail_the_job_witness :
  ∃ r w',
    Orchestrator.analyze_website Scenario.security_down Agents.ANALYSIS_AGENTS
      "https://example.com" initial_world = (Ret r, w') ∧
    (Orchestrator.status r = "completed" ∨ Orchestrator.status r = "partial").
Proof.
  apply (worker_faults_never_fail_the_job Scenario.security_down
           Agents.ANALYSIS_AGENTS "https://example.com" initial_world);
    try reflexivity.
  - exact security_down_answers_readable.
  - intros. by eexists.
Defined.

(* ================================================================== *)
(** * Spans *)
(* ================================================================== *)


(** Unfolds the monad down to pairs. *)
Ltac run_monad :=
  unfold bind, try_except, lift, modify, get, ret, raise in *; simpl in *.

(** Membership in a list that is written out. *)
Ltac in_list := repeat first [apply list_elem_of_here | apply list_elem_of_further].

(** Closes the side goals left by a case analysis. *)
Ltac unpack :=
  repeat match goal with
         | H : ∃ _, _ |- _ => destruct H
         | H : _ ∧ _ |- _ => destruct H
         end.

(** A text is not in a list of other texts. *)
Ltac not_in_list H :=
  repeat (apply elem_of_cons in H as [H|H]; [discriminate H|]);
  by apply elem_of_nil in H.

Ltac finish :=
  repeat split; intros;
  try done; try lia; try (in_list; fail);
  try (unpack; simplify_eq; simpl in *; congruence);
  try match goal with H : _ ∈ _ |- _ => simpl in H; exfalso; not_in_list H end.

(* ================================================================== *)
(** * Target normalisation in the tools *)
(* ================================================================== *)

Section Strip.

Lemma rstrip_nonspace c s :
  Py.isspace c = false → Py.rstrip (String c s) = String c (Py.rstrip s).
Proof. intros Hc. simpl. rewrite Hc. by destruct (Py.rstrip s). Qed.

Lemma rstrip_idempotent s : Py.rstrip (Py.rstrip s) = Py.rstrip s.
Proof.
  induction s as [|c s IH]; [done|]. simpl.
  destruct (Py.rstrip s) as [|c' r] eqn:E.
  - destruct (Py.isspace c) eqn:Hc; [done|]. simpl. by rewrite Hc.
  - change (Py.rstrip (String c (String c' r)) = String c (String c' r)).
    simpl. simpl in IH. by rewrite IH.
Qed.

Lemma lstrip_trimmed s : trimmed_left (Py.lstrip s).
Proof.
  induction s as [|c s IH]; [done|]. simpl.
  destruct (Py.isspace c) eqn:Hc; [done|]. exact Hc.
Qed.

Lemma lstrip_of_trimmed s : trimmed_left s → Py.lstrip s = s.
Proof. destruct s as [|c s]; [done|]. simpl. by intros ->. Qed.

Lemma rstrip_trimmed s : trimmed_left s → trimmed_left (Py.rstrip s).
Proof.
  destruct s as [|c s]; [done|]. intros Hc. simpl in Hc.
  by rewrite (rstrip_nonspace c s Hc).
Qed.

Lemma strip_fixed s : trimmed_left (Py.strip s) ∧ Py.rstrip (Py.strip s) = Py.strip s.
Proof.
  unfold Py.strip. split.
  - apply rstrip_trimmed, lstrip_trimmed.
  - apply rstrip_idempotent.
Qed.

Lemma strip_of_stripped s :
  trimmed_left s → Py.rstrip s = s → Py.strip s = s.
Proof. intros Hl Hr. unfold Py.strip. by rewrite (lstrip_of_trimmed s Hl). Qed.

Lemma strip_idempotent s : Py.strip (Py.strip s) = Py.strip s.
Proof. destruct (strip_fixed s). by apply strip_of_stripped. Qed.

Lemma strip_with_scheme s :
  Py.rstrip s = s → Py.strip ("https://" +:+ s) = "https://" +:+ s.
Proof.
  intros Hs. apply strip_of_stripped; [done|].
  change ("https://" +:+ s)
    with (String "h" (String "t" (String "t" (String "p" (String "s"
            (String ":" (String "/" (String "/" s)))))))).
  rewrite !rstrip_nonspace by done. by rewrite Hs.
Qed.
End Strip.

(** [normalize_url] always yields a target with a scheme, applying it
    twice is applying it once, it is the validator of the request model
    after [strip], and therefore every tool answers a target and its
    normalised form alike. *)
Theorem normalize_url_is_idempotent url :
  let target := Tools.normalize_url url in
  (Py.startswith "http://" target = true ∨ Py.startswith "https://" target = true) ∧
  Tools.normalize_url target = target ∧
  target = Server.validate_url (Py.strip url) ∧
  ∀ web,
    Tools.check_https_security web target = Tools.check_https_security web url ∧
    Tools.check_security_headers web target = Tools.check_security_headers web url ∧
    Tools.check_title_and_meta web target = Tools.check_title_and_meta web url ∧
    Tools.check_heading_structure web target = Tools.check_heading_structure web url ∧
    Tools.check_internal_links web target = Tools.check_internal_links web url ∧
    Tools.check_mobile_friendly web target = Tools.check_mobile_friendly web url ∧
    Tools.check_robots_and_sitemap web target
      = Tools.check_robots_and_sitemap web url ∧
    Tools.check_meta_robots web target = Tools.check_meta_robots web url.
Proof.
  assert (Hscheme : Py.startswith "http://" (Tools.normalize_url url) = true ∨
                    Py.startswith "https://" (Tools.normalize_url url) = true).
  { unfold Tools.normalize_url.
    destruct (Py.startswith "http://" (Py.strip url)) eqn:E1; [by left|].
    destruct (Py.startswith "https://" (Py.strip url)) eqn:E2; by right. }
  assert (Hidem : Tools.normalize_url (Tools.normalize_url url) = Tools.normalize_url url).
  { destruct (strip_fixed url) as [Hl Hr].
    assert (Hs : Py.strip (Tools.normalize_url url) = Tools.normalize_url url).
    { unfold Tools.normalize_url at 1 2.
      destruct (negb _); [by apply strip_with_scheme|apply strip_idempotent]. }
    unfold Tools.normalize_url at 1. rewrite Hs.
    by destruct Hscheme as [-> | ->]; simpl; rewrite ?orb_true_r. }
  cbv zeta. split; [exact Hscheme|]. split; [exact Hidem|]. split; [done|].
  intros web.
  unfold Tools.check_https_security, Tools.check_security_headers,
    Tools.check_title_and_meta, Tools.check_heading_structure,
    Tools.check_internal_links, Tools.check_mobile_friendly,
    Tools.check_robots_and_sitemap, Tools.check_meta_robots.
  cbv zeta. by rewrite Hidem.
Qed.

(* ================================================================== *)
(** * What the scores of the tools count *)
(* ================================================================== *)


Section SecurityHeaders.
Variable web : Tools.Web.

Lemma dict_set_fresh {V} k (v : V) d : k ∉ dict_keys d → dict_set k v d = d ++ [(k, v)].
Proof.
  induction d as [|[k' v'] d IH]; intros Hk; [done|]. simpl.
  destruct (String.eqb_spec k' k) as [->|Hne].
  - exfalso. apply Hk. apply list_elem_of_here.
  - rewrite IH; [done|]. intros Hin. apply Hk. by apply list_elem_of_further.
Qed.

Lemma served_key page h kv : served page h = Some kv → kv.1 = h.
Proof.
  unfold served. destruct (Tools.headers page h) as [v|]; [|done].
  destruct (Py.truthy_str v); [|done]. by intros [= <-].
Qed.

Lemma omap_served_keys page hs h :
  h ∈ dict_keys (omap (served page) hs) → h ∈ hs.
Proof.
  unfold dict_keys. intros Hin.
  apply list_elem_of_In, in_map_iff in Hin as ([k v] & <- & Hin).
  apply list_elem_of_In, list_elem_of_omap in Hin as (h' & Hh' & Hs).
  apply served_key in Hs. simpl in Hs. by subst.
Qed.

(** The loop over the headers, from any state of the result. *)
Lemma check_headers_loop page hs r :
  NoDup hs →
  (∀ h, h ∈ hs → h ∉ dict_keys (Tools.headers_found r)) →
  ∃ r',
    for_each hs (Tools.check_header page) r = (Ret tt, r') ∧
    Tools.headers_found r' = Tools.headers_found r ++ omap (served page) hs ∧
    Tools.missing_headers r' =
      Tools.missing_headers r ++ filter (λ h, served page h = None) hs ∧
    Tools.sh_score r' =
      Tools.sh_score r + 20 * Z.of_nat (length (omap (served page) hs)) ∧
    Tools.sh_error r' = Tools.sh_error r.
Proof.
  revert r. induction hs as [|h hs IH]; intros r Hnd Hfresh.
  { exists r. simpl. rewrite !app_nil_r. repeat split; try done; lia. }
  apply NoDup_cons in Hnd as [Hh Hnd].
  assert (Hhere : h ∉ dict_keys (Tools.headers_found r))
    by apply Hfresh, list_elem_of_here.
  cbn [for_each]. unfold bind at 1.
  assert (Hstep : ∃ r1,
    Tools.check_header page h r = (Ret tt, r1) ∧
    Tools.headers_found r1
      = Tools.headers_found r ++ option_list (served page h) ∧
    Tools.missing_headers r1
      = Tools.missing_headers r ++
        match served page h with Some _ => [] | None => [h] end ∧
    Tools.sh_score r1
      = Tools.sh_score r + 20 * Z.of_nat (length (option_list (served page h))) ∧
    Tools.sh_error r1 = Tools.sh_error r).
  { unfold Tools.check_header, served.
    destruct (Tools.headers page h) as [v|]; [destruct (Py.truthy_str v)|];
      unfold modify; eexists; (split; [reflexivity|]); simpl;
      rewrite ?app_nil_r, ?dict_set_fresh by done; repeat split; try done; lia. }
  destruct Hstep as (r1 & -> & Hf1 & Hm1 & Hs1 & He1).
  destruct (IH r1 Hnd) as (r' & -> & Hf & Hm & Hs & He).
  { intros h' Hin. rewrite Hf1. unfold dict_keys. rewrite map_app.
    intros [Hold|Hnew]%elem_of_app.
    - apply (Hfresh h'); [by apply list_elem_of_further|done].
    - destruct (served page h) as [kv|] eqn:E; [|by apply elem_of_nil in Hnew].
      apply served_key in E. simpl in Hnew. apply list_elem_of_singleton in Hnew.
      by subst. }
  exists r'. split; [done|]. rewrite Hf, Hm, Hs, He, Hf1, Hm1, Hs1, He1.
  cbn [omap list_omap]. rewrite filter_cons.
  destruct (served page h) as [kv|] eqn:E.
  - rewrite decide_False by done. simpl.
    rewrite <- !app_assoc, ?app_nil_r. repeat split; try done; lia.
  - rewrite decide_True by done. simpl.
    rewrite <- !app_assoc, ?app_nil_r. repeat split; try done; lia.
Qed.
End SecurityHeaders.

(** The header check gives 20 points for every header that is served
    with a value, so between 0 and 100; when the page answers with a
    status below 400 each of the five headers is filed exactly once, as
    found or as missing; a page that answers with an error status, or no
    answer at all, gives score 0 with nothing found, nothing missing and
    no fault recorded. *)
Theorem security_headers_score web url :
  let r := Tools.check_security_headers web url in
  Tools.sh_score r = 20 * Z.of_nat (length (Tools.headers_found r)) ∧
  0 ≤ Tools.sh_score r ≤ 100 ∧
  match Tools.fetch_page web (Tools.normalize_url url) None with
  | Ret (Some page) =>
      Tools.sh_error r = None ∧
      if Tools.ok page then
        Tools.headers_found r = omap (served page) Tools.important_headers ∧
        Tools.missing_headers r =
          filter (λ h, served page h = None) Tools.important_headers ∧
        (length (Tools.headers_found r) + length (Tools.missing_headers r) = 5)%nat
      else Tools.headers_found r = [] ∧ Tools.missing_headers r = []
  | Ret None =>
      Tools.sh_error r = None ∧
      Tools.headers_found r = [] ∧ Tools.missing_headers r = []
  | Raise e =>
      Tools.sh_error r = Some e ∧
      Tools.headers_found r = [] ∧ Tools.missing_headers r = []
  end.
Proof.
  assert (Hlen : ∀ page,
             (length (omap (served page) Tools.important_headers)
              + length (filter (λ h, served page h = None) Tools.important_headers)
              = 5)%nat).
  { intros page. unfold Tools.important_headers. cbn [omap list_omap].
    rewrite !filter_cons, filter_nil.
    repeat match goal with
           | |- context [served page ?h] => destruct (served page h)
           end; reflexivity. }
  assert (Hnd : NoDup Tools.important_headers).
  { unfold Tools.important_headers. by apply (bool_decide_unpack _). }
  cbv zeta. unfold Tools.check_security_headers.
  generalize (Tools.normalize_url url). clear url. intros url. cbv zeta.
  unfold try_except, bind, lift.
  destruct (Tools.fetch_page web url None) as [[page|]|msg];
    cbn -[for_each omap filter Tools.important_headers]; try done.
  destruct (Tools.ok page); cbn -[for_each omap filter Tools.important_headers];
    [|done].
  match goal with
  | |- context [for_each _ _ ?r0] =>
      destruct (check_headers_loop page Tools.important_headers r0 Hnd) as
        (r' & -> & Hf & Hm & Hs & He)
  end.
  { simpl. intros h _ Hin. by apply elem_of_nil in Hin. }
  cbn -[omap filter Tools.important_headers] in *. rewrite Hf, Hm, Hs, He.
  specialize (Hlen page). repeat split; try done; lia.
Qed.

Section TitleAndMeta.
Local Arguments Nat.leb : simpl never.
Local Arguments Nat.ltb : simpl never.



End TitleAndMeta.


Section HeadingStructure.
Local Opaque Py.str_nat.

Lemma heading_keys :
  Tools.heading_key 1 = "h1" ∧ Tools.heading_key 2 = "h2" ∧
  Tools.heading_key 3 = "h3" ∧ Tools.heading_key 4 = "h4" ∧
  Tools.heading_key 5 = "h5" ∧ Tools.heading_key 6 = "h6".
Proof. by vm_compute. Qed.

Ltac name_keys :=
  destruct heading_keys as (K1 & K2 & K3 & K4 & K5 & K6).

(** The score of a parsed page, by the number of headings of each
    level. *)
Lemma heading_score_by_counts soup r0 o r :
  Tools.h_score r0 = 0 → Tools.has_proper_hierarchy r0 = true →
  Tools.heading_hierarchy r0 = [] →
  (for_each Tools.heading_levels (Tools.count_headings soup) ;;
   Tools.check_h1 ;;
   Tools.check_levels Tools.heading_levels 0 ;;
   modify (λ r,
     if Tools.has_proper_hierarchy r && (Tools.h1_count r =? 1)%nat
     then Tools.h_update None (Tools.heading_hierarchy r)
            (Tools.has_proper_hierarchy r) [] 50 r
     else r)) r0 = (o, r) →
  let count i := length (Tools.headings soup i) in
  o = Ret tt ∧
  Tools.h_error r = Tools.h_error r0 ∧
  Tools.h1_count r = count 1%nat ∧
  (Tools.h_score r = 0 ↔ count 1%nat = 0%nat) ∧
  (Tools.h_score r = 25 ↔ (2 ≤ count 1%nat)%nat) ∧
  (Tools.h_score r = 50 ↔ count 1%nat = 1%nat ∧ ¬ no_level_skipped count) ∧
  (Tools.h_score r = 100 ↔ count 1%nat = 1%nat ∧ no_level_skipped count) ∧
  (Tools.has_proper_hierarchy r = true ↔
   count 1%nat = 1%nat ∧ no_level_skipped count).
Proof.
  destruct r0 as [tool0 url0 c0 t0 hh0 p0 i0 s0 e0]. simpl.
  intros -> -> ->. name_keys.
  unfold Tools.heading_levels, Tools.count_headings, Tools.check_h1.
  cbn [for_each Tools.check_levels]. rewrite K1, K2, K3, K4, K5, K6.
  cbv zeta. intros Hrun.
  set (count := λ i, length (Tools.headings soup i)).
  assert (Hskip : no_level_skipped count ↔
            (0 < count 2 → 0 < count 1)%nat ∧ (0 < count 3 → 0 < count 2)%nat ∧
            (0 < count 4 → 0 < count 3)%nat ∧ (0 < count 5 → 0 < count 4)%nat ∧
            (0 < count 6 → 0 < count 5)%nat).
  { unfold no_level_skipped. split.
    - intros H. repeat split; [apply (H 2%nat)|apply (H 3%nat)|apply (H 4%nat)
                               |apply (H 5%nat)|apply (H 6%nat)]; lia.
    - intros (H2 & H3 & H4 & H5 & H6) i Hi.
      assert (i = 2 ∨ i = 3 ∨ i = 4 ∨ i = 5 ∨ i = 6)%nat as [->|[->|[->|[->| ->]]]]
        by lia; done. }
  rewrite Hskip. clear Hskip. subst count. cbv beta.
  revert Hrun.
  generalize (map (substring 0 100) (Tools.headings soup 1)).
  generalize (length (Tools.headings soup 1)), (length (Tools.headings soup 2)),
    (length (Tools.headings soup 3)), (length (Tools.headings soup 4)),
    (length (Tools.headings soup 5)), (length (Tools.headings soup 6)).
  intros n1 n2 n3 n4 n5 n6 texts.
  unfold bind, modify, get, ret, raise. simpl.
  destruct n1 as [|[|n1]], n2 as [|n2], n3 as [|n3], n4 as [|n4], n5 as [|n5],
    n6 as [|n6]; simpl;
    intros [= <- <-]; simpl; repeat split; intros; try done; try lia;
    try (exfalso; intuition lia).
Qed.
End HeadingStructure.


(** The heading check of a page that was fetched and parsed: the score
    is 0 without an H1, 25 with several, 50 with exactly one H1 and a
    skipped level, and 100 exactly when there is one H1 and the levels
    in use are 1 to some [k]; the hierarchy is called proper in that
    last case only. *)
Theorem heading_score_is_full_iff_no_level_skipped web url page soup :
  Tools.fetch_page web (Tools.normalize_url url) None = Ret (Some page) →
  Tools.not_fetched (Some page) = false →
  Tools.BeautifulSoup web (Tools.text page) = Ret soup →
  let r := Tools.check_heading_structure web url in
  let count i := length (Tools.headings soup i) in
  Tools.h_error r = None ∧
  Tools.h1_count r = count 1%nat ∧
  (Tools.h_score r = 0 ↔ count 1%nat = 0%nat) ∧
  (Tools.h_score r = 25 ↔ (2 ≤ count 1%nat)%nat) ∧
  (Tools.h_score r = 50 ↔ count 1%nat = 1%nat ∧ ¬ no_level_skipped count) ∧
  (Tools.h_score r = 100 ↔ count 1%nat = 1%nat ∧ no_level_skipped count) ∧
  (Tools.has_proper_hierarchy r = true ↔
   count 1%nat = 1%nat ∧ no_level_skipped count).
Proof.
  intros Hfetch Hok Hsoup r count.
  assert (Hr : r = Tools.check_heading_structure web url) by done.
  clearbody r. unfold Tools.check_heading_structure in Hr. cbv zeta in Hr.
  unfold try_except, bind at 1, lift in Hr. rewrite Hfetch in Hr.
  cbn beta iota in Hr. rewrite Hok in Hr. unfold bind at 1 in Hr.
  rewrite Hsoup in Hr. cbn beta iota in Hr.
  match type of Hr with
  | r = snd (let (_, _) := ?body ?r0 in _) =>
      destruct (body r0) as [o r1] eqn:Hrun;
      destruct (heading_score_by_counts soup r0 o r1 eq_refl eq_refl eq_refl Hrun)
        as (-> & He & Hrest)
  end.
  simpl in Hr. subst r1. split; [by rewrite He|]. exact Hrest.
Qed.


(** The landing page has one H1 above two H2 and nothing below. *)
Lemma heading_score_is_full_iff_no_level_skipped_witness :
  Tools.h_score (Tools.check_heading_structure Scenario.landing_page "example.com")
    = 100 ∧
  Tools.has_proper_hierarchy
    (Tools.check_heading_structure Scenario.landing_page "example.com") = true.
Proof.
  destruct (heading_score_is_full_iff_no_level_skipped Scenario.landing_page
              "example.com" _ Scenario.landing_soup eq_refl eq_refl eq_refl)
    as (_ & _ & _ & _ & _ & [_ Hfull] & [_ Hproper]).
  assert (Hlevels : (length (Tools.headings Scenario.landing_soup 1) = 1)%nat ∧
                    no_level_skipped
                      (λ i, length (Tools.headings Scenario.landing_soup i))).
  { split; [reflexivity|]. intros i Hi.
    assert (i = 2 ∨ i = 3 ∨ i = 4 ∨ i = 5 ∨ i = 6)%nat as [->|[->|[->|[->| ->]]]]
      by lia; simpl; lia. }
  split; [by apply Hfull|by apply Hproper].
Defined.

(** The robots check starts from 100 and takes off 50 for a [noindex]
    in the meta tag, 25 for a [nofollow] there and 50 for a [noindex] in
    the [X-Robots-Tag] header: the score is one of 100, 75, 50, 25, 0 and
    -25, it is 100 exactly when the page is reported indexable and
    followable, and it is negative exactly when all three directives
    are present, as on the page of the second part. *)
Theorem meta_robots_score_can_be_negative :
  (∀ web url,
     let r := Tools.check_meta_robots web url in
     Tools.mr_score r ∈ [100; 75; 50; 25; 0; -25] ∧
     (Tools.mr_score r = 100 ↔
      Tools.is_indexable r = true ∧ Tools.is_followable r = true) ∧
     (Tools.is_indexable r = true → 75 ≤ Tools.mr_score r) ∧
     (Tools.mr_score r < 0 ↔
      ∃ page soup content,
        Tools.fetch_page web (Tools.normalize_url url) None = Ret (Some page) ∧
        Tools.not_fetched (Some page) = false ∧
        Tools.BeautifulSoup web (Tools.text page) = Ret soup ∧
        Tools.meta_robots soup = Some content ∧
        Py.contains "noindex" (Py.lower (default "" content)) = true ∧
        Py.contains "nofollow" (Py.lower (default "" content)) = true ∧
        Py.contains "noindex"
          (Py.lower (default "" (Tools.headers page "X-Robots-Tag"))) = true)) ∧
  Tools.mr_score (Tools.check_meta_robots Scenario.hidden_page "example.com") = -25.
Proof.
  split; [|by vm_compute].
  intros web url. cbv zeta. unfold Tools.check_meta_robots.
  generalize (Tools.normalize_url url). clear url. intros url. cbv zeta.
  unfold Tools.check_meta_tag, Tools.check_x_robots.
  destruct (Tools.fetch_page web url None) as [[page|]|msg]; run_monad;
    [|by finish..].
  destruct (negb (Tools.ok page) || negb (Tools.status_code page =? 200)) eqn:Hok;
    simpl; [by finish|].
  destruct (Tools.BeautifulSoup web (Tools.text page)) as [soup|msg] eqn:Hsoup;
    simpl; [|by finish].
  set (x_robots := Py.lower (default "" (Tools.headers page "X-Robots-Tag"))).
  assert (Hx : Py.contains "noindex" x_robots = true → Py.truthy_str x_robots = true).
  { by destruct x_robots. }
  destruct (Tools.meta_robots soup) as [attribute|] eqn:Hmeta; simpl.
  - set (content := Py.lower (default "" attribute)).
    destruct (Py.contains "noindex" content) eqn:E1;
      destruct (Py.contains "nofollow" content) eqn:E2;
      destruct (Py.contains "noindex" x_robots) eqn:E3;
      destruct (Py.truthy_str x_robots) eqn:E4; simpl; try (by specialize (Hx eq_refl));
      subst content x_robots; finish.
    by exists page, soup, attribute.
  - destruct (Py.contains "noindex" x_robots) eqn:E3;
      destruct (Py.truthy_str x_robots) eqn:E4; simpl; subst x_robots; finish.
Qed.


Section InternalLinks.

(** The loop over the links: every link is counted at most once. *)
Lemma count_links_loop base_url links r :
  ∃ r',
    for_each links (Tools.count_link base_url) r = (Ret tt, r') ∧
    Tools.total_links r' = Tools.total_links r ∧
    (Tools.internal_links r' + Tools.external_links r'
     ≤ Tools.internal_links r + Tools.external_links r + length links)%nat ∧
    Tools.has_good_internal_linking r' = Tools.has_good_internal_linking r ∧
    Tools.il_error r' = Tools.il_error r.
Proof.
  revert r. induction links as [|href links IH]; intros r.
  { exists r. simpl. repeat split; try done; lia. }
  cbn [for_each]. unfold bind at 1.
  assert (∃ r1, Tools.count_link base_url href r = (Ret tt, r1) ∧
                Tools.total_links r1 = Tools.total_links r ∧
                (Tools.internal_links r1 + Tools.external_links r1
                 ≤ Tools.internal_links r + Tools.external_links r + 1)%nat ∧
                Tools.has_good_internal_linking r1
                  = Tools.has_good_internal_linking r ∧
                Tools.il_error r1 = Tools.il_error r)
    as (r1 & -> & Ht & Hc & Hg & He).
  { unfold Tools.count_link.
    destruct (_ || _); [|destruct (_ || _); [|destruct (Py.startswith "http" href)]];
      unfold modify, ret; eexists; (split; [reflexivity|]); simpl;
      repeat split; try done; lia. }
  destruct (IH r1) as (r' & -> & Ht' & Hc' & Hg' & He').
  exists r'. split; [done|]. rewrite Ht', He', Hg', Ht, He, Hg. simpl length.
  repeat split; try done; lia.
Qed.
End InternalLinks.

(** The link check raises exactly when the target cannot be parsed
    (the base URL is computed before the guarded block).  Otherwise the
    links counted as internal and as external are never more than the
    links found, and when no fault is recorded the score is read off the
    number of internal links: 100 from five, 75 from three, 50 from one,
    25 for none. *)
Theorem internal_links_score web url :
  match Tools.check_internal_links web url with
  | Raise msg => Tools.urlparse web (Tools.normalize_url url) = Raise msg
  | Ret r =>
      (∃ parsed, Tools.urlparse web (Tools.normalize_url url) = Ret parsed) ∧
      (Tools.internal_links r + Tools.external_links r ≤ Tools.total_links r)%nat ∧
      (Tools.il_error r = None →
       Tools.il_score r =
         (if (5 <=? Tools.internal_links r)%nat then 100
          else if (3 <=? Tools.internal_links r)%nat then 75
          else if (1 <=? Tools.internal_links r)%nat then 50 else 25) ∧
       (Tools.has_good_internal_linking r = true ↔
        (5 ≤ Tools.internal_links r)%nat))
  end.
Proof.
  unfold Tools.check_internal_links, Tools.get_base_url.
  generalize (Tools.normalize_url url). clear url. intros url. cbv zeta.
  destruct (Tools.urlparse web url) as [parsed|msg]; [|done].
  split; [by eexists|].
  match goal with |- context [snd ?t] => remember (snd t) as r eqn:Hr end.
  revert Hr. unfold try_except, bind at 1, lift.
  destruct (Tools.fetch_page web url None) as [[page|]|msg]; simpl;
    [|by intros ->; finish..].
  destruct (negb (Tools.ok page) || negb (Tools.status_code page =? 200)); simpl;
    [by intros ->; finish|].
  unfold bind at 1.
  destruct (Tools.BeautifulSoup web (Tools.text page)) as [soup|msg]; simpl;
    [|by intros ->; finish].
  unfold bind at 1. unfold modify at 1. cbn beta iota.
  unfold bind at 1.
  match goal with
  | |- context [for_each _ _ ?r0] =>
      destruct (count_links_loop (Tools.scheme parsed +:+ "://" +:+ Tools.netloc parsed)
                  (Tools.anchors soup) r0) as (r' & -> & Ht & Hc & Hg & He)
  end.
  intros Hr. subst r.
  simpl in Ht, Hc, Hg, He. unfold Tools.score_links, modify. cbn beta iota.
  revert Hc. generalize (Tools.external_links r').
  destruct (Tools.internal_links r') as [|[|[|[|[|n]]]]]; intros external Hc;
    simpl; rewrite ?Ht, ?He, ?Hg; finish.
Qed.

Section RobotsAndSitemap.
Variable web : Tools.Web.

Ltac invariant_step :=
  intros r (He & Hs & Ha & Hm); unfold modify, ret, raise; simpl;
  unfold robots_invariant; simpl; rewrite ?He, ?Hs;
  repeat split; intros; try done; try lia; try (by apply Ha); try (by apply Hm);
  try (by eexists).

Lemma read_sitemap_line_invariant line :
  hoare robots_invariant (Tools.read_sitemap_line line)
    (λ _, robots_invariant) (λ _, robots_invariant).
Proof.
  unfold Tools.read_sitemap_line.
  destruct (Py.startswith _ _); [|by intros r].
  destruct (_ !! _) as [rest|]; [|by intros r].
  invariant_step.
Qed.

Lemma check_robots_invariant robots_response :
  hoare (λ r, robots_invariant r ∧ Tools.has_robots_txt r = false)
    (Tools.check_robots robots_response)
    (λ _, robots_invariant) (λ _, robots_invariant).
Proof.
  unfold Tools.check_robots.
  assert (Hmissing :
            hoare (λ r, robots_invariant r ∧ Tools.has_robots_txt r = false)
              (modify (λ r, Tools.rs_update (Tools.has_robots_txt r)
                              (Tools.robots_allows_crawling r) (Tools.has_sitemap r)
                              (Tools.sitemap_url r) ["No robots.txt found"] 0 r))
              (λ _, robots_invariant) (λ _, robots_invariant)).
  { intros r [Hr _]. revert r Hr. invariant_step. }
  destruct robots_response as [page|]; [|exact Hmissing].
  destruct (Tools.is_200 (Some page)); [|exact Hmissing].
  apply hoare_bind with
    (mid := λ _ r, robots_invariant r ∧ Tools.has_robots_txt r = true).
  { intros r ((He & Hs & Ha & Hm) & Hr). unfold modify. simpl.
    unfold robots_invariant. simpl. rewrite He, Hs, Hr.
    repeat split; try done; apply Hm. }
  intros _.
  apply hoare_bind with (mid := λ _, robots_invariant).
  { destruct (_ && _); [destruct (Py.contains "user-agent: *" _)|].
    - intros r ((He & Hs & Ha & Hm) & Hr). unfold modify. simpl.
      unfold robots_invariant. simpl. rewrite He, Hs, Hr.
      repeat split; try done; apply Hm.
    - by intros r [? _].
    - by intros r [? _]. }
  intros _. apply hoare_for_each. intros line. apply read_sitemap_line_invariant.
Qed.

Lemma check_sitemap_invariant base_url :
  hoare robots_invariant (Tools.check_sitemap web base_url)
    (λ _, robots_invariant) (λ _, robots_invariant).
Proof.
  unfold Tools.check_sitemap.
  apply hoare_bind with (mid := λ r0 r, r0 = r ∧ robots_invariant r).
  { by intros r. }
  intros r0. destruct (negb (Tools.has_sitemap r0)); [|by intros r [_ ?]].
  apply hoare_bind with (mid := λ _, robots_invariant).
  { intros r [_ Hr]. unfold lift. by destruct (Tools.fetch_page _ _ _). }
  intros sitemap_response. destruct (Tools.is_200 sitemap_response); invariant_step.
Qed.
End RobotsAndSitemap.

(** The robots and sitemap check raises exactly when the target cannot
    be parsed (the base URL is computed before the guarded block).
    When it returns without a recorded fault the score is 25 for a
    robots.txt, 50 for a sitemap and 25 for crawling being allowed;
    since crawling counts as allowed unless a robots.txt says otherwise,
    that score is never below 25, also for a site with neither file. *)
Theorem robots_score_is_at_least_25 web url :
  match Tools.check_robots_and_sitemap web url with
  | Raise msg => Tools.urlparse web (Tools.normalize_url url) = Raise msg
  | Ret r =>
      (∃ parsed, Tools.urlparse web (Tools.normalize_url url) = Ret parsed) ∧
      0 ≤ Tools.rs_score r ≤ 100 ∧
      (Tools.rs_error r = None →
       Tools.rs_score r =
         (if Tools.has_robots_txt r then 25 else 0) +
         (if Tools.has_sitemap r then 50 else 0) +
         (if Tools.robots_allows_crawling r then 25 else 0) ∧
       25 ≤ Tools.rs_score r ∧
       (Tools.robots_allows_crawling r = false → Tools.has_robots_txt r = true) ∧
       (Tools.has_sitemap r = true ↔ is_Some (Tools.sitemap_url r)))
  end.
Proof.
  unfold Tools.check_robots_and_sitemap, Tools.get_base_url.
  generalize (Tools.normalize_url url). clear url. intros url. cbv zeta.
  destruct (Tools.urlparse web url) as [parsed|msg]; [|done].
  split; [by eexists|].
  set (base_url := Tools.scheme parsed +:+ "://" +:+ Tools.netloc parsed).
  match goal with |- context [snd (?m ?r0)] =>
    assert (Hrun : hoare (λ r, r = r0) m
              (λ _ r,
                 0 ≤ Tools.rs_score r ≤ 100 ∧
                 (Tools.rs_error r = None →
                  Tools.rs_score r =
                    (if Tools.has_robots_txt r then 25 else 0) +
                    (if Tools.has_sitemap r then 50 else 0) +
                    (if Tools.robots_allows_crawling r then 25 else 0) ∧
                  25 ≤ Tools.rs_score r ∧
                  (Tools.robots_allows_crawling r = false →
                   Tools.has_robots_txt r = true) ∧
                  (Tools.has_sitemap r = true ↔ is_Some (Tools.sitemap_url r))))
              (λ _ _, False));
    [|specialize (Hrun r0 eq_refl); by destruct (m r0) as [[[]|msg] r]]
  end.
  assert (Hfinal : ∀ r, robots_invariant r →
            let r' := (if Tools.robots_allows_crawling
                            (if Tools.has_sitemap r then Tools.rs_add 50 r else r)
                       then Tools.rs_add 25
                              (if Tools.has_sitemap r then Tools.rs_add 50 r else r)
                       else (if Tools.has_sitemap r then Tools.rs_add 50 r else r)) in
            0 ≤ Tools.rs_score r' ≤ 100 ∧
            (Tools.rs_error r' = None →
             Tools.rs_score r' =
               (if Tools.has_robots_txt r' then 25 else 0) +
               (if Tools.has_sitemap r' then 50 else 0) +
               (if Tools.robots_allows_crawling r' then 25 else 0) ∧
             25 ≤ Tools.rs_score r' ∧
             (Tools.robots_allows_crawling r' = false →
              Tools.has_robots_txt r' = true) ∧
             (Tools.has_sitemap r' = true ↔ is_Some (Tools.sitemap_url r')))).
  { intros r (He & Hs & Ha & Hm). cbv zeta.
    destruct (Tools.has_sitemap r) eqn:E1; simpl;
      destruct (Tools.robots_allows_crawling r) eqn:E2; simpl;
      rewrite ?E1, ?E2, ?Hs;
      destruct (Tools.has_robots_txt r) eqn:E3;
      try (by specialize (Ha eq_refl));
      repeat split; intros; try done; try lia; try (by apply Hm). }
  eapply hoare_try_except with
    (caught := λ _ r, robots_invariant r).
  - apply hoare_bind with
      (mid := λ _ r, robots_invariant r ∧ Tools.has_robots_txt r = false).
    { intros r ->. unfold lift.
      assert (robots_invariant
                {| Tools.rs_tool := "check_robots_and_sitemap"; Tools.rs_url := url;
                   Tools.has_robots_txt := false;
                   Tools.robots_allows_crawling := true;
                   Tools.has_sitemap := false; Tools.sitemap_url := None;
                   Tools.rs_issues := []; Tools.rs_score := 0;
                   Tools.rs_error := None |}).
      { unfold robots_invariant. simpl. repeat split; try done. }
      by destruct (Tools.fetch_page _ _ _). }
    intros robots_response.
    eapply hoare_bind; [apply check_robots_invariant|]. intros ?.
    eapply hoare_bind; [apply check_sitemap_invariant|]. intros ?.
    intros r Hr. unfold bind, modify. simpl. by apply Hfinal.
  - intros msg r (He & Hs & Ha & Hm). unfold modify. simpl.
    rewrite Hs. split; [destruct (Tools.has_robots_txt r); lia|done].
Qed.

(* ================================================================== *)
(** * The tables of the store *)
(* ================================================================== *)

(** A job that has been created is read back as a pending row for its
    target by every read that the store lets through (a read whose
    connection faults raises that fault; no read changes the store);
    creation fails, leaving the store as it was, exactly when the store
    faults or the identifier is taken, and the identifier being the
    first eight characters of the uuid, a second job whose uuid starts
    with the same eight characters cannot be created. *)
Theorem created_job_is_read_back env uuid url d :
  let unique_identifier := substring 0 8 uuid in
  match Database.create_analysis_request env uuid url d with
  | (Ret request_data, d') =>
      Database.unique_identifier request_data = unique_identifier ∧
      Database.analysis_requests d !! unique_identifier = None ∧
      Database.get_request_by_identifier env unique_identifier d'
        = (match db_read_fault env "analysis_requests" unique_identifier with
           | Some fault => Raise fault
           | None => Ret (Some (row_pending url))
           end, d') ∧
      (∀ other, other ≠ unique_identifier →
         Database.analysis_requests d' !! other = Database.analysis_requests d !! other) ∧
      Database.analysis_logs d' = Database.analysis_logs d ∧
      ∀ uuid' url',
        substring 0 8 uuid' = unique_identifier →
        db_create_fault env url' = None →
        Database.create_analysis_request env uuid' url' d'
          = (Raise "UNIQUE constraint failed: analysis_requests.unique_identifier", d')
  | (Raise msg, d') =>
      d' = d ∧
      (db_create_fault env url = Some msg ∨
       db_create_fault env url = None ∧
       is_Some (Database.analysis_requests d !! unique_identifier))
  end.
Proof.
  cbv zeta. unfold Database.create_analysis_request, Database.get_request_by_identifier.
  destruct (db_create_fault env url) as [fault|] eqn:Hfault.
  { simpl. split; [done|]. by left. }
  destruct (Database.analysis_requests d !! substring 0 8 uuid) as [row|] eqn:Hrow.
  { split; [done|]. right. split; [done|]. by eexists. }
  simpl. repeat split; try done.
  - destruct (db_read_fault env "analysis_requests" (substring 0 8 uuid)); [done|].
    simpl. by rewrite lookup_insert_eq.
  - intros other Hne. by rewrite lookup_insert_ne.
  - intros uuid' url' -> ->. simpl. by rewrite lookup_insert_eq.
Qed.

Section Rows.
Variable env : Env.

Lemma keeps_refl row : keeps row row.
Proof. by repeat split. Qed.

Lemma keeps_trans row1 row2 row3 : keeps row1 row2 → keeps row2 row3 → keeps row1 row3.
Proof.
  intros (Hu & Hc & Ha & Hr & He) (Hu' & Hc' & Ha' & Hr' & He').
  repeat split; [congruence|auto..].
Qed.

Lemma updated_row_keeps row status doc report_markdown error_message :
  keeps row (Database.updated_row row status doc report_markdown error_message).
Proof.
  unfold keeps, Database.updated_row. simpl. repeat split.
  - intros ->. by destruct (String.eqb status "completed").
  - intros H. by destruct doc.
  - intros H. destruct report_markdown as [text|]; [|done].
    by destruct (Py.truthy_str text).
  - intros H. destruct error_message as [text|]; [|done].
    by destruct (Py.truthy_str text).
Qed.

(** One call: a row that is there stays, with what it has. *)
Lemma after_call_keeps c d unique_identifier row :
  Database.analysis_requests d !! unique_identifier = Some row →
  ∃ row',
    Database.analysis_requests (after_call env d c) !! unique_identifier = Some row' ∧
    keeps row row'.
Proof.
  intros Hrow. destruct c as [uuid url|uid status doc report err|rid agent action det dur];
    simpl.
  - unfold Database.create_analysis_request.
    destruct (db_create_fault env url); [by exists row; split; [|apply keeps_refl]|].
    destruct (Database.analysis_requests d !! substring 0 8 uuid) eqn:E; simpl;
      [by exists row; split; [|apply keeps_refl]|].
    exists row. split; [|apply keeps_refl].
    rewrite lookup_insert_ne; [done|]. intros <-. congruence.
  - unfold Database.update_request_status.
    destruct (db_update_fault env uid status);
      [by exists row; split; [|apply keeps_refl]|].
    destruct (Database.analysis_requests d !! uid) as [row0|] eqn:E; simpl;
      [|by exists row; split; [|apply keeps_refl]].
    destruct (decide (uid = unique_identifier)) as [->|Hne].
    + rewrite lookup_insert_eq. eexists. split; [done|].
      assert (row0 = row) as -> by congruence. apply updated_row_keeps.
    + rewrite lookup_insert_ne by done. exists row. split; [done|apply keeps_refl].
  - unfold Database.log_agent_action.
    destruct (db_log_fault env rid agent action); simpl;
      by exists row; split; [|apply keeps_refl].
Qed.

(** One call: only [create_analysis_request] makes a row. *)
Lemma after_call_absent c d unique_identifier :
  Database.analysis_requests d !! unique_identifier = None →
  (∀ uuid url, c = Create uuid url → substring 0 8 uuid ≠ unique_identifier) →
  Database.analysis_requests (after_call env d c) !! unique_identifier = None.
Proof.
  intros Hrow Hc. destruct c as [uuid url|uid status doc report err|rid agent action det dur];
    simpl.
  - unfold Database.create_analysis_request.
    destruct (db_create_fault env url); [done|].
    destruct (Database.analysis_requests d !! substring 0 8 uuid) eqn:E; simpl; [done|].
    rewrite lookup_insert_ne; [done|]. by apply (Hc uuid url).
  - unfold Database.update_request_status.
    destruct (db_update_fault env uid status); [done|].
    destruct (Database.analysis_requests d !! uid) as [row0|] eqn:E; simpl; [|done].
    rewrite lookup_insert_ne; [done|]. intros <-. congruence.
  - unfold Database.log_agent_action.
    by destruct (db_log_fault env rid agent action).
Qed.

Lemma after_call_logs c d :
  ∃ added,
    Database.analysis_logs (after_call env d c) = Database.analysis_logs d ++ added.
Proof.
  destruct c as [uuid url|uid status doc report err|rid agent action det dur]; simpl.
  - unfold Database.create_analysis_request.
    destruct (db_create_fault env url); [by exists []; rewrite app_nil_r|].
    destruct (Database.analysis_requests d !! substring 0 8 uuid); simpl;
      by exists []; rewrite app_nil_r.
  - unfold Database.update_request_status.
    destruct (db_update_fault env uid status); [by exists []; rewrite app_nil_r|].
    destruct (Database.analysis_requests d !! uid); simpl;
      by exists []; rewrite app_nil_r.
  - unfold Database.log_agent_action.
    destruct (db_log_fault env rid agent action); simpl;
      [by exists []; rewrite app_nil_r|by eexists].
Qed.
End Rows.

(** Whatever the users of the client call, in whatever order, and
    whichever of these calls fault: a job row that exists is never
    removed and keeps its target; its completion mark, result document,
    report and error message, once set, stay set (a status update
    carrying nothing, or an empty text, for a column leaves the column
    as it is); a row appears only through [create_analysis_request],
    never through a status update of an unknown identifier; and the log
    table only grows. *)
Theorem rows_are_never_lost env cs d :
  (∀ unique_identifier row,
     Database.analysis_requests d !! unique_identifier = Some row →
     ∃ row',
       Database.analysis_requests (after_calls env cs d) !! unique_identifier
         = Some row' ∧
       keeps row row') ∧
  (∀ unique_identifier,
     Database.analysis_requests d !! unique_identifier = None →
     (∀ uuid url, Create uuid url ∈ cs → substring 0 8 uuid ≠ unique_identifier) →
     Database.analysis_requests (after_calls env cs d) !! unique_identifier = None) ∧
  (∃ added,
     Database.analysis_logs (after_calls env cs d) = Database.analysis_logs d ++ added).
Proof.
  unfold after_calls. revert d. induction cs as [|c cs IH]; intros d; simpl.
  { repeat split.
    - intros id row Hrow. exists row. split; [done|apply keeps_refl].
    - done.
    - exists []. by rewrite app_nil_r. }
  destruct (IH (after_call env d c)) as (Hkeep & Habsent & [added Hlogs]).
  repeat split.
  - intros id row Hrow.
    destruct (after_call_keeps env c d id row Hrow) as (row1 & Hrow1 & Hk1).
    destruct (Hkeep id row1 Hrow1) as (row2 & Hrow2 & Hk2).
    exists row2. split; [done|]. by apply keeps_trans with row1.
  - intros id Hrow Hc. apply Habsent.
    + apply after_call_absent; [done|]. intros uuid url ->.
      apply (Hc uuid url), list_elem_of_here.
    + intros uuid url Hin. by apply (Hc uuid url), list_elem_of_further.
  - destruct (after_call_logs env c d) as [added1 Hlogs1].
    exists (added1 ++ added). by rewrite Hlogs, Hlogs1, app_assoc.
Qed.

(** A job that completed and is then marked as failed with an empty
    message keeps its completion mark and its report. *)
Lemma rows_are_never_lost_witness :
  ∃ row',
    Database.analysis_requests
      (after_calls Scenario.healthy
         [Update "3f2a9c1e" "failed" None (Some "") (Some "");
          Log "3f2a9c1e" "orchestrator" "retry" None None;
          Update "0badc0de" "analyzing" None None None]
         (after_calls Scenario.healthy
            [Create "3f2a9c1e-77d4-4b0a-9c51-000000000000" "https://example.com";
             Update "3f2a9c1e" "completed" None (Some "# Report") None]
            Database.empty))
      !! "3f2a9c1e" = Some row' ∧
    Database.completed_at row' = true ∧
    Database.report_markdown row' = Some "# Report" ∧
    Database.status row' = "failed".
Proof.
  destruct (rows_are_never_lost Scenario.healthy
              [Update "3f2a9c1e" "failed" None (Some "") (Some "");
               Log "3f2a9c1e" "orchestrator" "retry" None None;
               Update "0badc0de" "analyzing" None None None]
              (after_calls Scenario.healthy
                 [Create "3f2a9c1e-77d4-4b0a-9c51-000000000000" "https://example.com";
                  Update "3f2a9c1e" "completed" None (Some "# Report") None]
                 Database.empty)) as (Hkeep & _ & _).
  destruct (Hkeep "3f2a9c1e"
              {| Database.website_url := "https://example.com";
                 Database.status := "completed"; Database.completed_at := true;
                 Database.analysis_result := None;
                 Database.report_markdown := Some "# Report";
                 Database.error_message := None |} eq_refl)
    as (row' & Hrow' & Hk).
  exists row'. split; [exact Hrow'|].
  vm_compute in Hrow'. injection Hrow' as <-. by repeat split.
Defined.

(** Reading the log of a request raises the fault of the store when
    the connection cannot be opened, and otherwise returns rows that
    all carry the identifier of that request; no read changes the
    store.  After a log write that returns, a read of its request that
    the store lets through returns the rows read before and the new
    row; the rows read back for any other request are the same as
    before.  A log write that faults leaves the store as it was. *)
Theorem logged_action_is_read_back env request_id agent_name action details
    duration_ms d :
  let read request d := Database.get_analysis_logs env request d in
  (∀ request,
     match db_read_fault env "analysis_logs" request with
     | Some fault => read request d = (Raise fault, d)
     | None =>
         ∃ rows,
           read request d = (Ret rows, d) ∧
           ∀ row, row ∈ rows → Database.l_request_id row = request
     end) ∧
  match Database.log_agent_action env request_id agent_name action details
          duration_ms d with
  | (Ret _, d') =>
      match db_read_fault env "analysis_logs" request_id with
      | Some fault => read request_id d' = (Raise fault, d')
      | None =>
          ∃ before after,
            read request_id d = (Ret before, d) ∧
            read request_id d' = (Ret after, d') ∧
            after ≡ₚ
              {| Database.l_request_id := request_id;
                 Database.l_agent_name := agent_name; Database.l_action := action;
                 Database.l_details := details;
                 Database.l_duration_ms := duration_ms |} :: before
      end ∧
      (∀ other, other ≠ request_id →
                fst (read other d') = fst (read other d)) ∧
      db_core d' = db_core d
  | (Raise msg, d') => d' = d ∧ db_log_fault env request_id agent_name action = Some msg
  end.
Proof.
  cbv zeta. unfold Database.get_analysis_logs, Database.log_agent_action.
  split.
  { intros request. destruct (db_read_fault env "analysis_logs" request); [done|].
    eexists. split; [done|].
    intros row Hin. by apply list_elem_of_filter in Hin as [? _]. }
  destruct (db_log_fault env request_id agent_name action) as [fault|]; [done|].
  unfold modify. simpl. split; [|split; [|done]].
  - destruct (db_read_fault env "analysis_logs" request_id); [done|].
    eexists _, _. split; [done|]. split; [done|]. simpl.
    rewrite filter_app, filter_cons, decide_True, filter_nil by done.
    by rewrite Permutation_app_comm.
  - intros other Hne. destruct (db_read_fault env "analysis_logs" other); [done|].
    simpl. by rewrite filter_app, filter_cons, decide_False, filter_nil, app_nil_r.
Qed.

(* ================================================================== *)
(** * Session states *)
(* ================================================================== *)

(** Saving a state under a session identifier that is already in the
    table replaces the state and keeps the agent name of the first
    save; what is read back is the text written by [json.dumps] passed
    through [json.loads] (or the text itself when it is empty). *)
Theorem saved_state_keeps_the_first_agent {J} (dumps : J → outcome string)
    (loads : string → outcome J) upsert_fault select_fault
    session_id agent1 agent2 (state1 state2 : J) text1 text2 session_states :
  session_states !! session_id = None →
  upsert_fault session_id = None → select_fault session_id = None →
  dumps state1 = Ret text1 → dumps state2 = Ret text2 →
  let saved1 :=
    snd (Database.save_session_state dumps upsert_fault session_id agent1 state1
           session_states) in
  let saved2 :=
    snd (Database.save_session_state dumps upsert_fault session_id agent2 state2
           saved1) in
  saved2 !! session_id
    = Some {| Database.ss_agent_name := agent1; Database.ss_state_data := text2 |} ∧
  (∀ other, other ≠ session_id → saved2 !! other = session_states !! other) ∧
  fst (Database.get_session_state loads select_fault session_id saved2) =
    if Py.truthy_str text2 then
      match loads text2 with
      | Ret value =>
          Ret (Some {| Database.g_session_id := session_id;
                       Database.g_agent_name := agent1;
                       Database.g_state_data := Database.Loaded value |})
      | Raise msg => Raise msg
      end
    else
      Ret (Some {| Database.g_session_id := session_id;
                   Database.g_agent_name := agent1;
                   Database.g_state_data := Database.Stored text2 |}).
Proof.
  intros Hfresh Hupsert Hselect Hd1 Hd2.
  unfold Database.save_session_state, Database.get_session_state.
  rewrite Hd1, Hd2, Hupsert, Hselect. simpl. rewrite Hfresh, lookup_insert_eq.
  simpl. rewrite insert_insert_eq, lookup_insert_eq. simpl.
  split; [done|]. split.
  - intros other Hne. by rewrite lookup_insert_ne.
  - destruct (Py.truthy_str text2); [|done]. by destruct (loads text2).
Qed.

(** The state 7 saved by one agent, then 42 saved under the same
    session by another: 42 is read back, under the name of the first. *)
Lemma saved_state_keeps_the_first_agent_witness :
  fst (Database.get_session_state loads_int (λ _, None) "seo_session_3f2a9c1e"
         (snd (Database.save_session_state dumps_int (λ _, None)
                 "seo_session_3f2a9c1e" "report_agent" 42
                 (snd (Database.save_session_state dumps_int (λ _, None)
                         "seo_session_3f2a9c1e" "security_agent" 7 ∅)))))
  = Ret (Some {| Database.g_session_id := "seo_session_3f2a9c1e";
                 Database.g_agent_name := "security_agent";
                 Database.g_state_data := Database.Loaded 42 |}).
Proof.
  destruct (saved_state_keeps_the_first_agent dumps_int loads_int (λ _, None)
              (λ _, None) "seo_session_3f2a9c1e" "security_agent" "report_agent"
              7 42 "7" "42" ∅ (lookup_empty _) eq_refl eq_refl eq_refl eq_refl)
    as (_ & _ & Hget).
  exact Hget.
Defined.

(* ================================================================== *)
(** * Metrics *)
(* ================================================================== *)

Section Metrics.
Context {K : Type} `{EqDecision K}.

Lemma entry_bump_eq (key : K) value cs :
  entry key (Observability.bump key value cs) = Some (default 0 (entry key cs) + value).
Proof.
  induction cs as [|[k v] cs IH]; simpl.
  - by rewrite decide_True.
  - destruct (decide (k = key)) as [->|Hne]; simpl.
    + by rewrite decide_True.
    + by rewrite decide_False.
Qed.

Lemma entry_bump_ne (key key' : K) value cs :
  key' ≠ key → entry key' (Observability.bump key value cs) = entry key' cs.
Proof.
  intros Hne. induction cs as [|[k v] cs IH]; simpl.
  - by destruct (decide (key = key')).
  - destruct (decide (k = key)) as [->|Hk]; simpl.
    + by destruct (decide (key = key')).
    + by rewrite IH.
Qed.

Lemma entry_observe_eq (key : K) value hs :
  entry key (Observability.observe key value hs)
  = Some (default [] (entry key hs) ++ [value]).
Proof.
  induction hs as [|[k v] hs IH]; simpl.
  - by rewrite decide_True.
  - destruct (decide (k = key)) as [->|Hne]; simpl.
    + by rewrite decide_True.
    + by rewrite decide_False.
Qed.

Lemma entry_observe_ne (key key' : K) value hs :
  key' ≠ key → entry key' (Observability.observe key value hs) = entry key' hs.
Proof.
  intros Hne. induction hs as [|[k v] hs IH]; simpl.
  - by destruct (decide (key = key')).
  - destruct (decide (k = key)) as [->|Hk]; simpl.
    + by destruct (decide (key = key')).
    + by rewrite IH.
Qed.
End Metrics.

(** One start and one completion of an agent: the counter of starts of
    that agent and the counter of its completions with that outcome
    grow by one, the duration is appended to the histogram of that
    agent, every other counter and histogram is as before (a success
    does not count as an error, nor one agent for another), and the
    tracer is not touched. *)
Theorem agent_completion_is_counted_once agent_name url request_id duration_ms
    (success : bool) g :
  let g' :=
    snd (Observability.log_agent_complete agent_name duration_ms success request_id
           (snd (Observability.log_agent_start agent_name url request_id g))) in
  let started := ("agent_starts", [("agent", agent_name)]) in
  let completed :=
    ("agent_completions",
     [("agent", agent_name); ("status", if success then "success" else "error")]) in
  let timed := ("agent_duration", [("agent", agent_name)]) in
  counter_value started.1 started.2 g' = counter_value started.1 started.2 g + 1 ∧
  counter_value completed.1 completed.2 g'
    = counter_value completed.1 completed.2 g + 1 ∧
  histogram_values timed.1 timed.2 g'
    = histogram_values timed.1 timed.2 g ++ [duration_ms] ∧
  (∀ name labels,
     (name, labels) ≠ started → (name, labels) ≠ completed →
     counter_value name labels g' = counter_value name labels g) ∧
  (∀ name labels,
     (name, labels) ≠ timed →
     histogram_values name labels g' = histogram_values name labels g) ∧
  Observability.tracer g' = Observability.tracer g.
Proof.
  cbv zeta. unfold Observability.log_agent_complete, Observability.log_agent_start,
    Observability.counter, Observability.histogram, bind, modify,
    counter_value, histogram_values.
  simpl. repeat split.
  - rewrite entry_bump_ne by (destruct success; done). by rewrite entry_bump_eq.
  - rewrite entry_bump_eq. by rewrite entry_bump_ne by (destruct success; done).
  - by rewrite entry_observe_eq.
  - intros name labels Hs Hc. by rewrite !entry_bump_ne.
  - intros name labels Ht. by rewrite entry_observe_ne.
Qed.

(* ================================================================== *)
(** * Identifiers of spans and traces *)
(* ================================================================== *)

Section Identifiers.

Lemma pretty_char_digit d :
  (d < 10)%N →
  Py.isdigit (pretty_N_char d) = true ∧ Py.digit_value (pretty_N_char d) = Z.of_N d.
Proof.
  intros Hd.
  assert (d = 0 ∨ d = 1 ∨ d = 2 ∨ d = 3 ∨ d = 4 ∨ d = 5 ∨ d = 6 ∨ d = 7 ∨ d = 8
          ∨ d = 9)%N as [->|[->|[->|[->|[->|[->|[->|[->|[->| ->]]]]]]]]] by lia;
    by vm_compute.
Qed.

(** Reading the digits written by [pretty] gives the number back. *)
Lemma digits_of_pretty_go x s :
  ∃ k : Z, 0 ≤ k ∧ ∀ acc,
    Py.digits_value acc (pretty_N_go x s)
    = Py.digits_value (acc * 10 ^ k + Z.of_N x) s.
Proof.
  revert s. induction (N.lt_wf_0 x) as [x _ IH]; intros s.
  destruct (decide (x = 0)%N) as [->|Hx].
  { exists 0. split; [done|]. intros acc. rewrite pretty_N_go_0. f_equal. lia. }
  rewrite pretty_N_go_step by lia.
  destruct (IH (x `div` 10)%N) with (s := String (pretty_N_char (x `mod` 10)) s)
    as (k & Hk & Hgo).
  { apply N.div_lt; lia. }
  exists (k + 1). split; [lia|]. intros acc. rewrite Hgo. simpl.
  destruct (pretty_char_digit (x `mod` 10)%N) as [-> ->].
  { apply N.mod_lt. lia. }
  f_equal. rewrite Z.pow_add_r, Z.pow_1_r by lia.
  rewrite N2Z.inj_mod, N2Z.inj_div. change (Z.of_N 10) with 10.
  pose proof (Z.div_mod (Z.of_N x) 10 ltac:(lia)). lia.
Qed.

Lemma digits_of_pretty (n : nat) : Py.digits_value 0 (pretty n) = Some (Z.of_nat n).
Proof.
  unfold pretty, pretty_nat, pretty, pretty_N.
  destruct (decide (N.of_nat n = 0)%N) as [Hn|Hn].
  { by assert (n = 0%nat) as -> by lia. }
  destruct (digits_of_pretty_go (N.of_nat n) "") as (k & _ & ->). simpl.
  f_equal. lia.
Qed.

Lemma digits_of_zeros k s :
  Py.digits_value 0 (String.concat "" (replicate k "0") +:+ s) = Py.digits_value 0 s.
Proof.
  induction k as [|k IH]; [done|].
  replace (String.concat "" (replicate (S k) "0"))
    with (String "0" (String.concat "" (replicate k "0"))) by by destruct k.
  exact IH.
Qed.

Lemma zero_padded_value width n :
  Py.digits_value 0 (Observability.zero_padded width n) = Some (Z.of_nat n).
Proof. unfold Observability.zero_padded. by rewrite digits_of_zeros, digits_of_pretty. Qed.

Lemma zero_padded_inj width n m :
  Observability.zero_padded width n = Observability.zero_padded width m → n = m.
Proof.
  intros H. pose proof (zero_padded_value width n) as Hn.
  rewrite H, zero_padded_value in Hn. injection Hn. lia.
Qed.

Lemma all_chars_app p s t : all_chars p s → all_chars p t → all_chars p (s +:+ t).
Proof. induction s as [|c s IH]; [done|]. intros [Hc Hs] Ht. split; auto. Qed.

Lemma pretty_go_digits x s :
  all_chars Py.isdigit s → all_chars Py.isdigit (pretty_N_go x s).
Proof.
  revert s. induction (N.lt_wf_0 x) as [x _ IH]; intros s Hs.
  destruct (decide (x = 0)%N) as [->|Hx]; [by rewrite pretty_N_go_0|].
  rewrite pretty_N_go_step by lia. apply IH; [apply N.div_lt; lia|].
  split; [|done]. apply pretty_char_digit, N.mod_lt. lia.
Qed.

Lemma zero_padded_digits width n : all_chars Py.isdigit (Observability.zero_padded width n).
Proof.
  unfold Observability.zero_padded. apply all_chars_app.
  - induction (width - _)%nat as [|k IH]; [done|].
    replace (String.concat "" (replicate (S k) "0"))
      with (String "0" (String.concat "" (replicate k "0"))) by by destruct k.
    by split.
  - unfold pretty, pretty_nat, pretty, pretty_N.
    destruct (decide _); [done|]. by apply pretty_go_digits.
Qed.

Lemma no_underscore_in_digits a da db :
  all_chars Py.isdigit da → da ≠ a +:+ "_" +:+ db.
Proof.
  revert da. induction a as [|c a IH]; intros da Hda ->.
  - by destruct Hda.
  - destruct Hda as [_ Hda]. by apply (IH _ Hda).
Qed.

(** Two texts that end in an underscore and digits agree on the
    digits. *)
Lemma digits_after_underscore a b da db :
  all_chars Py.isdigit da → all_chars Py.isdigit db →
  a +:+ "_" +:+ da = b +:+ "_" +:+ db → da = db.
Proof.
  intros Hda Hdb. revert b. induction a as [|c a IH]; intros [|c' b] H.
  - by injection H.
  - injection H as _ H. by apply no_underscore_in_digits in H.
  - injection H as _ H. symmetry in H. by apply no_underscore_in_digits in H.
  - injection H as _ H. by apply IH in H.
Qed.

Lemma append_inj_prefix p a b : p +:+ a = p +:+ b → a = b.
Proof. induction p as [|c p IH]; [done|]. intros [= H]. by apply IH. Qed.

End Identifiers.

(** Spans opened one inside the other, around a body that leaves the
    tracer alone: the inner span is recorded first and names the outer
    one as its parent, the outer one names the span that was current
    before, and the two have different span identifiers.  Inside a trace
    both carry the identifier of the trace; outside a trace each span
    draws a trace identifier of its own, so the two spans of one nesting
    belong to different traces. *)
Theorem nested_spans_are_linked {A} env outer inner
    (body : M Observability.Globals A) g :
  preserves Observability.tracer body →
  let g' := snd (Observability.span env outer (Observability.span env inner body) g) in
  ∃ s_inner s_outer,
    Observability.spans (Observability.tracer g')
      = Observability.spans (Observability.tracer g) ++ [s_inner; s_outer] ∧
    Observability.name s_inner = inner ∧ Observability.name s_outer = outer ∧
    Observability.parent_span_id s_inner = Some (Observability.span_id s_outer) ∧
    Observability.parent_span_id s_outer
      = Observability._current_span_id (Observability.tracer g) ∧
    Observability.span_id s_inner ≠ Observability.span_id s_outer ∧
    match Observability._current_trace_id (Observability.tracer g) with
    | Some trace_id =>
        Observability.trace_id s_inner = trace_id ∧
        Observability.trace_id s_outer = trace_id
    | None => Observability.trace_id s_inner ≠ Observability.trace_id s_outer
    end ∧
    Observability._current_span_id (Observability.tracer g')
      = Observability._current_span_id (Observability.tracer g) ∧
    Observability._current_trace_id (Observability.tracer g')
      = Observability._current_trace_id (Observability.tracer g).
Proof.
  intros Hbody. cbv zeta. unfold Observability.span.
  destruct g as [[spans0 span_counter trace_counter current_trace current_span] m f].
  destruct current_trace as [trace_id|]; simpl;
    match goal with
    | |- context [body ?g0] =>
        pose proof (Hbody g0) as Hg0; destruct (body g0) as [[a|msg] g1]
    end; simpl in *; rewrite Hg0; simpl;
    eexists _, _; (split; [by rewrite <- app_assoc|]); simpl;
    repeat split; try done;
    try (intros H; apply append_inj_prefix, zero_padded_inj in H; lia).
  all: intros H; apply (append_inj_prefix "trace_") in H;
    apply digits_after_underscore, zero_padded_inj in H;
    [lia|apply zero_padded_digits..].
Qed.

(** Two nested spans around an empty body, outside any trace. *)
Lemma nested_spans_are_linked_witness :
  let g' := snd (Observability.span Scenario.healthy "analysis"
                   (Observability.span Scenario.healthy "security" (ret tt))
                   Observability.initial) in
  ∃ s_inner s_outer,
    Observability.spans (Observability.tracer g') = [s_inner; s_outer] ∧
    Observability.parent_span_id s_inner = Some (Observability.span_id s_outer) ∧
    Observability.parent_span_id s_outer = None ∧
    Observability.trace_id s_inner ≠ Observability.trace_id s_outer.
Proof.
  destruct (nested_spans_are_linked Scenario.healthy "analysis" "security"
              (ret tt) Observability.initial (λ g, eq_refl))
    as (s_inner & s_outer & Hspans & _ & _ & Hparent & Hroot & _ & Htrace & _).
  by exists s_inner, s_outer.
Defined.

Section Sorting.
Context {X : Type} (key : X → nat).

Lemma insert_by_front x s :
  Forall (λ y, (key x ≤ key y)%nat) s → Server.insert_by key x s = x :: s.
Proof.
  intros Hs. destruct s as [|y s]; [done|]. simpl.
  apply Forall_cons in Hs as [Hy _].
  by destruct (Nat.leb_spec (key x) (key y)); [|lia].
Qed.

Lemma insert_by_skip x s t :
  Forall (λ y, (key y < key x)%nat) s →
  Server.insert_by key x (s ++ t) = s ++ Server.insert_by key x t.
Proof.
  induction 1 as [|y s Hy _ IH]; [done|]. simpl.
  destruct (Nat.leb_spec (key x) (key y)); [lia|]. by rewrite IH.
Qed.

Lemma bucket_keys k l : Forall (λ y, key y = k) (bucket key k l).
Proof. apply Forall_forall. intros y Hy. by apply list_elem_of_filter in Hy as [? _]. Qed.

Lemma buckets_keys ks l (P : nat → Prop) :
  Forall P ks → Forall (λ y, P (key y)) (concat (map (λ k, bucket key k l) ks)).
Proof.
  induction 1 as [|k ks Hk _ IH]; simpl; [constructor|].
  apply Forall_app. split; [|done].
  eapply Forall_impl; [apply bucket_keys|]. by intros y ->.
Qed.

Lemma buckets_other x l ks :
  Forall (λ k, key x ≠ k) ks →
  map (λ k, bucket key k (x :: l)) ks = map (λ k, bucket key k l) ks.
Proof.
  induction 1 as [|k ks Hk _ IH]; simpl; [done|]. rewrite IH. f_equal.
  unfold bucket. rewrite filter_cons. by destruct (decide (key x = k)).
Qed.

(** Inserting an element puts it in front of its bucket. *)
Lemma insert_by_buckets x l ks :
  StronglySorted lt ks → key x ∈ ks →
  Server.insert_by key x (concat (map (λ k, bucket key k l) ks))
  = concat (map (λ k, bucket key k (x :: l)) ks).
Proof.
  induction 1 as [|k ks Hks IH Hk]; intros Hx; [by apply elem_of_nil in Hx|].
  simpl. destruct (decide (key x = k)) as [Heq|Hne].
  - rewrite buckets_other; [|eapply Forall_impl; [exact Hk|]; simpl; intros; lia].
    unfold bucket at 3. rewrite filter_cons, decide_True by done. simpl.
    apply insert_by_front, Forall_app. split.
    + eapply Forall_impl; [apply bucket_keys|]. simpl. intros; lia.
    + apply buckets_keys. eapply Forall_impl; [exact Hk|]. simpl. intros; lia.
  - apply elem_of_cons in Hx as [?|Hx]; [done|].
    assert (k < key x)%nat as Hlt.
    { eapply Forall_forall in Hk; [exact Hk|done]. }
    rewrite insert_by_skip.
    + rewrite IH by done. f_equal. unfold bucket.
      rewrite filter_cons. by destruct (decide (key x = k)).
    + eapply Forall_impl; [apply bucket_keys|]. simpl. intros; lia.
Qed.

(** A stable sort lists the buckets of the keys in increasing order,
    each bucket in the order of the input. *)
Lemma sort_by_buckets l ks :
  StronglySorted lt ks → Forall (λ y, key y ∈ ks) l →
  Server.sort_by key l = concat (map (λ k, bucket key k l) ks).
Proof.
  intros Hks. induction 1 as [|x l Hx _ IH]; simpl.
  - induction ks as [|k ks IHks]; [done|]. simpl.
    apply IHks. by apply StronglySorted_inv in Hks as [? _].
  - rewrite IH. by apply insert_by_buckets.
Qed.
End Sorting.

Section Progress.
Import Store Server.

Lemma order_cases (name : string) :
  (name = "security" ∧ order name = 0%nat) ∨
  (name = "onpage" ∧ order name = 1%nat) ∨
  (name = "content" ∧ order name = 2%nat) ∨
  (name = "performance" ∧ order name = 3%nat) ∨
  (name = "indexability" ∧ order name = 4%nat) ∨
  (name = "report" ∧ order name = 5%nat) ∨
  ((name ∉ agent_names) ∧ order name = 99%nat).
Proof.
  unfold order, agent_names. cbn [order_from].
  repeat match goal with
         | |- context [String.eqb ?a name] =>
             destruct (String.eqb_spec a name) as [<-|?]; [tauto|]
         end.
  repeat right. split; [|done]. intros H.
  repeat (apply elem_of_cons in H as [->|H]; [done|]).
  by apply elem_of_nil in H.
Qed.

Lemma order_of_agent i name :
  agent_names !! i = Some name → ∀ name', order name' = i ↔ name' = name.
Proof.
  intros Hi name'.
  assert (i < 6)%nat as Hlt by (apply lookup_lt_Some in Hi; simpl in Hi; lia).
  destruct i as [|[|[|[|[|[|i]]]]]]; [| | | | | |lia];
    injection Hi as <-;
    (split; [|by intros ->]);
    intros Ho; destruct (order_cases name') as [[? H]|[[? H]|[[? H]|[[? H]|[[? H]|[[? H]|[? H]]]]]]];
    rewrite H in Ho; try done; discriminate Ho.
Qed.

Lemma order_unknown name : order name = 99%nat ↔ name ∉ agent_names.
Proof.
  split.
  - intros Ho. destruct (order_cases name) as [[? H]|[[? H]|[[? H]|[[? H]|[[? H]|[[? H]|[? H]]]]]]];
      rewrite H in Ho; try done; discriminate Ho.
  - intros Hn. destruct (order_cases name) as [[-> H]|[[-> H]|[[-> H]|[[-> H]|[[-> H]|[[-> H]|[? H]]]]]]];
      try done; exfalso; apply Hn; in_list.
Qed.

Lemma order_keys name : order name ∈ [0; 1; 2; 3; 4; 5; 99]%nat.
Proof.
  destruct (order_cases name) as [[? ->]|[[? ->]|[[? ->]|[[? ->]|[[? ->]|[[? ->]|[? ->]]]]]]];
    in_list.
Qed.

Lemma shown_named n (items : list (string * AgentStatus)) :
  NoDup (dict_keys items) →
  filter (λ a, m_name a = n) (map (λ '(name, data), shown name data) items)
  = match dict_get n items with Some data => [shown n data] | None => [] end.
Proof.
  unfold dict_get, dict_keys.
  induction items as [|[k d] items IH]; intros Hnd; [done|].
  simpl in Hnd. apply NoDup_cons in Hnd as [Hk Hnd]. simpl.
  rewrite filter_cons. cbn [m_name shown].
  destruct (String.eqb_spec k n) as [->|Hne].
  - case_decide; [|done]. f_equal.
    rewrite IH by done.
    destruct (Scores.dict_get n items) as [d'|] eqn:E; [|done].
    exfalso. apply Hk. by apply (dict_get_Some_keys n d').
  - case_decide; [done|]. by apply IH.
Qed.

Lemma not_started_named n (P : string → Prop) `{∀ x, Decision (P x)} names :
  NoDup names →
  filter (λ a, m_name a = n) (map not_started (filter P names))
  = if decide (n ∈ names ∧ P n) then [not_started n] else [].
Proof.
  induction names as [|k names IH]; intros Hnd.
  - destruct (decide _) as [[Hin _]|_]; [by apply elem_of_nil in Hin|done].
  - apply NoDup_cons in Hnd as [Hk Hnd]. rewrite filter_cons.
    destruct (decide (P k)) as [HP|HP].
    + cbn [map]. rewrite filter_cons. cbn [m_name not_started].
      rewrite IH by done.
      repeat case_decide; simplify_eq; rewrite ?elem_of_cons in *;
        first [done | exfalso; tauto | exfalso; intuition congruence].
    + rewrite IH by done.
      repeat case_decide; simplify_eq; rewrite ?elem_of_cons in *;
        first [done | exfalso; tauto | exfalso; intuition congruence].
Qed.

Lemma keys_of_shown (items : list (string * AgentStatus)) :
  map m_name (map (λ '(name, data), shown name data) items) = dict_keys items.
Proof.
  unfold dict_keys. rewrite map_map. apply map_ext. by intros [? ?].
Qed.

Lemma dict_get_None_keys {V} n (items : list (string * V)) :
  dict_get n items = None → n ∉ dict_keys items.
Proof.
  unfold dict_get, dict_keys. induction items as [|[k d] items IH]; simpl.
  - intros _ H. by apply elem_of_nil in H.
  - destruct (String.eqb_spec k n) as [->|Hne]; [done|].
    intros Hn Hin. apply elem_of_cons in Hin as [?|?]; [congruence|by apply IH].
Qed.

(** The bucket of one of the six agents holds its entry alone: the
    stored one, or the one added for it. *)
Lemma bucket_of_agent i n (items : list (string * AgentStatus)) :
  agent_names !! i = Some n → NoDup (dict_keys items) →
  bucket (λ a, order (m_name a)) i
    (map (λ '(name, data), shown name data) items ++
     map not_started
       (filter (λ name, name ∉ map m_name (map (λ '(name, data), shown name data) items))
          agent_names))
  = [reported items n].
Proof.
  intros Hi Hnd. unfold bucket.
  rewrite (list_filter_iff _ (λ a, m_name a = n))
    by (intros a; by apply order_of_agent).
  rewrite filter_app, shown_named by done.
  rewrite not_started_named by (by apply (bool_decide_unpack _)).
  rewrite keys_of_shown. unfold reported.
  assert (n ∈ agent_names) as Hin by (by eapply list_elem_of_lookup_2).
  destruct (dict_get n items) as [d|] eqn:E.
  - rewrite decide_False; [done|]. intros [_ Hn]. apply Hn.
    by apply (dict_get_Some_keys n d).
  - rewrite decide_True; [done|]. split; [done|]. by apply dict_get_None_keys.
Qed.

Lemma added_are_known names :
  Forall (λ name, name ∈ agent_names) names →
  filter (λ a, m_name a ∉ agent_names) (map not_started names) = [].
Proof.
  induction 1 as [|name names Hname _ IH]; [done|]. simpl.
  rewrite filter_cons. cbn [m_name not_started]. by rewrite decide_False by tauto.
Qed.

Lemma bucket_of_others (items : list (string * AgentStatus)) :
  bucket (λ a, order (m_name a)) 99
    (map (λ '(name, data), shown name data) items ++
     map not_started
       (filter (λ name, name ∉ map m_name (map (λ '(name, data), shown name data) items))
          agent_names))
  = filter (λ a, m_name a ∉ agent_names)
      (map (λ '(name, data), shown name data) items).
Proof.
  unfold bucket.
  rewrite (list_filter_iff _ (λ a, m_name a ∉ agent_names))
    by (intros a; by apply order_unknown).
  rewrite filter_app.
  rewrite (added_are_known (filter _ agent_names)), app_nil_r; [done|].
  apply Forall_forall. intros name Hin. by apply list_elem_of_filter in Hin as [_ ?].
Qed.
End Progress.

Lemma get_analysis_progress_spec request_id w analysis items status current :
  analysis_store w !! request_id = Some analysis →
  analysis !! "agents" = Some (Store.VAgents items) →
  NoDup (dict_keys items) →
  analysis !! "status" = Some (Store.VStr status) →
  default Store.VNone (analysis !! "current_agent")
    = from_option Store.VStr Store.VNone current →
  Server.get_analysis_progress request_id w
  = Ret (Server.Progress
           {| Server.pr_request_id := request_id;
              Server.pr_status := status;
              Server.pr_current_agent := current;
              Server.pr_agents :=
                map (reported items) Server.agent_names ++ others items |}).
Proof.
  intros Hw Hagents Hnd Hstatus Hcurrent.
  unfold Server.get_analysis_progress. rewrite Hw, Hagents, Hstatus, Hcurrent.
  cbv zeta. fold not_started.
  change (map (λ '(name, data), {| Server.m_name := name;
                                   Server.m_status := Store.a_status data;
                                   Server.m_message := Store.a_message data;
                                   Server.m_duration := Store.a_duration data |}) items)
    with (map (λ '(name, data), shown name data) items).
  rewrite (sort_by_buckets _ _ [0; 1; 2; 3; 4; 5; 99]%nat).
  - cbn [map concat].
    rewrite !(bucket_of_agent _ _ items) by (done || reflexivity).
    rewrite bucket_of_others, app_nil_r. simpl.
    by destruct current.
  - repeat (apply SSorted_cons; [|repeat constructor; lia]). constructor.
  - apply Forall_forall. intros a _. apply order_keys.
Qed.

Section Dicts.
Context {V : Type}.

Lemma dict_keys_set k (v : V) d :
  ∀ k', k' ∈ dict_keys (dict_set k v d) ↔ k' = k ∨ k' ∈ dict_keys d.
Proof.
  unfold dict_keys. induction d as [|[k0 v0] d IH]; intros k'; simpl.
  - rewrite elem_of_cons. split; [tauto|]. intros [?|H]; [by left|by apply elem_of_nil in H].
  - destruct (String.eqb_spec k0 k) as [->|Hne]; simpl.
    + rewrite !elem_of_cons. tauto.
    + rewrite !elem_of_cons, IH. tauto.
Qed.

Lemma dict_set_NoDup k (v : V) d :
  NoDup (dict_keys d) → NoDup (dict_keys (dict_set k v d)).
Proof.
  induction d as [|[k0 v0] d IH]; simpl; intros Hnd.
  - apply NoDup_singleton.
  - apply NoDup_cons in Hnd as [Hk0 Hnd].
    destruct (String.eqb_spec k0 k) as [->|Hne]; simpl.
    + by apply NoDup_cons.
    + apply NoDup_cons. split; [|by apply IH].
      intros Hin. apply dict_keys_set in Hin as [?|?]; [congruence|done].
Qed.
End Dicts.

Lemma hoare_post {S A} (pre : S → Prop) (m : M S A) (post post' : A → S → Prop) exc :
  hoare pre m post' exc → (∀ a s, post' a s → post a s) → hoare pre m post exc.
Proof. intros Hm Hpost. by apply (hoare_consequence pre pre m post post' exc exc). Qed.

Section Stages.
Import Store Server.

Lemma others_set k v items :
  k ∈ agent_names → others (dict_set k v items) = others items.
Proof.
  intros Hk. unfold others.
  induction items as [|[k0 v0] items IH]; simpl.
  - rewrite filter_cons. cbn [m_name shown]. by rewrite decide_False by tauto.
  - destruct (String.eqb_spec k0 k) as [->|Hne]; simpl.
    + rewrite !filter_cons. cbn [m_name shown]. by rewrite !decide_False by tauto.
    + rewrite !filter_cons. cbn [m_name shown]. rewrite IH. done.
Qed.

Lemma agents_with_start items0 :
  NoDup (dict_keys items0) → agents_with [] (others items0) items0.
Proof. intros Hnd. by repeat split. Qed.

Lemma agents_with_set k v known rest items :
  k ∈ agent_names → agents_with known rest items →
  agents_with (dict_set k v known) rest (dict_set k v items).
Proof.
  intros Hk (Hnd & Hrest & Hknown). repeat split.
  - by apply dict_set_NoDup.
  - by rewrite others_set.
  - intros name st. destruct (decide (k = name)) as [->|Hne].
    + rewrite !dict_get_set_eq. done.
    + rewrite !dict_get_set_ne by done. apply Hknown.
Qed.

Lemma record_with_frame {A} request_id R (m : M World A) :
  preserves analysis_store m →
  hoare (record_with request_id R) m
    (λ _, record_with request_id R) (λ _, record_with request_id R).
Proof.
  intros Hm.
  apply (hoare_preserves analysis_store m
           (λ st, ∃ analysis, st !! request_id = Some analysis ∧ R analysis) Hm).
Qed.

Lemma store_set_record request_id key v (R R' : gmap string PyVal → Prop) exc :
  (∀ analysis, R analysis → R' (<[key := v]> analysis)) →
  hoare (record_with request_id R) (store_set request_id key v)
    (λ _, record_with request_id R') exc.
Proof.
  intros HR w (analysis & Hw & Ha). unfold store_set. rewrite Hw. simpl.
  exists (<[key := v]> analysis). split; [apply lookup_insert_eq|by apply HR].
Qed.

Lemma store_update_record request_id items (R R' : gmap string PyVal → Prop) exc :
  (∀ analysis, R analysis → R' (foldl (λ acc kv, <[kv.1 := kv.2]> acc) analysis items)) →
  hoare (record_with request_id R) (store_update request_id items)
    (λ _, record_with request_id R') exc.
Proof.
  intros HR w (analysis & Hw & Ha).
  pose proof (store_update_spec request_id items analysis w Hw) as Hu.
  destruct (store_update _ _ w) as [[[]|msg] w']; [|done].
  exists (foldl (λ acc kv, <[kv.1 := kv.2]> acc) analysis items). by split; [|apply HR].
Qed.

Lemma agent_set_stage request_id status k v (Q Q' : list (string * AgentStatus) → Prop) exc :
  (∀ items, Q items → Q' (dict_set k v items)) →
  hoare (record_with request_id (at_stage status Q)) (agent_set request_id k v)
    (λ _, record_with request_id (at_stage status Q')) exc.
Proof.
  intros HQ w (analysis & Hw & Hst & items & Hitems & Hq).
  unfold agent_set, bind, store_agents, store_set. rewrite Hw, Hitems. simpl.
  rewrite Hw. simpl. eexists. split; [apply lookup_insert_eq|]. split.
  - by rewrite lookup_insert_ne.
  - exists (dict_set k v items). split; [apply lookup_insert_eq|by apply HQ].
Qed.

Lemma agent_alter_stage request_id status k f (Q Q' : list (string * AgentStatus) → Prop)
    exc :
  (∀ items, Q items → ∃ st, dict_get k items = Some st ∧ Q' (dict_set k (f st) items)) →
  hoare (record_with request_id (at_stage status Q)) (agent_alter request_id k f)
    (λ _, record_with request_id (at_stage status Q')) exc.
Proof.
  intros HQ w (analysis & Hw & Hst & items & Hitems & Hq).
  destruct (HQ items Hq) as (st & Hget & Hq').
  unfold agent_alter, bind, store_agents. rewrite Hw, Hitems. simpl.
  rewrite Hget. unfold store_set. rewrite Hw. simpl.
  eexists. split; [apply lookup_insert_eq|]. split.
  - by rewrite lookup_insert_ne.
  - exists (dict_set k (f st) items). split; [apply lookup_insert_eq|done].
Qed.

Lemma agents_with_alter k f st known rest :
  k ∈ agent_names → dict_get k known = Some st →
  ∀ items, agents_with known rest items →
    ∃ st', dict_get k items = Some st' ∧
           agents_with (dict_set k (f st) known) rest (dict_set k (f st') items).
Proof.
  intros Hk Hget items Hq. exists st. split.
  - destruct Hq as (_ & _ & Hknown). by apply Hknown.
  - by apply agents_with_set.
Qed.
End Stages.

Section Task.
Import Store Server.
Variable env : Env.



Lemma timestamp_record request_id R exc :
  hoare (record_with request_id R) (timestamp env)
    (λ _, record_with request_id R) exc.
Proof. by intros w Hw. Qed.

Lemma run_analysis_try_stages request_id url items0 :
  NoDup (dict_keys items0) →
  hoare (record_with request_id (λ a, a !! "agents" = Some (VAgents items0)))
    (store_set request_id "status" (VStr "running") ;;
     started_at ← timestamp env;
     store_set request_id "started_at" (VStr started_at) ;;
     Orchestrator.SEOOrchestrator_init env ;;
     for_each agent_names
       (λ agent_name,
          agent_set request_id agent_name
            {| a_status := "pending"; a_message := None; a_duration := None |}) ;;
     store_set request_id "current_agent" (VStr "security") ;;
     for_each parallel_agent_names
       (λ agent_name, agent_alter request_id agent_name (set_a_status "running")) ;;
     result ← Orchestrator.analyze_website env Agents.ANALYSIS_AGENTS url;
     for_each parallel_agent_names
       (λ agent_name,
          agent_alter request_id agent_name (set_a_status "completed") ;;
          agent_alter request_id agent_name (set_a_message "Analysis complete")) ;;
     agent_alter request_id "report" (set_a_status "completed") ;;
     agent_alter request_id "report" (set_a_message "Report generated") ;;
     let overall_score :=
       if Py.truthy_int (Orchestrator.overall_score result)
       then Orchestrator.overall_score result else 75 in
     let report :=
       match Orchestrator.final_report result with
       | Some text => if Py.truthy_str text then text else ""
       | None => ""
       end in
     let pdf_path := Orchestrator.pdf_path result in
     let category_scores := Scores.parse_category_scores report in
     let '(issues_found, warnings, passed) := parse_report_stats report in
     completed_at ← timestamp env;
     store_update request_id
       [("status", VStr "completed"); ("completed_at", VStr completed_at);
        ("overall_score", VInt overall_score); ("report", VStr report);
        ("issues_found", VInt issues_found); ("warnings", VInt warnings);
        ("passed", VInt passed); ("category_scores", VScores category_scores);
        ("pdf_path", match pdf_path with Some path => VStr path | None => VNone end);
        ("current_agent", VNone)])
    (λ _, record_with request_id (completed_record env url items0))
    (λ _ w, record_with request_id (at_stage "running" (eq items0)) w ∨
            record_with request_id
              (at_stage "running" (agents_with while_running (others items0))) w).
Proof.
  intros Hnd.
  eapply hoare_bind.
  { apply (store_set_record _ _ _ _ (at_stage "running" (eq items0))).
    intros analysis Ha. split; [apply lookup_insert_eq|].
    exists items0. by rewrite lookup_insert_ne. }
  intros ?. eapply hoare_bind.
  { apply timestamp_record. }
  intros started_at. eapply hoare_bind.
  { apply (store_set_record _ _ _ _ (at_stage "running" (eq items0))).
    intros analysis (Hst & items & Hitems & <-). split; [by rewrite lookup_insert_ne|].
    exists items0. by rewrite lookup_insert_ne. }
  intros ?. eapply hoare_bind.
  { eapply hoare_consequence;
      [apply record_with_frame, outer_store, SEOOrchestrator_init_outer|done|done|].
    intros; by left. }
  intros ?.
  apply hoare_bind with
    (mid := λ _, record_with request_id
                   (at_stage "running" (agents_with when_entered (others items0)))).
  { unfold agent_names. cbn [for_each].
    eapply hoare_bind.
    { apply (agent_set_stage _ _ _ _ _
               (agents_with (dict_set "security" (agent_status "pending" None) [])
                  (others items0))).
      intros items <-. apply agents_with_set; [in_list|by apply agents_with_start]. }
    intros ?.
    repeat (eapply hoare_bind;
            [apply agent_set_stage; intros items; apply agents_with_set; in_list
            |intros ?]).
    intros w Hw. exact Hw. }
  intros ?. eapply hoare_bind.
  { apply (store_set_record _ _ _
             (at_stage "running" (agents_with when_entered (others items0)))
             (at_stage "running" (agents_with when_entered (others items0)))).
    intros analysis (Hst & items & Hitems & Hq). split; [by rewrite lookup_insert_ne|].
    exists items. rewrite lookup_insert_ne by done. split; [done|exact Hq]. }
  intros ?.
  apply hoare_bind with
    (mid := λ _, record_with request_id
                   (at_stage "running" (agents_with while_running (others items0)))).
  { unfold parallel_agent_names. cbn [for_each].
    repeat (eapply hoare_bind;
            [apply agent_alter_stage; apply agents_with_alter; [in_list|reflexivity]
            |intros ?]).
    intros w Hw. exact Hw. }
  intros ?.
  apply hoare_bind with
    (mid := λ r w, result_of_run env url r ∧
                   record_with request_id
                     (at_stage "running" (agents_with while_running (others items0))) w).
  { intros w Hw.
    pose proof (outer_store _ (analyze_website_outer env Agents.ANALYSIS_AGENTS url) w)
      as Hstore.
    destruct (Orchestrator.analyze_website _ _ _ w) as [[r|msg] w'] eqn:E;
      simpl in Hstore.
    - split; [exists w; by rewrite E|].
      destruct Hw as (analysis & ? & ?). exists analysis. by rewrite Hstore.
    - right. destruct Hw as (analysis & ? & ?). exists analysis. by rewrite Hstore. }
  intros result. apply hoare_assume. intros Hresult.
  apply hoare_bind with
    (mid := λ _, record_with request_id
                   (at_stage "running"
                      (agents_with
                         (dict_set "report" (agent_status "pending" None) when_completed)
                         (others items0)))).
  { unfold parallel_agent_names. cbn [for_each].
    repeat (eapply hoare_bind;
            [first [ apply agent_alter_stage; apply agents_with_alter; [in_list|reflexivity]
                   | eapply hoare_bind;
                     [apply agent_alter_stage; apply agents_with_alter; [in_list|reflexivity]
                     |intros ?;
                      apply agent_alter_stage; apply agents_with_alter; [in_list|reflexivity]] ]
            |intros ?]).
    intros w Hw. exact Hw. }
  intros ?. eapply hoare_bind.
  { apply agent_alter_stage; apply agents_with_alter; [in_list|reflexivity]. }
  intros ?.
  apply hoare_bind with
    (mid := λ _, record_with request_id
                   (at_stage "running" (agents_with when_completed (others items0)))).
  { eapply hoare_post;
      [apply agent_alter_stage; apply agents_with_alter; [in_list|reflexivity]|].
    intros ? w Hw. exact Hw. }
  intros ?. cbv zeta.
  destruct (parse_report_stats _) as [[issues_found warnings] passed] eqn:Hstats.
  eapply hoare_bind.
  { apply timestamp_record. }
  intros completed_at. apply store_update_record.
  intros analysis (Hst & items & Hitems & Hq). simpl. split.
  - split; [by simplify_map_eq|]. exists items. split; [by simplify_map_eq|exact Hq].
  - exists result. split; [done|]. unfold holds_result, served_report.
    rewrite Hstats. simpl. unfold stored_score. by simplify_map_eq.
Qed.
End Task.

Section RenderedReport.
Import Orchestrator.
Variable env : Env.
Variable analysis_agents : list string.

Lemma on_world_keeps {A} (m : M World A) (R : SEOAnalysisResult → Prop) :
  hoare (λ s, R (fst s)) (on_world m) (λ _ s, R (fst s)) (λ _ s, R (fst s)).
Proof.
  intros [r w] Hr. unfold on_world, zoom. simpl in *.
  by destruct (m w) as [[a|msg] w'].
Qed.

Lemma record_report_pdf report_result agent_results url request_id :
  hoare (λ s, pdf_ok (fst s))
    (record_report env report_result agent_results url request_id)
    (λ _ s, pdf_ok (fst s)) (λ _ s, pdf_ok (fst s)).
Proof.
  intros [r w] Hr. unfold record_report, pdf_ok in *.
  unfold bind, assign, modify, analysis_result, raise, ret. simpl in *.
  destruct (success report_result); simpl; [|done].
  destruct (collect_scores (dict_values agent_results)) as [scores|msg];
    [|done].
  destruct scores as [|score scores]; simpl;
    destruct (generate_report_pdf _ _ _ _ _) as [[path|]|msg]; simpl; try done;
    destruct (Py.truthy_str path) eqn:Hpath; simpl; try done;
    by intros ? [= <-].
Qed.

Lemma store_results_pdf request_id :
  hoare (λ s, pdf_ok (fst s)) (store_results env request_id)
    (λ _ s, pdf_ok (fst s)) (λ _ s, pdf_ok (fst s)).
Proof.
  intros [r w] Hr. unfold store_results.
  unfold bind, assign, modify, analysis_result, on_world, zoom. simpl.
  by destruct (on_db _ w) as [[a|msg] w'].
Qed.

Lemma analyze_try_pdf url request_id session_id :
  hoare (λ s, pdf_ok (fst s))
    (analyze_try env analysis_agents url request_id session_id)
    (λ _ s, pdf_ok (fst s)) (λ _ s, pdf_ok (fst s)).
Proof.
  unfold analyze_try.
  eapply hoare_bind; [apply (on_world_keeps _ pdf_ok)|]. intros ?.
  eapply hoare_bind; [apply (on_world_keeps _ pdf_ok)|]. intros agent_results.
  apply hoare_bind with (mid := λ _ s, pdf_ok (fst s)); [by intros [r w]|]. intros ?.
  eapply hoare_bind; [apply (on_world_keeps _ pdf_ok)|]. intros ?.
  eapply hoare_bind; [apply (on_world_keeps _ pdf_ok)|]. intros report_result.
  eapply hoare_bind; [apply record_report_pdf|].
  intros ?. apply store_results_pdf.
Qed.

(** The result of a run names a rendered report only by a path that
    is not empty. *)
Lemma analyze_website_pdf url w :
  match analyze_website env analysis_agents url w with
  | (Ret r, _) => pdf_ok r
  | (Raise _, _) => True
  end.
Proof.
  unfold analyze_website, bind.
  destruct (analyze_setup env analysis_agents url w) as [[request_id|msg] w1];
    [|done].
  unfold with_local, try_except.
  pose proof (analyze_try_pdf url request_id ("seo_session_" +:+ request_id)
                (new_result url request_id, w1)) as Htry.
  destruct (analyze_try _ _ _ _ _ _) as [[[]|msg] [r1 w2]].
  - apply Htry. by intros path.
  - assert (pdf_ok r1) as Hr1 by (apply Htry; by intros path).
    unfold analyze_except, bind, assign, modify, on_world, zoom. simpl.
    by destruct (on_db _ w2) as [[a|msg'] w3].
Qed.
End RenderedReport.

Section Endpoints.
Import Store Server.
Variable env : Env.

Lemma run_analysis_stages request_id url name email items0 :
  NoDup (dict_keys items0) →
  hoare (record_with request_id (λ a, a !! "agents" = Some (VAgents items0)))
    (run_analysis env request_id url name email)
    (λ _, record_with request_id
            (λ a, completed_record env url items0 a ∨ failed_record items0 a))
    (λ _ _, False).
Proof.
  intros Hnd. unfold run_analysis.
  eapply hoare_try_except.
  - eapply hoare_post; [by apply run_analysis_try_stages|].
    intros ? w (analysis & Hw & Ha). exists analysis. split; [done|by left].
  - intros e.
    apply hoare_bind with
      (mid := λ _ w,
         record_with request_id (at_stage "running" (eq items0)) w ∨
         record_with request_id
           (at_stage "running" (agents_with while_running (others items0))) w).
    { intros w Hw. exact Hw. }
    intros completed_at w Hw.
    assert (∃ Q, (Q = eq items0 ∨ Q = agents_with while_running (others items0)) ∧
                 record_with request_id (at_stage "running" Q) w)
      as (Q & HQ & analysis & Hlookup & Hst & items & Hitems & Hq).
    { destruct Hw as [Hw|Hw]; eexists; (split; [|exact Hw]); [by left|by right]. }
    pose proof (store_update_spec request_id
                  [("status", VStr "error"); ("error", VStr e);
                   ("completed_at", VStr completed_at); ("current_agent", VNone)]
                  analysis w Hlookup) as Hu.
    destruct (store_update _ _ w) as [[[]|msg] w']; [|done].
    eexists. split; [exact Hu|]. right. simpl. repeat split.
    + by simplify_map_eq.
    + exists e. by simplify_map_eq.
    + destruct HQ as [-> | ->]; [left|right];
        (split; [by simplify_map_eq|]); exists items; (split; [by simplify_map_eq|done]).
Qed.

Lemma run_analysis_unknown_raises request_id url name email w :
  analysis_store w !! request_id = None →
  fst (run_analysis env request_id url name email w) = Raise (key_error request_id).
Proof.
  intros Hw. unfold run_analysis, try_except, bind at 1, store_set at 1.
  rewrite Hw. unfold bind, timestamp, store_update. simpl.
  unfold bind, store_set. simpl. by rewrite Hw.
Qed.

(** The six entries are shown as the record has them. *)
Lemma reported_known known rest items :
  dict_keys known = agent_names → agents_with known rest items →
  map (reported items) agent_names = shown_all known.
Proof.
  intros Hkeys (_ & _ & Hknown).
  destruct known as [|[k1 v1] [|[k2 v2] [|[k3 v3] [|[k4 v4] [|[k5 v5] [|[k6 v6] [|]]]]]]];
    try discriminate Hkeys.
  injection Hkeys as -> -> -> -> -> ->.
  unfold agent_names, shown_all, reported. cbn [map].
  rewrite (Hknown "security" v1 eq_refl), (Hknown "onpage" v2 eq_refl),
    (Hknown "content" v3 eq_refl), (Hknown "performance" v4 eq_refl),
    (Hknown "indexability" v5 eq_refl), (Hknown "report" v6 eq_refl).
  done.
Qed.
End Endpoints.

(** The progress endpoint answers for every recorded request whose
    status is a text: it lists the six agents of the pipeline first, in
    the order of the pipeline, each with its stored entry or, when it
    has none, as pending without message and duration; the entries
    stored under other names follow, in the order in which they were
    stored. *)
Theorem progress_lists_the_six_agents request_id w analysis items status current :
  analysis_store w !! request_id = Some analysis →
  analysis !! "agents" = Some (Store.VAgents items) →
  NoDup (dict_keys items) →
  analysis !! "status" = Some (Store.VStr status) →
  default Store.VNone (analysis !! "current_agent")
    = from_option Store.VStr Store.VNone current →
  Server.get_analysis_progress request_id w
  = Ret (Server.Progress
           {| Server.pr_request_id := request_id;
              Server.pr_status := status;
              Server.pr_current_agent := current;
              Server.pr_agents :=
                map (reported items) Server.agent_names ++ others items |}).
Proof. apply get_analysis_progress_spec. Qed.

Section Isolation2.
Import Store Server.
Variable env : Env.

Lemma store_set_elsewhere request_id other key v :
  other ≠ request_id →
  preserves (λ w, analysis_store w !! other) (store_set request_id key v).
Proof.
  intros Hne w. unfold store_set.
  destruct (analysis_store w !! request_id); [|done]. simpl.
  by rewrite lookup_insert_ne.
Qed.

Lemma store_elsewhere {A} other (m : M World A) :
  preserves analysis_store m → preserves (λ w, analysis_store w !! other) m.
Proof.
  apply (preserves_weaken analysis_store _ (λ st, st !! other)). by intros w.
Qed.

Lemma run_analysis_elsewhere request_id other url name email :
  other ≠ request_id →
  preserves (λ w, analysis_store w !! other)
    (run_analysis env request_id url name email).
Proof.
  intros Hne. unfold run_analysis, store_update, agent_set, agent_alter.
  repeat first
    [ by apply store_set_elsewhere
    | apply store_agents_preserves
    | apply store_elsewhere, outer_store, timestamp_quiet
    | apply store_elsewhere, outer_store, SEOOrchestrator_init_outer
    | apply store_elsewhere, outer_store, analyze_website_outer
    | preserves_step ].
Qed.
End Isolation2.

(** The background task of the API never raises on a recorded request,
    whatever goes wrong in the pipeline: it leaves the record with
    status completed or error, so that the results endpoint no longer
    answers that the analysis is in progress.  On a request that was
    never recorded it raises the [KeyError] of the request id, out of
    its own handler, and records nothing.  In both cases the records of
    all other requests are left as they were. *)
Theorem background_task_settles_the_record env request_id url name email w :
  let run := Server.run_analysis env request_id url name email w in
  (∀ other, other ≠ request_id →
            analysis_store (snd run) !! other = analysis_store w !! other) ∧
  match analysis_store w !! request_id with
  | None =>
      fst run = Raise (Server.key_error request_id) ∧
      analysis_store (snd run) !! request_id = None
  | Some _ =>
      fst run = Ret tt ∧
      (∃ analysis,
         analysis_store (snd run) !! request_id = Some analysis ∧
         (analysis !! "status" = Some (Store.VStr "completed") ∨
          analysis !! "status" = Some (Store.VStr "error"))) ∧
      Server.get_analysis_results request_id (snd run) ≠ Ret Server.NotFound ∧
      ∀ status, Server.get_analysis_results request_id (snd run)
                ≠ Ret (Server.InProgress status)
  end.
Proof.
  intros run. split.
  { intros other Hne. by apply (run_analysis_elsewhere env request_id other). }
  destruct (analysis_store w !! request_id) as [analysis0|] eqn:Hw.
  - pose proof (run_analysis_spec env request_id url name email analysis0 w Hw) as H.
    subst run.
    destruct (Server.run_analysis _ _ _ _ _ w) as [[[]|msg] w']; [|done].
    simpl. destruct H as (analysis & Hst & Hcase).
    assert (analysis !! "status" = Some (Store.VStr "completed") ∨
            analysis !! "status" = Some (Store.VStr "error")) as Hstatus.
    { destruct Hcase as [?|[? _]]; [by right|by left]. }
    split; [done|]. split; [by exists analysis|].
    unfold Server.get_analysis_results. rewrite Hst.
    destruct Hstatus as [-> | ->]; simpl.
    + split; [by destruct (analysis !! "url")|].
      intros status. by destruct (analysis !! "url").
    + done.
  - split.
    + by apply run_analysis_unknown_raises.
    + by apply run_analysis_unknown.
Qed.

Section AfterTheTask.
Import Store Server.
Variable env : Env.

(** What the record of an accepted request is after the task. *)
Lemma run_analysis_record request_id url name email w items0 :
  accepted request_id items0 w →
  record_with request_id
    (λ a, completed_record env url items0 a ∨ failed_record items0 a)
    (snd (run_analysis env request_id url name email w)).
Proof.
  intros [Hnd Hw].
  pose proof (run_analysis_stages env request_id url name email items0 Hnd w Hw) as H.
  by destruct (run_analysis _ _ _ _ _ w) as [[[]|msg] w'].
Qed.

Lemma progress_at_stage request_id w analysis status known rest :
  analysis_store w !! request_id = Some analysis →
  at_stage status (agents_with known rest) analysis →
  dict_keys known = agent_names →
  analysis !! "current_agent" = Some VNone →
  get_analysis_progress request_id w
  = Ret (Progress {| pr_request_id := request_id; pr_status := status;
                     pr_current_agent := None;
                     pr_agents := shown_all known ++ rest |}).
Proof.
  intros Hw (Hstatus & items & Hitems & Hq) Hkeys Hcurrent.
  rewrite (get_analysis_progress_spec request_id w analysis items status None);
    try done.
  - rewrite (reported_known known rest items) by done.
    by destruct Hq as (_ & -> & _).
  - by destruct Hq.
  - by rewrite Hcurrent.
Qed.
End AfterTheTask.

(** What the progress endpoint shows once the background task of an
    accepted request is over.  If the task completed, the six agents
    are all shown as completed, the five workers with the message
    Analysis complete and the report agent with Report generated,
    whatever the workers and the pipeline did.  If the task failed, the
    status is error, the five workers are still shown as running and
    the report agent as pending (or the entries are untouched, when
    the orchestrator could not be built); the results endpoint answers
    with the message of the fault and the download says that the
    analysis is not yet completed.  No entry ever has a duration, and
    no agent is current. *)
Theorem progress_after_the_task env request_id url name email w items0 :
  accepted request_id items0 w →
  let w' := snd (Server.run_analysis env request_id url name email w) in
  ∃ status agents,
    Server.get_analysis_progress request_id w'
    = Ret (Server.Progress
             {| Server.pr_request_id := request_id; Server.pr_status := status;
                Server.pr_current_agent := None;
                Server.pr_agents := agents ++ others items0 |}) ∧
    ((status = "completed" ∧ agents = shown_all when_completed) ∨
     (status = "error" ∧
      (agents = shown_all while_running ∨
       agents = map (reported items0) Server.agent_names) ∧
      (∃ e, Server.get_analysis_results request_id w'
            = Ret (Server.AnalysisFailed (Store.VStr e))) ∧
      Server.download_pdf request_id w'
      = Ret (Server.PdfError 400 "Analysis not yet completed"))).
Proof.
  intros Hacc w'.
  destruct (run_analysis_record env request_id url name email w items0 Hacc)
    as (analysis & Hw' & [[Hstage (r & _ & Hcur & _)]|(Hcur & [e He] & Hstage)]).
  - exists "completed", (shown_all when_completed). split; [|by left].
    by apply (progress_at_stage request_id _ analysis).
  - assert (analysis !! "status" = Some (Store.VStr "error")) as Hstatus.
    { by destruct Hstage as [[? _]|[? _]]. }
    assert (Server.get_analysis_results request_id w'
            = Ret (Server.AnalysisFailed (Store.VStr e))) as Hres.
    { unfold Server.get_analysis_results. subst w'. rewrite Hw', Hstatus. simpl.
      by rewrite He. }
    assert (Server.download_pdf request_id w'
            = Ret (Server.PdfError 400 "Analysis not yet completed")) as Hpdf.
    { unfold Server.download_pdf. subst w'. by rewrite Hw', Hstatus. }
    destruct Hstage as [(_ & items & Hitems & <-)|Hstage].
    + destruct Hacc as [Hnd _].
      exists "error", (map (reported items0) Server.agent_names). split.
      * by apply (get_analysis_progress_spec request_id _ analysis items0 "error" None);
          [| | | |rewrite Hcur].
      * right. repeat split; [by right|by exists e|done].
    + exists "error", (shown_all while_running). split.
      * by apply (progress_at_stage request_id _ analysis).
      * right. repeat split; [by left|by exists e|done].
Qed.

Section Documents.
Import Store Server.
Variable env : Env.

(** The record behind a result document served after the task. *)
Lemma results_after_the_task request_id url name email w items0 doc :
  accepted request_id items0 w →
  get_analysis_results request_id (snd (run_analysis env request_id url name email w))
    = Ret (Results doc) →
  ∃ analysis r,
    analysis_store (snd (run_analysis env request_id url name email w)) !! request_id
      = Some analysis ∧
    analysis !! "status" = Some (VStr "completed") ∧
    result_of_run env url r ∧ holds_result r analysis ∧
    doc = {| p_request_id := request_id;
             p_url := default VNone (analysis !! "url");
             overallScore := VInt (stored_score r);
             report := VStr (served_report r);
             issuesFound := VInt (parse_report_stats (served_report r)).1.1;
             warnings := VInt (parse_report_stats (served_report r)).1.2;
             passed := VInt (parse_report_stats (served_report r)).2;
             categoryScores := VScores (Scores.parse_category_scores (served_report r));
             pdfAvailable := bool_decide (is_Some (Orchestrator.pdf_path r)) |}.
Proof.
  intros Hacc Hdoc.
  destruct (run_analysis_record env request_id url name email w items0 Hacc)
    as (analysis & Hw' & [[[Hstatus _] (r & Hrun & Hres)]|(_ & _ & Hstage)]).
  - exists analysis, r. do 4 (split; [done|]).
    unfold get_analysis_results in Hdoc. rewrite Hw', Hstatus in Hdoc.
    destruct Hres as (_ & Hscore & Hreport & Hissues & Hwarnings & Hpassed & Hcats & Hpdf).
    rewrite Hscore, Hreport, Hissues, Hwarnings, Hpassed, Hcats, Hpdf in Hdoc.
    destruct (analysis !! "url") as [target|]; simpl in Hdoc; [|discriminate Hdoc].
    injection Hdoc as <-.
    f_equal. by destruct (Orchestrator.pdf_path r).
  - assert (analysis !! "status" = Some (VStr "error")) as Hstatus.
    { by destruct Hstage as [[? _]|[? _]]. }
    unfold get_analysis_results in Hdoc. rewrite Hw', Hstatus in Hdoc.
    discriminate Hdoc.
Qed.
End Documents.

(** The result document of an accepted request is read off the result
    of the run, without regard to the status of that result: the score
    is the overall score or 75, the report is the final report or the
    empty text, and the category scores are parsed from that text.  A
    run that ended without a report, or with an empty one, is therefore
    served as a completed analysis with an empty report, 3 issues, 5
    warnings, 15 passed checks and 75 in every category. *)
Theorem results_are_read_off_the_report env request_id url name email w items0 doc :
  accepted request_id items0 w →
  Server.get_analysis_results request_id
    (snd (Server.run_analysis env request_id url name email w))
    = Ret (Server.Results doc) →
  ∃ r,
    result_of_run env url r ∧
    Server.overallScore doc = Store.VInt (stored_score r) ∧
    Server.report doc = Store.VStr (served_report r) ∧
    Server.categoryScores doc
    = Store.VScores (Scores.parse_category_scores (served_report r)) ∧
    (Orchestrator.final_report r = None → served_report r = "") ∧
    (served_report r = "" →
     Server.report doc = Store.VStr "" ∧
     Server.issuesFound doc = Store.VInt 3 ∧
     Server.warnings doc = Store.VInt 5 ∧
     Server.passed doc = Store.VInt 15 ∧
     Server.categoryScores doc
     = Store.VScores [("security", 75); ("onpage", 75); ("content", 75);
                      ("performance", 75); ("indexability", 75)]).
Proof.
  intros Hacc Hdoc.
  destruct (results_after_the_task env request_id url name email w items0 doc Hacc Hdoc)
    as (analysis & r & _ & _ & Hrun & _ & ->).
  exists r. simpl. do 4 (split; [done|]).
  split; [unfold served_report; by intros ->|].
  intros ->. vm_compute. repeat split; reflexivity.
Qed.

(** The two endpoints agree on the rendered report of an accepted
    request: when the result document says that a PDF is available,
    the download answers with a file whose path is not empty, named
    after the first eight characters of the request id; when it says
    that none is available, the download answers 404. *)
Theorem offered_pdf_can_be_downloaded env request_id url name email w items0 doc :
  accepted request_id items0 w →
  let w' := snd (Server.run_analysis env request_id url name email w) in
  Server.get_analysis_results request_id w' = Ret (Server.Results doc) →
  if Server.pdfAvailable doc
  then ∃ path,
         path ≠ "" ∧
         Server.download_pdf request_id w'
         = Ret (Server.PdfFile (Store.VStr path)
                  ("seo-report-" +:+ substring 0 8 request_id +:+ ".pdf"))
  else Server.download_pdf request_id w'
       = Ret (Server.PdfError 404 "PDF not available").
Proof.
  intros Hacc w' Hdoc.
  destruct (results_after_the_task env request_id url name email w items0 doc Hacc Hdoc)
    as (analysis & r & Hw' & Hstatus & [w0 Hrun] & Hres & ->).
  destruct Hres as (_ & _ & _ & _ & _ & _ & _ & Hpath).
  pose proof (analyze_website_pdf env Agents.ANALYSIS_AGENTS url w0) as Hok.
  destruct (Orchestrator.analyze_website _ _ _ w0) as [[r'|msg] w1];
    simpl in Hrun; [|discriminate Hrun].
  injection Hrun as ->.
  unfold Server.download_pdf. subst w'. rewrite Hw', Hstatus, Hpath. simpl.
  destruct (Orchestrator.pdf_path r) as [path|] eqn:E; simpl.
  - specialize (Hok path E).
    simpl. rewrite Hok. simpl. exists path. split; [|done].
    intros ->. discriminate Hok.
  - done.
Qed.

(** A request that has just been accepted is pending on every
    endpoint: the answer of [start_analysis] names the id under which
    the record is kept, the progress endpoint lists the six agents as
    pending with no agent current, the results endpoint answers that
    the analysis is in progress, the download that it is not yet
    completed; and the records of other requests are as they were. *)
Theorem accepted_request_is_pending env request w :
  ∃ request_id w1,
    Server.start_analysis env request w
    = (Ret {| Server.r_request_id := request_id;
              Server.r_message := "Analysis started successfully";
              Server.r_status := "pending" |}, w1) ∧
    accepted request_id [] w1 ∧
    Server.get_analysis_progress request_id w1
    = Ret (Server.Progress
             {| Server.pr_request_id := request_id; Server.pr_status := "pending";
                Server.pr_current_agent := None;
                Server.pr_agents := map not_started Server.agent_names |}) ∧
    Server.get_analysis_results request_id w1
    = Ret (Server.InProgress (Store.VStr "pending")) ∧
    Server.download_pdf request_id w1
    = Ret (Server.PdfError 400 "Analysis not yet completed") ∧
    ∀ other, other ≠ request_id →
             analysis_store w1 !! other = analysis_store w !! other.
Proof.
  unfold Server.start_analysis, Orchestrator.fresh_uuid, Server.timestamp.
  unfold bind, modify, ret. simpl.
  set (request_id := uuid4 env (draws w)).
  match goal with
  | |- context [<[request_id := ?record]> (analysis_store w)] =>
      set (analysis := record)
  end.
  eexists request_id, _. split; [reflexivity|].
  assert (analysis !! "agents" = Some (Store.VAgents [])) as Hagents by done.
  assert (analysis !! "status" = Some (Store.VStr "pending")) as Hstatus by done.
  assert (analysis !! "current_agent" = Some Store.VNone) as Hcurrent by done.
  split; [|split; [|split; [|split]]].
  - split; [constructor|]. exists analysis. simpl. by rewrite lookup_insert_eq.
  - rewrite (get_analysis_progress_spec request_id _ analysis [] "pending" None);
      [done|simpl; apply lookup_insert_eq|done|constructor|done|by rewrite Hcurrent].
  - unfold Server.get_analysis_results. simpl. by rewrite lookup_insert_eq, Hstatus.
  - unfold Server.download_pdf. simpl. by rewrite lookup_insert_eq, Hstatus.
  - intros other Hne. simpl. by rewrite lookup_insert_ne.
Qed.

Lemma recorded_request_accepted env :
  uuid4 env 0%nat = Scenario.request_id →
  accepted Scenario.request_id [] (Scenario.recorded_request env).
Proof.
  intros Hid. split; [constructor|].
  unfold Scenario.recorded_request, Server.start_analysis, Orchestrator.fresh_uuid,
    Server.timestamp, bind, modify, ret. simpl. rewrite Hid.
  eexists. split; [apply lookup_insert_eq|done].
Qed.

(** An instance: the progress of a request that has just been
    accepted on a healthy system. *)
Lemma progress_lists_the_six_agents_witness :
  Server.get_analysis_progress Scenario.request_id
    (Scenario.recorded_request Scenario.healthy)
  = Ret (Server.Progress
           {| Server.pr_request_id := Scenario.request_id;
              Server.pr_status := "pending";
              Server.pr_current_agent := None;
              Server.pr_agents := map (reported []) Server.agent_names ++ others [] |}).
Proof.
  eapply (progress_lists_the_six_agents Scenario.request_id
            (Scenario.recorded_request Scenario.healthy) _ [] "pending" None).
  - vm_compute. reflexivity.
  - vm_compute. reflexivity.
  - constructor.
  - vm_compute. reflexivity.
  - vm_compute. reflexivity.
Defined.

(** An instance: on a healthy system the task completes and the six
    agents are shown as completed. *)
Lemma progress_after_the_task_witness :
  accepted Scenario.request_id [] (Scenario.recorded_request Scenario.healthy) ∧
  ∃ status agents,
    Server.get_analysis_progress Scenario.request_id
      (Scenario.served_request Scenario.healthy)
    = Ret (Server.Progress
             {| Server.pr_request_id := Scenario.request_id;
                Server.pr_status := status;
                Server.pr_current_agent := None;
                Server.pr_agents := agents ++ others [] |}) ∧
    ((status = "completed" ∧ agents = shown_all when_completed) ∨
     (status = "error" ∧
      (agents = shown_all while_running ∨
       agents = map (reported []) Server.agent_names) ∧
      (∃ e, Server.get_analysis_results Scenario.request_id
              (Scenario.served_request Scenario.healthy)
            = Ret (Server.AnalysisFailed (Store.VStr e))) ∧
      Server.download_pdf Scenario.request_id
        (Scenario.served_request Scenario.healthy)
      = Ret (Server.PdfError 400 "Analysis not yet completed"))).
Proof.
  assert (accepted Scenario.request_id [] (Scenario.recorded_request Scenario.healthy))
    as Hacc by (apply recorded_request_accepted; reflexivity).
  split; [exact Hacc|].
  exact (progress_after_the_task Scenario.healthy Scenario.request_id
           "https://example.com" "Ann" "ann@example.org" _ [] Hacc).
Defined.

(** An instance: the first log write of the pipeline faults, the
    orchestrator returns a failed result without a report, and the API
    serves a completed analysis with the default numbers. *)
Lemma results_are_read_off_the_report_witness :
  match fst (Orchestrator.analyze_website Scenario.first_log_fails
               Agents.ANALYSIS_AGENTS "https://example.com" initial_world) with
  | Ret r => Orchestrator.status r = "failed" ∧ Orchestrator.final_report r = None
  | Raise _ => False
  end ∧
  ∃ doc,
    Server.get_analysis_results Scenario.request_id
      (Scenario.served_request Scenario.first_log_fails)
    = Ret (Server.Results doc) ∧
    Server.overallScore doc = Store.VInt 75 ∧
    Server.issuesFound doc = Store.VInt 3 ∧
    ∃ r,
      result_of_run Scenario.first_log_fails "https://example.com" r ∧
      Server.overallScore doc = Store.VInt (stored_score r) ∧
      Server.report doc = Store.VStr (served_report r).
Proof.
  split; [vm_compute; by split|].
  destruct (Server.get_analysis_results Scenario.request_id
              (Scenario.served_request Scenario.first_log_fails))
    as [[| | |doc]|] eqn:E; try (vm_compute in E; discriminate E).
  exists doc. split; [reflexivity|].
  assert (accepted Scenario.request_id []
            (Scenario.recorded_request Scenario.first_log_fails))
    as Hacc by (apply recorded_request_accepted; reflexivity).
  destruct (results_are_read_off_the_report Scenario.first_log_fails
              Scenario.request_id "https://example.com" "Ann" "ann@example.org"
              _ [] doc Hacc E) as (r & Hrun & Hscore & Hreport & _).
  vm_compute in E. injection E as <-.
  split; [reflexivity|]. split; [reflexivity|].
  exists r. by repeat split.
Defined.

(** An instance: on a healthy system the rendered report is offered
    and can be downloaded. *)
Lemma offered_pdf_can_be_downloaded_witness :
  ∃ path,
    path ≠ "" ∧
    Server.download_pdf Scenario.request_id
      (Scenario.served_request Scenario.healthy)
    = Ret (Server.PdfFile (Store.VStr path) "seo-report-3f2a9c1e.pdf").
Proof.
  assert (accepted Scenario.request_id [] (Scenario.recorded_request Scenario.healthy))
    as Hacc by (apply recorded_request_accepted; reflexivity).
  destruct (Server.get_analysis_results Scenario.request_id
              (Scenario.served_request Scenario.healthy))
    as [[| | |doc]|] eqn:E; try (vm_compute in E; discriminate E).
  pose proof (offered_pdf_can_be_downloaded Scenario.healthy Scenario.request_id
                "https://example.com" "Ann" "ann@example.org" _ [] doc Hacc E) as H.
  vm_compute in E. injection E as <-. exact H.
Defined.

(** Running one agent leaves a log trail that agrees with what it
    returns.  An agent without a runner is answered with a failed
    result of duration 0: nothing is dispatched and nothing is logged.
    An agent with a runner is dispatched exactly once, on the session
    and with the prompt given.  What the run ends in is decided by the
    first thing that goes wrong, if anything does: the capability
    faults, its answer cannot be read (the parts of a content are
    [None]), or the store refuses the row of the answer.  If nothing
    goes wrong the result is a success that carries the text of the
    answer.  Otherwise the answer is dropped and the result is a
    failure that carries the message of what went wrong, unless the
    store refuses the row of the failure too, in which case the run
    raises the fault of the store.  A run that returns has added
    exactly one row to the log, the row of its result: same agent,
    request and duration, and the action analysis_complete exactly
    when the result is a success.  A run that raises has added none.
    So a worker whose answer holds a content without parts is recorded
    as failed although the capability answered and the store is up. *)
Theorem worker_result_matches_its_log_row :
  (∀ env analysis_agents agent prompt session_id request_id w,
  let run := Orchestrator._run_agent env analysis_agents agent prompt session_id
               request_id w in
  let logs w := Database.analysis_logs (db w) in
  let answer :=
    match run_async env agent session_id prompt with
    | inl events =>
        match Orchestrator.collect_text events with
        | Ret text =>
            match db_log_fault env request_id agent "analysis_complete" with
            | Some fault => Raise fault
            | None => Ret text
            end
        | Raise unreadable => Raise unreadable
        end
    | inr fault => Raise fault
    end in
  if Orchestrator.has_runner analysis_agents agent then
    dispatched (snd run) = dispatched w ++ [(agent, session_id, prompt)] ∧
    match answer with
    | Ret text =>
        let r := {| Orchestrator.agent_name := agent; Orchestrator.success := true;
                    Orchestrator.result := text;
                    Orchestrator.duration_ms :=
                      elapsed_ms env agent "analysis_complete";
                    Orchestrator.error := None |} in
        fst run = Ret r ∧ logs (snd run) = logs w ++ [log_row_of request_id r]
    | Raise message =>
        match db_log_fault env request_id agent "analysis_error" with
        | None =>
            let r := {| Orchestrator.agent_name := agent;
                        Orchestrator.success := false; Orchestrator.result := "";
                        Orchestrator.duration_ms :=
                          elapsed_ms env agent "analysis_error";
                        Orchestrator.error := Some message |} in
            fst run = Ret r ∧ logs (snd run) = logs w ++ [log_row_of request_id r]
        | Some fault => fst run = Raise fault ∧ logs (snd run) = logs w
        end
    end
  else
    run = (Ret {| Orchestrator.agent_name := agent; Orchestrator.success := false;
                  Orchestrator.result := ""; Orchestrator.duration_ms := 0;
                  Orchestrator.error :=
                    Some ("Runner not found for agent: " +:+ agent) |}, w)) ∧
  fst (Orchestrator._run_agent Scenario.security_unreadable Agents.ANALYSIS_AGENTS
         "security_agent"
         (Orchestrator.prompt_for "https://example.com" "security_agent")
         "seo_session_3f2a9c1e_security_agent" "3f2a9c1e" initial_world)
  = Ret {| Orchestrator.agent_name := "security_agent";
           Orchestrator.success := false; Orchestrator.result := "";
           Orchestrator.duration_ms := 1200;
           Orchestrator.error := Some "'NoneType' object is not iterable" |}.
Proof.
  split; [|reflexivity].
  intros env analysis_agents agent prompt session_id request_id w run logs answer.
  subst run logs answer. unfold Orchestrator._run_agent.
  destruct (Orchestrator.has_runner analysis_agents agent); simpl; [|done].
  unfold try_except, bind, Orchestrator.invoke, on_db, zoom,
    Database.log_agent_action.
  destruct (run_async env agent session_id prompt) as [events|fault]; simpl;
    [destruct (Orchestrator.collect_text events) as [text|unreadable]; simpl;
     [destruct (db_log_fault env request_id agent "analysis_complete"); simpl|]|];
    try destruct (db_log_fault env request_id agent "analysis_error"); simpl;
    done.
Qed.

Section Calls.
Import Orchestrator.
Variable env : Env.
Variable analysis_agents : list string.

Lemma on_db_wire {A} (m : M Database.DatabaseClient A) : preserves wire (on_db m).
Proof. by apply preserves_zoom_out. Qed.

Lemma quiet_sessions {A} (m : M World A) :
  preserves quiet m → preserves session_service m.
Proof.
  apply (preserves_weaken quiet session_service (λ q, q.1.1.1.2)). by intros w.
Qed.

Lemma run_parallel_analysis_wire url request_id session_id w :
  wire (snd (run_parallel_analysis env analysis_agents url request_id session_id w))
  = (session_service w,
     dispatched w ++
     map (λ agent, (agent, session_id +:+ "_" +:+ agent, prompt_for url agent))
       analysis_agents).
Proof.
  unfold wire. f_equal.
  - apply (quiet_sessions _ (run_parallel_analysis_quiet env analysis_agents url
                               request_id session_id)).
  - pose proof (gather_dispatched env analysis_agents url request_id session_id
                  analysis_agents w (λ agent H, H)) as Hd.
    unfold run_parallel_analysis, bind, tasks.
    by destruct (gather _ w) as [[os|msg] w1].
Qed.

Lemma generate_report_wire url agent_results request_id session_id w :
  wire (snd (generate_report env analysis_agents url agent_results request_id
               session_id w))
  = (session_service w,
     dispatched w ++
     [("report_agent", session_id +:+ "_report_agent",
       report_prompt url agent_results)]).
Proof.
  unfold wire. f_equal.
  - apply (quiet_sessions _ (generate_report_quiet env analysis_agents url
                               agent_results request_id session_id)).
  - apply _run_agent_dispatched, has_runner_report.
Qed.

(** A statement on the world, seen from inside [try]. *)
Lemma hoare_wire {A} (m : M World A) (f : _ → _) x :
  (∀ w, wire (snd (m w)) = f (wire w)) →
  hoare (λ s : SEOAnalysisResult * World, wire (snd s) = x) (on_world m)
    (λ _ s, wire (snd s) = f x) (λ _ s, wire (snd s) = f x).
Proof.
  intros Hm [r w] Hw. unfold on_world, zoom. simpl in *.
  specialize (Hm w). rewrite Hw in Hm.
  by destruct (m w) as [[a|msg] w'].
Qed.

Lemma hoare_wire_frame {A} (m : M (SEOAnalysisResult * World) A) x :
  preserves (λ s, wire (snd s)) m →
  hoare (λ s, wire (snd s) = x) m
    (λ _ s, wire (snd s) = x) (λ _ s, wire (snd s) = x).
Proof. intros Hm. apply (hoare_preserves _ m (λ y, y = x) Hm). Qed.

Lemma store_results_wire request_id :
  preserves (λ s, wire (snd s)) (store_results env request_id).
Proof.
  unfold store_results.
  repeat first [ apply (on_world_preserves wire), on_db_wire
               | apply (assign_preserves wire) | apply analysis_result_preserves
               | preserves_step ].
Qed.

Lemma analyze_except_wire request_id error_msg :
  preserves (λ s, wire (snd s)) (analyze_except env request_id error_msg).
Proof.
  unfold analyze_except.
  repeat first
    [ apply (assign_preserves wire)
    | apply (on_world_preserves wire), on_db_wire
    | preserves_step ].
Qed.

Lemma analyze_try_wire url request_id ss d0 :
  hoare (λ s, wire (snd s) = (ss, d0))
    (analyze_try env analysis_agents url request_id ("seo_session_" +:+ request_id))
    (λ _ s, ∃ calls, calls_of_run analysis_agents url request_id calls ∧
                     wire (snd s) = (ss, d0 ++ calls))
    (λ _ s, ∃ calls, calls_of_run analysis_agents url request_id calls ∧
                     wire (snd s) = (ss, d0 ++ calls)).
Proof.
  unfold analyze_try.
  apply hoare_bind with (mid := λ _ s, wire (snd s) = (ss, d0)).
  { eapply hoare_consequence;
      [apply (hoare_wire_frame _ (ss, d0)), (on_world_preserves wire), on_db_wire
      |done|done|].
    intros ? s Hs. exists []. split; [by left|by rewrite app_nil_r]. }
  intros ?.
  apply hoare_bind with
    (mid := λ _ s, wire (snd s)
                   = (ss, d0 ++ worker_calls analysis_agents url request_id)).
  { eapply hoare_consequence;
      [apply (hoare_wire _ (λ x, (x.1, x.2 ++ worker_calls analysis_agents url request_id))
                (ss, d0));
       intros w; apply run_parallel_analysis_wire
      |done|done|].
    intros ? s Hs. exists (worker_calls analysis_agents url request_id).
    split; [right; by left|done]. }
  intros agent_results.
  apply hoare_bind with
    (mid := λ _ s, wire (snd s)
                   = (ss, d0 ++ worker_calls analysis_agents url request_id)).
  { by intros [r w]. }
  intros ?.
  apply hoare_bind with
    (mid := λ _ s, wire (snd s)
                   = (ss, d0 ++ worker_calls analysis_agents url request_id)).
  { eapply hoare_consequence;
      [apply (hoare_wire_frame _ (ss, d0 ++ worker_calls analysis_agents url request_id)),
         (on_world_preserves wire), on_db_wire
      |done|done|].
    intros ? s Hs. exists (worker_calls analysis_agents url request_id).
    split; [right; by left|done]. }
  intros ?.
  apply hoare_bind with
    (mid := λ _ s, wire (snd s)
                   = (ss, d0 ++ (worker_calls analysis_agents url request_id ++
                                 [report_call url request_id agent_results]))).
  { eapply hoare_consequence;
      [apply (hoare_wire _ (λ x, (x.1, x.2 ++ [report_call url request_id agent_results]))
                (ss, d0 ++ worker_calls analysis_agents url request_id));
       intros w; apply generate_report_wire
      |done| |];
      simpl; intros ? s Hs; [by rewrite app_assoc|].
    eexists. split; [right; right; by eexists|by rewrite app_assoc]. }
  intros report_result.
  eapply hoare_consequence;
    [apply (hoare_wire_frame _
              (ss, d0 ++ (worker_calls analysis_agents url request_id ++
                          [report_call url request_id agent_results])));
     apply preserves_bind;
     [apply (record_report_preserves env wire)|intros; apply store_results_wire]
    |done| |];
    intros ? s Hs; (eexists; split; [|exact Hs]; right; right; by eexists).
Qed.
Lemma analyze_guarded_wire url request_id ss d0 :
  hoare (λ s, wire (snd s) = (ss, d0))
    (try_except
       (analyze_try env analysis_agents url request_id ("seo_session_" +:+ request_id))
       (analyze_except env request_id))
    (λ _ s, ∃ calls, calls_of_run analysis_agents url request_id calls ∧
                     wire (snd s) = (ss, d0 ++ calls))
    (λ _ s, ∃ calls, calls_of_run analysis_agents url request_id calls ∧
                     wire (snd s) = (ss, d0 ++ calls)).
Proof.
  eapply hoare_try_except; [apply analyze_try_wire|].
  intros msg s (calls & Hcalls & Hs).
  pose proof (analyze_except_wire request_id msg s) as Hframe.
  destruct (analyze_except env request_id msg s) as [[a|msg'] s'];
    simpl in Hframe; exists calls; by rewrite Hframe.
Qed.
End Calls.

Section Sessions.
Import Orchestrator.
Variable env : Env.
Variable analysis_agents : list string.

Lemma create_session_wire session_id ss d :
  hoare (λ w, wire w = (ss, d)) (create_session env session_id)
    (λ _ w, wire w = (ss ++ [session_id], d)) (λ _ w, dispatched w = d).
Proof.
  intros w Hw. unfold create_session.
  destruct (session_fault env session_id); simpl.
  - by injection Hw.
  - unfold wire in *. simpl. by injection Hw as -> ->.
Qed.

Lemma create_sessions_wire (f : string → string) l ss d :
  hoare (λ w, wire w = (ss, d))
    (for_each l (λ agent, create_session env (f agent)))
    (λ _ w, wire w = (ss ++ map f l, d)) (λ _ w, dispatched w = d).
Proof.
  revert ss. induction l as [|agent l IH]; intros ss; simpl.
  - intros w Hw. simpl. by rewrite app_nil_r.
  - eapply hoare_bind; [apply create_session_wire|].
    intros ?. eapply hoare_post; [apply IH|].
    intros ? w Hw. simpl in Hw. by rewrite <- app_assoc in Hw.
Qed.

Lemma hoare_sent {A} (m : M World A) ss d :
  preserves wire m →
  hoare (λ w, wire w = (ss, d)) m (λ _ w, wire w = (ss, d)) (λ _ w, dispatched w = d).
Proof.
  intros Hm. eapply hoare_consequence;
    [apply (hoare_preserves wire m (λ y, y = (ss, d)) Hm)|done|done|].
  intros ? w Hw. by injection Hw.
Qed.

Lemma analyze_setup_wire url ss d :
  hoare (λ w, wire w = (ss, d)) (analyze_setup env analysis_agents url)
    (λ request_id w,
       wire w = (ss ++ map (λ agent, ("seo_session_" +:+ request_id) +:+ "_" +:+ agent)
                          analysis_agents
                    ++ [("seo_session_" +:+ request_id) +:+ "_report_agent"], d))
    (λ _ w, dispatched w = d).
Proof.
  unfold analyze_setup.
  eapply hoare_bind; [by apply hoare_sent|]. intros uuid.
  eapply hoare_bind; [apply hoare_sent, on_db_wire|]. intros request_data.
  cbv zeta.
  eapply hoare_bind; [apply hoare_sent, on_db_wire|]. intros ?.
  eapply hoare_bind; [apply create_sessions_wire|]. intros ?.
  eapply hoare_bind; [apply create_session_wire|]. intros ?.
  intros w Hw. simpl. by rewrite <- app_assoc in Hw.
Qed.

Lemma worker_sessions_created url request_id ss agent session prompt :
  (agent, session, prompt) ∈ worker_calls analysis_agents url request_id →
  session ∈ ss ++ map (λ agent, ("seo_session_" +:+ request_id) +:+ "_" +:+ agent)
                    analysis_agents
              ++ [("seo_session_" +:+ request_id) +:+ "_report_agent"].
Proof.
  unfold worker_calls. intros Hin.
  apply list_elem_of_fmap in Hin as (agent' & [= -> -> ->] & Hin).
  apply elem_of_app. right. apply elem_of_app. left.
  apply list_elem_of_fmap. by exists agent'.
Qed.
End Sessions.

(** Every call of a run goes to a session that the run has created.
    Whether the run returns or raises, the calls it has made to the
    capability are none, or one call per configured worker in the order
    of the configuration, or those followed by one call of the report
    agent: no agent is called twice, and the report agent is called
    only after all workers.  The session of every call is held by the
    session service when the run is over. *)
Theorem calls_go_to_created_sessions env analysis_agents url w :
  let w' := snd (Orchestrator.analyze_website env analysis_agents url w) in
  ∃ request_id calls,
    dispatched w' = dispatched w ++ calls ∧
    calls_of_run analysis_agents url request_id calls ∧
    ∀ agent session prompt,
      (agent, session, prompt) ∈ calls → session ∈ session_service w'.
Proof.
  intros w'. subst w'. unfold Orchestrator.analyze_website, bind.
  pose proof (analyze_setup_wire env analysis_agents url (session_service w)
                (dispatched w) w eq_refl) as Hsetup.
  destruct (Orchestrator.analyze_setup env analysis_agents url w)
    as [[request_id|msg] w1].
  - unfold Orchestrator.with_local.
    pose proof (analyze_guarded_wire env analysis_agents url request_id _ _
                  (Orchestrator.new_result url request_id, w1) Hsetup) as Htry.
    destruct (try_except _ _ _) as [[a|msg] [r w2]]; simpl in *;
      destruct Htry as (calls & Hcalls & Hwire);
      injection Hwire as Hsessions Hcalled;
      (exists request_id, calls; split; [done|]; split; [done|]);
      intros agent session prompt Hin; rewrite Hsessions;
      (destruct Hcalls as [->|[->|[agent_results ->]]];
       [by apply elem_of_nil in Hin
       |by apply (worker_sessions_created analysis_agents url request_id _ agent _ prompt)
       |]);
      (apply elem_of_app in Hin as [Hin|Hin];
       [by apply (worker_sessions_created analysis_agents url request_id _ agent _ prompt)
       |]);
      apply list_elem_of_singleton in Hin; injection Hin as -> -> ->;
      rewrite app_assoc; apply elem_of_app; right; in_list.
  - exists "", []. simpl in *. rewrite Hsetup, !app_nil_r.
    repeat split; [by left|].
    intros ??? H. by apply elem_of_nil in H.
Qed.
